(** * tt-screen-logger: the on-screen console sink, embedded and verified

    The development follows the TypeScript sources:

    - [utils/early-logs]  (the early-capture buffer and its replay),
    - [components/dev-screen-logger.tsx], in its two revisions (the one
      whose panel renders through [formatLogText], and the earlier one
      whose [genericLogger] renders structured arguments itself),
    - the Leva variant of the component ([processLog], [destroyLogger]).

    JavaScript strings are modelled as [string] (a sequence of code units
    below 256), numbers as integers, objects and arrays as cells of a heap
    so that cyclic structures exist.  Thrown exceptions are explicit. *)

From Stdlib Require Import ZArith List String Ascii Bool Lia.
From Stdlib Require Import Numbers.DecimalString.
Import ListNotations.
Open Scope string_scope.
Open Scope list_scope.
Open Scope nat_scope.

(* ===================================================================== *)
(** * Part I: host language                                               *)
(* ===================================================================== *)

(** ** JavaScript string primitives used by the sources *)
Module JS.

Definition codeOf (c : ascii) : nat := nat_of_ascii c.

(** White space of [\s] and of [String.prototype.trim], restricted to
    code units below 256: TAB, LF, VT, FF, CR, SPACE, NBSP. *)
Definition isSpace (c : ascii) : bool :=
  let n := codeOf c in
  ((9 <=? n) && (n <=? 13)) || (n =? 32) || (n =? 160).

Definition isDigit (c : ascii) : bool :=
  let n := codeOf c in (48 <=? n) && (n <=? 57).

Definition isAlpha (c : ascii) : bool :=
  let n := codeOf c in
  ((65 <=? n) && (n <=? 90)) || ((97 <=? n) && (n <=? 122)).

(** [\w] is [[A-Za-z0-9_]]. *)
Definition isWord (c : ascii) : bool :=
  isAlpha c || isDigit c || (codeOf c =? 95).

(** [.] matches everything except the line terminators LF and CR. *)
Definition isDot (c : ascii) : bool :=
  let n := codeOf c in negb ((n =? 10) || (n =? 13)).

Definition isChar (a c : ascii) : bool := Ascii.eqb a c.

Definition chars (s : string) : list ascii := list_ascii_of_string s.
Definition text (l : list ascii) : string := string_of_list_ascii l.

Fixpoint dropWhile (p : ascii -> bool) (l : list ascii) : list ascii :=
  match l with
  | c :: l' => if p c then dropWhile p l' else l
  | [] => []
  end.

(** [s.trim()] *)
Definition trim (s : string) : string :=
  text (rev (dropWhile isSpace (rev (dropWhile isSpace (chars s))))).

(** [s.substring(0, n)] *)
Definition substring0 (n : nat) (s : string) : string :=
  String.substring 0 n s.

Fixpoint stripPrefix (p l : list ascii) : option (list ascii) :=
  match p, l with
  | [], _ => Some l
  | a :: p', c :: l' => if Ascii.eqb a c then stripPrefix p' l' else None
  | _ :: _, [] => None
  end.

Fixpoint includesChars (p l : list ascii) : bool :=
  match stripPrefix p l with
  | Some _ => true
  | None => match l with
            | _ :: l' => includesChars p l'
            | [] => false
            end
  end.

(** [s.includes(sub)] *)
Definition includes (sub s : string) : bool :=
  includesChars (chars sub) (chars s).

(** [String(n)] for an integral number below 1e21 in magnitude, which
    JavaScript prints as its decimal numeral; larger numbers, which it
    prints with an exponent, are outside what is represented. *)
Definition stringOfZ (n : Z) : string :=
  NilZero.string_of_int (Z.to_int n).

(** [s.split(/\s+/)] and [s.split(/(\s+)/)]: the text between maximal
    runs of white space, with the runs themselves kept when the
    separator is a capture group.  [cur] is the piece being read, in
    reverse. *)
Fixpoint splitRuns (keep : bool) (cur run : list ascii) (l : list ascii)
  : list string :=
  match l with
  | [] =>
      match run with
      | [] => [text (rev cur)]
      | _ => (if keep then [text (rev run)] else []) ++ [text (rev cur)]
      end
  | c :: l' =>
      if isSpace c then
        match run with
        | [] => text (rev cur) :: splitRuns keep [] [c] l'
        | _ => splitRuns keep [] (c :: run) l'
        end
      else
        match run with
        | [] => splitRuns keep (c :: cur) [] l'
        | _ => (if keep then [text (rev run)] else [])
                 ++ splitRuns keep [c] [] l'
        end
  end.

Definition splitSpaces (s : string) : list string :=
  splitRuns false [] [] (chars s).

Definition splitSpacesKeep (s : string) : list string :=
  splitRuns true [] [] (chars s).

End JS.

(** ** Regular expressions, as the JavaScript engine matches them

    A backtracking matcher in continuation-passing style.  Quantifiers
    range over character classes, which is all the sources use; [ROpt]
    is the greedy [(?:r)?]; every pattern of the sources starts with [^],
    so matching is anchored at the first character. *)
Module Regex.

Inductive regex : Type :=
| RChar (p : ascii -> bool)                  (* one character of a class *)
| RLit (s : string)                          (* literal text *)
| RSeq (r1 r2 : regex)
| RStar (greedy : bool) (p : ascii -> bool)  (* [p*] and [p*?] *)
| RPlus (greedy : bool) (p : ascii -> bool)  (* [p+] and [p+?] *)
| ROpt (r : regex)                           (* [(?:r)?] *)
| RGroup (n : nat) (r : regex)               (* n-th capture group *)
| REnd.                                      (* [$] *)

Definition captures := list (nat * string).

Fixpoint group (n : nat) (cs : captures) : option string :=
  match cs with
  | [] => None
  | (m, s) :: cs' => if Nat.eqb n m then Some s else group n cs'
  end.

Section Matcher.
Variable R : Type.

(** Greedy iteration: take as many characters as possible, give back
    one at a time when the rest of the pattern fails. *)
Fixpoint starGreedy (p : ascii -> bool) (s : list ascii)
         (k : list ascii -> option R) : option R :=
  match s with
  | c :: s' =>
      if p c then
        match starGreedy p s' k with
        | Some r => Some r
        | None => k s
        end
      else k s
  | [] => k s
  end.

(** Lazy iteration: try the rest of the pattern first. *)
Fixpoint starLazy (p : ascii -> bool) (s : list ascii)
         (k : list ascii -> option R) : option R :=
  match k s with
  | Some r => Some r
  | None =>
      match s with
      | c :: s' => if p c then starLazy p s' k else None
      | [] => None
      end
  end.

Definition star (greedy : bool) := if greedy then starGreedy else starLazy.

Definition consumed (s s' : list ascii) : string :=
  JS.text (firstn (List.length s - List.length s') s).

Fixpoint run (r : regex) (s : list ascii) (cs : captures)
         (k : list ascii -> captures -> option R) : option R :=
  match r with
  | RChar p =>
      match s with
      | c :: s' => if p c then k s' cs else None
      | [] => None
      end
  | RLit l =>
      match JS.stripPrefix (JS.chars l) s with
      | Some s' => k s' cs
      | None => None
      end
  | RSeq r1 r2 => run r1 s cs (fun s' cs' => run r2 s' cs' k)
  | RStar g p => star g p s (fun s' => k s' cs)
  | RPlus g p =>
      match s with
      | c :: s' => if p c then star g p s' (fun s'' => k s'' cs) else None
      | [] => None
      end
  | ROpt r1 =>
      match run r1 s cs k with
      | Some res => Some res
      | None => k s cs
      end
  | RGroup n r1 =>
      run r1 s cs (fun s' cs' => k s' ((n, consumed s s') :: cs'))
  | REnd =>
      match s with
      | [] => k s cs
      | _ :: _ => None
      end
  end.
End Matcher.
Arguments run {R} r s cs k.

(** [text.match(/^r/)]: the captures of the first successful match. *)
Definition exec (r : regex) (s : string) : option captures :=
  run r (JS.chars s) [] (fun _ cs => Some cs).

(** [/^r/.test(text)] *)
Definition test (r : regex) (s : string) : bool :=
  match exec r s with Some _ => true | None => false end.

Fixpoint seq (rs : list regex) : regex :=
  match rs with
  | [] => RLit ""
  | [r] => r
  | r :: rs' => RSeq r (seq rs')
  end.

Definition notc (p : ascii -> bool) (c : ascii) : bool := negb (p c).

End Regex.

(* ===================================================================== *)
(** * Part II: values and the classifier                                  *)
(* ===================================================================== *)

(** ** Logged values *)
Module Value.

Definition loc := nat.

Inductive prim : Type :=
| PUndefined
| PNull
| PBool (b : bool)
| PNum (n : Z)       (* an integral number; fractions, NaN and the
                        infinities are not represented *)
| PStr (s : string).

(** A logged argument: a primitive, or a reference to an object or an
    array of the heap. *)
Inductive value : Type :=
| VPrim (p : prim)
| VRef (l : loc).

Inductive cell : Type :=
| HObject (fields : list (string * value))   (* own enumerable keys, in order *)
| HArray (elems : list value).

Definition heap := list cell.

(** Reading a cell; a location outside the heap is an object without
    properties. *)
Definition deref (h : heap) (l : loc) : cell :=
  nth l h (HObject []).

(** [String(v)] on a primitive. *)
Definition stringOfPrim (p : prim) : string :=
  match p with
  | PUndefined => "undefined"
  | PNull => "null"
  | PBool true => "true"
  | PBool false => "false"
  | PNum n => JS.stringOfZ n
  | PStr s => s
  end.

(** The outcome of an expression that may throw. *)
Inductive result (A : Type) : Type :=
| Ok (a : A)
| Throw.
Arguments Ok {A} a.
Arguments Throw {A}.

End Value.

(** ** [JSON.stringify(value)] and [JSON.stringify(value, null, 2)]

    The serializer keeps the stack of the objects it is inside of and
    throws a [TypeError] when it meets one of them again.  Properties
    whose value is [undefined] are left out of objects and written
    [null] in arrays.  [gap] is the indentation unit, empty for the
    compact form. *)
Module Json.
Import Value.

Definition dquote : string := String (ascii_of_nat 34) "".
Definition backslash : string := String (ascii_of_nat 92) "".
Definition newline : string := String (ascii_of_nat 10) "".
Definition hexDigit (n : nat) : string :=
  String (ascii_of_nat (if n <? 10 then 48 + n else 87 + n)) "".

Definition escapeChar (c : ascii) : string :=
  let n := JS.codeOf c in
  if n =? 34 then backslash ++ dquote
  else if n =? 92 then backslash ++ backslash
  else if n =? 8 then backslash ++ "b"
  else if n =? 9 then backslash ++ "t"
  else if n =? 10 then backslash ++ "n"
  else if n =? 12 then backslash ++ "f"
  else if n =? 13 then backslash ++ "r"
  else if n <? 32 then backslash ++ "u00" ++ hexDigit (n / 16) ++ hexDigit (n mod 16)
  else String c "".

(** [QuoteJSONString] *)
Definition quote (s : string) : string :=
  dquote ++ String.concat "" (map escapeChar (JS.chars s)) ++ dquote.

Section Traverse.
Variables A B : Type.
Variable f : A -> option (result B).

(** Left to right; the first throw (or exhaustion) ends it. *)
Fixpoint traverse (l : list A) : option (result (list B)) :=
  match l with
  | [] => Some (Ok [])
  | a :: l' =>
      match f a with
      | None => None
      | Some Throw => Some Throw
      | Some (Ok b) =>
          match traverse l' with
          | None => None
          | Some Throw => Some Throw
          | Some (Ok bs) => Some (Ok (b :: bs))
          end
      end
  end.
End Traverse.
Arguments traverse {A B} f l.

Definition wrap (gap opening closing indent stepback : string)
           (partial : list string) : string :=
  match partial with
  | [] => opening ++ closing
  | _ =>
      if String.eqb gap "" then
        opening ++ String.concat "," partial ++ closing
      else
        opening ++ newline ++ indent
          ++ String.concat ("," ++ newline ++ indent) partial
          ++ newline ++ stepback ++ closing
  end.

Definition member (gap : string) (kv : string * option string)
  : list string :=
  match snd kv with
  | Some s =>
      [(quote (fst kv) ++ ":" ++ (if String.eqb gap "" then "" else " ") ++ s)%string]
  | None => []
  end.

Definition element (o : option string) : string :=
  match o with Some s => s | None => "null" end.

(** [SerializeJSONProperty]; [None] in the result is [undefined].  The
    outer [option] is the recursion budget, one unit per object entered. *)
Fixpoint serializeProperty (h : heap) (gap : string) (fuel : nat)
         (stack : list loc) (indent : string) (v : value)
  : option (result (option string)) :=
  match v with
  | VPrim PUndefined => Some (Ok None)
  | VPrim (PStr s) => Some (Ok (Some (quote s)))
  | VPrim p => Some (Ok (Some (stringOfPrim p)))
  | VRef l =>
      match fuel with
      | 0 => None
      | S fuel' =>
          if existsb (Nat.eqb l) stack then Some Throw
          else
            let inner :=
              serializeProperty h gap fuel' (l :: stack) (indent ++ gap)%string in
            match deref h l with
            | HArray elems =>
                match traverse inner elems with
                | None => None
                | Some Throw => Some Throw
                | Some (Ok parts) =>
                    Some (Ok (Some (wrap gap "[" "]" (indent ++ gap)%string indent
                                         (map element parts))))
                end
            | HObject fields =>
                match traverse inner (map snd fields) with
                | None => None
                | Some Throw => Some Throw
                | Some (Ok parts) =>
                    Some (Ok (Some (wrap gap "{" "}" (indent ++ gap)%string indent
                                         (flat_map (member gap)
                                            (combine (map fst fields) parts)))))
                end
            end
      end
  end.

(** The objects on the stack are distinct, so one unit per cell and one
    more for a reference out of the heap is a budget that is never used
    up ([JsonFacts.serializeProperty_budget]). *)
Definition budget (h : heap) : nat := S (List.length h).

(** The cells not on the stack. *)
Definition unvisited (h : heap) (stack : list loc) : list loc :=
  filter (fun x => negb (existsb (Nat.eqb x) stack)) (seq 0 (List.length h)).

(** The text, [undefined], or a throw. *)
Definition stringifyWith (gap : string) (h : heap) (v : value)
  : result (option string) :=
  match serializeProperty h gap (budget h) [] "" v with
  | Some r => r
  | None => Throw
  end.

(** [JSON.stringify(v, null, 2)] *)
Definition stringify : heap -> value -> result (option string) :=
  stringifyWith "  ".

(** [JSON.stringify(v)] *)
Definition stringifyCompact : heap -> value -> result (option string) :=
  stringifyWith "".

End Json.

(** ** The entry classifier: [formatLogText] *)
Module Classifier.
Import Value Regex.

(** What the classifier appends to the entry's content element. *)
Inductive node : Type :=
| Span (color : string) (bold : bool) (text : string)
| TextNode (text : string)
| Details (summary : string) (body : string).   (* collapsed preview, full text *)

(** What the host supplies: the heap the logged references point into,
    and its reading of numerals, [!isNaN(Number(s)) && String(Number(s)) === s]
    (floating point, so not derived here). *)
Record env : Type := {
  heap : Value.heap;
  numeral : string -> bool
}.

Definition numberColor := "#5AAAFA".
Definition bracketColor := "#9B8FFF".
Definition propertyColor := "#FC8A58".
Definition identifierColor := "#FFC16C".
Definition booleanColor := "#C792EA".
Definition nullColor := "#82AAFF".
Definition undefinedColor := "#A9B7C6".

(** [/^\[.*\]$/] *)
Definition bracketedRegex : regex :=
  seq [RLit "["; RStar true JS.isDot; RLit "]"; REnd].
(** [/^\w+:$/] *)
Definition propertyNameRegex : regex :=
  seq [RPlus true JS.isWord; RLit ":"; REnd].
(** [/^[a-zA-Z][a-zA-Z0-9]*$/] *)
Definition identifierRegex : regex :=
  seq [RChar JS.isAlpha; RStar true (fun c => JS.isAlpha c || JS.isDigit c); REnd].
(** [/^\d+$/] *)
Definition digitsRegex : regex :=
  seq [RPlus true JS.isDigit; REnd].
(** [/^-?\d+(\.\d+)?$/] *)
Definition decimalRegex : regex :=
  seq [ROpt (RLit "-"); RPlus true JS.isDigit;
       ROpt (RGroup 1 (RSeq (RLit ".") (RPlus true JS.isDigit))); REnd].
(** [/^\[([^\]]+)\]\s+(\S+)(?:\s+(\S+))?(?:\s+(.+))?$/] *)
Definition commonLogRegex : regex :=
  seq [RLit "["; RGroup 1 (RPlus true (notc (JS.isChar "]"))); RLit "]";
       RPlus true JS.isSpace; RGroup 2 (RPlus true (notc JS.isSpace));
       ROpt (RSeq (RPlus true JS.isSpace) (RGroup 3 (RPlus true (notc JS.isSpace))));
       ROpt (RSeq (RPlus true JS.isSpace) (RGroup 4 (RPlus true JS.isDot)));
       REnd].
(** [/^activePresetId:\s*(.+?),\s*currentPatchName:\s*(.+)$/] *)
Definition patchSelectMenuPattern : regex :=
  seq [RLit "activePresetId:"; RStar true JS.isSpace;
       RGroup 1 (RPlus false JS.isDot); RLit ","; RStar true JS.isSpace;
       RLit "currentPatchName:"; RStar true JS.isSpace;
       RGroup 2 (RPlus true JS.isDot); REnd].

(** [formatPrimitive]: both call sites pass a word of the text. *)
Definition formatPrimitive (v : prim) : node :=
  match v with
  | PNum n => Span numberColor false (JS.stringOfZ n)
  | PStr s =>
      if test bracketedRegex s then Span bracketColor true s
      else if test propertyNameRegex s then Span propertyColor false s
      else if test identifierRegex s then Span identifierColor false s
      else Span propertyColor false s
  | PBool b => Span booleanColor false (stringOfPrim (PBool b))
  | PNull => Span nullColor false "null"
  | PUndefined => Span undefinedColor false "undefined"
  end.

(** The preview of one element or property value. *)
Definition previewOf (h : Value.heap) (v : value) : string :=
  match v with
  | VRef l => match deref h l with
              | HArray _ => "Array"
              | HObject _ => "Object"
              end
  | VPrim p => JS.substring0 10 (stringOfPrim p)
  end.

Definition ellipsis3 (n : nat) : string :=
  if 3 <? n then ", ..." else "".

Definition clip100 (preview : string) : string :=
  if 100 <? String.length preview
  then (JS.substring0 97 preview ++ "...")%string
  else preview.

(** The collapsed summary of a structured argument. *)
Definition previewText (h : Value.heap) (c : cell) : string :=
  clip100
    match c with
    | HArray elems =>
        ("Array(" ++ JS.stringOfZ (Z.of_nat (List.length elems)) ++ ") ["
           ++ String.concat ", " (map (previewOf h) (firstn 3 elems))
           ++ ellipsis3 (List.length elems) ++ "]")%string
    | HObject fields =>
        ("{"
           ++ String.concat ", "
                (map (fun kv => (fst kv ++ ": " ++ previewOf h (snd kv))%string)
                     (firstn 3 fields))
           ++ ellipsis3 (List.length fields) ++ "}")%string
    end.

(** The property list parser of the remainder. *)
Inductive partType : Type := property | separator | comma | valuePart.

Record part : Type := { type : partType; text : string }.

Fixpoint scanParts (l : list ascii) (currentPart : string) (inValue : bool)
  : list part :=
  match l with
  | [] =>
      if String.eqb (JS.trim currentPart) "" then []
      else [{| type := if inValue then valuePart else property;
               text := JS.trim currentPart |}]
  | char :: l' =>
      if JS.isChar ":" char && negb inValue then
        {| type := property; text := JS.trim currentPart |}
          :: {| type := separator; text := ": " |}
          :: scanParts l' "" true
      else if JS.isChar "," char && inValue then
        {| type := valuePart; text := JS.trim currentPart |}
          :: {| type := comma; text := ", " |}
          :: scanParts l' "" false
      else scanParts l' (currentPart ++ String char "")%string inValue
  end.

Definition valueColor (t : string) : string :=
  if String.eqb t "null" then nullColor
  else if String.eqb t "undefined" then undefinedColor
  else if test decimalRegex t then numberColor
  else identifierColor.

Definition renderPart (p : part) : node :=
  match type p with
  | property => Span propertyColor false (text p)
  | valuePart => Span (valueColor (text p)) false (text p)
  | separator | comma => TextNode (text p)
  end.

Definition nullOrValueColor (t : string) : string :=
  if String.eqb t "null" then nullColor else identifierColor.

Fixpoint renderWords (first : bool) (words : list string) : list node :=
  match words with
  | [] => []
  | word :: rest =>
      (if first then [] else [TextNode " "])
        ++ (if test digitsRegex word then Span numberColor false word
            else formatPrimitive (PStr word))
        :: renderWords false rest
  end.

(** The branch [if (restOfMessage) { ... }] of [formatLogText]. *)
Definition formatRest (restOfMessage : string) : list node :=
  match exec patchSelectMenuPattern restOfMessage with
  | Some patchMatch =>
      match group 1 patchMatch, group 2 patchMatch with
      | Some activeIdValue, Some patchNameValue =>
          [Span propertyColor false "activePresetId: ";
           Span (nullOrValueColor activeIdValue) false activeIdValue;
           TextNode ", ";
           Span propertyColor false "currentPatchName: ";
           Span (nullOrValueColor patchNameValue) false patchNameValue]
      | _, _ => []
      end
  | None =>
      if JS.includes ":" restOfMessage then
        map renderPart (scanParts (JS.chars restOfMessage) "" false)
      else if test digitsRegex restOfMessage then
        [Span numberColor false restOfMessage]
      else renderWords true (JS.splitSpaces restOfMessage)
  end.

Definition truthy (o : option string) : option string :=
  match o with
  | Some "" => None
  | _ => o
  end.

(** The branch for a text that does not have the common shape. *)
Definition renderPiece (e : env) (piece : string) : node :=
  if String.eqb (JS.trim piece) "" then TextNode piece
  else if numeral e piece then Span numberColor false piece
  else formatPrimitive (PStr piece).

Definition trailingSpace (index argsLength : nat) : list node :=
  if index <? argsLength - 1 then [TextNode " "] else [].

(** [formatLogText(content, arg, index, argsLength)]: the nodes appended
    to [content], or the exception that escapes. *)
Definition formatLogText (e : env) (arg : value) (index argsLength : nat)
  : result (list node) :=
  match arg with
  | VRef l =>
      let preview := previewText (heap e) (deref (heap e) l) in
      (* the argument of [root.render] is evaluated outside the [try] *)
      match Json.stringify (heap e) arg with
      | Throw => Throw
      | Ok body =>
          Ok [Details preview (match body with Some s => s | None => "" end)]
      end
  | VPrim p =>
      let text := stringOfPrim p in
      Ok ((match exec commonLogRegex text with
           | Some m =>
               match group 1 m, group 2 m with
               | Some moduleName, Some actionName =>
                   [Span bracketColor true ("[" ++ moduleName ++ "] ")%string;
                    Span identifierColor false (actionName ++ " ")%string]
                     ++ match truthy (group 3 m) with
                        | Some paramName =>
                            [Span propertyColor false (paramName ++ " ")%string]
                        | None => []
                        end
                     ++ match truthy (group 4 m) with
                        | Some restOfMessage => formatRest restOfMessage
                        | None => []
                        end
               | _, _ => []
               end
           | None => map (renderPiece e) (JS.splitSpacesKeep text)
           end) ++ trailingSpace index argsLength)
  end.

(** [args.forEach((arg, index) => formatLogText(content, arg, index, args.length))] *)
Fixpoint formatFrom (e : env) (index argsLength : nat) (args : list value)
  : result (list node) :=
  match args with
  | [] => Ok []
  | arg :: rest =>
      match formatLogText e arg index argsLength with
      | Throw => Throw
      | Ok nodes =>
          match formatFrom e (S index) argsLength rest with
          | Throw => Throw
          | Ok more => Ok (nodes ++ more)
          end
      end
  end.

Definition formatArgs (e : env) (args : list value) : result (list node) :=
  formatFrom e 0 (List.length args) args.

(** The earlier revision renders inside [genericLogger]: a structured
    argument becomes a [details] element whose body is the serialization,
    or the placeholder when serializing throws. *)
Definition renderArgOld (h : Value.heap) (arg : value) : node :=
  match arg with
  | VRef _ =>
      Details "Object data"
              match Json.stringify h arg with
              | Ok (Some s) => s
              | Ok None => ""
              | Throw => "[Circular]"
              end
  | VPrim p => TextNode (stringOfPrim p ++ " ")%string
  end.

End Classifier.

(* ===================================================================== *)
(** * Part III: the sink, its throttle controller and the early buffer    *)
(* ===================================================================== *)

(** The revision of [dev-screen-logger.tsx] that renders through
    [formatLogText] and replays the early buffer, together with
    [utils/early-logs].  The refs of the component and the globals it
    touches ([console], [window.screenLog], the panel in the document,
    the pending timers, the early buffer) are the fields of one state;
    a call that reads the clock takes its reading [now] as an argument. *)
Module Sink.
Import Value Classifier.

(** The console functions the sources rebind. *)
Inductive method : Type := LOG | INFO | WARN | ERROR | CLEAR.

(** A function value bound to a console name or held by [window.screenLog]. *)
Inductive fn : Type :=
| Native (m : method)
    (* the host's own console function *)
| EarlyCapture (m : method) (originalConsole : fn)
    (* early-logs: push to [earlyLogs], then call the original *)
| Decorated (m : method) (saved : fn).
    (* [originalFnCallDecorator(f, m)] of an attach whose [_console[m]]
       is [saved]; [f] is [genericLogger] of the colour of [m], or [clear] *)

Record consoleObj : Type := {
  c_log : fn; c_info : fn; c_warn : fn; c_error : fn; c_clear : fn
}.

Definition lookup (c : consoleObj) (m : method) : fn :=
  match m with
  | LOG => c_log c | INFO => c_info c | WARN => c_warn c
  | ERROR => c_error c | CLEAR => c_clear c
  end.

(** [window.screenLog]; [destroy] closes over the [_console] of its attach. *)
Record screenLogObj : Type := {
  sl_log : fn; sl_clear : fn; sl_info : fn; sl_warn : fn; sl_error : fn;
  sl_console : consoleObj
}.

Record PreviousState : Type := { prevThrottled : bool; prevDelay : Z }.

Record ThrottleConfig : Type := {
  throttled : bool;
  paused : bool;
  delay : Z;
  _previousState : option PreviousState
}.

Record earlyLog : Type := {
  type : method;            (* 'log' | 'warn' | 'error' | 'info' *)
  args : list value;
  timestamp : Z
}.

(** One rendered entry of the panel. *)
Record logLine : Type := {
  lineColor : string;
  borderColor : string;
  striped : bool;           (* [contentEl.children.length % 2] *)
  shownAt : Z;              (* the clock reading behind the time label *)
  nodes : list node
}.

Inductive timerTask : Type :=
| ScrollToEnd                       (* [contentEl.scrollTop = scrollHeight] *)
| FilterLogs                        (* [setTimeout(filterLogs, 0)] *)
| ToggleStatus (message : string)   (* the 50 ms callback of [toggleThrottling] *)
| TestSignal.                       (* the interval of the test signals *)

Record timer : Type := {
  timerId : nat;
  after : Z;
  repeating : bool;
  task : timerTask
}.

Record state : Type := mkState {
  host : Classifier.env;   (* the heap and the numeral reading *)
  enableTesting : bool;   (* prop *)
  initiallyVisible : bool;   (* prop *)
  earlyLogs : list earlyLog;   (* the module-level buffer of early-logs *)
  console : consoleObj;   (* the global console bindings *)
  screenLog : option screenLogObj;   (* window.screenLog *)
  nativeOut : list (method * list value);   (* what reached the host's own console *)
  content : option (list logLine);   (* children of #screenlog-content, when in the document *)
  isInitializedRef : bool;
  logElementRef : bool;   (* whether the ref holds the panel *)
  throttleConfigRef : ThrottleConfig;
  throttleTimeoutRef : option nat;
  pendingLogsRef : list (string * list value);
  lastLogTimeRef : Z;
  testSignalIntervalRef : option nat;
  testSignalCountRef : nat;
  searchQuery : string;   (* React state read by handleSearchChange *)
  timers : list timer;   (* pending setTimeout / setInterval tasks *)
  nextTimerId : nat
}.

Definition set_earlyLogs (x : list earlyLog) (st : state) : state :=
  mkState (host st) (enableTesting st) (initiallyVisible st) x
    (console st) (screenLog st) (nativeOut st) (content st)
    (isInitializedRef st) (logElementRef st) (throttleConfigRef st)
    (throttleTimeoutRef st) (pendingLogsRef st) (lastLogTimeRef st)
    (testSignalIntervalRef st) (testSignalCountRef st) (searchQuery st)
    (timers st) (nextTimerId st).

Definition set_console (x : consoleObj) (st : state) : state :=
  mkState (host st) (enableTesting st) (initiallyVisible st)
    (earlyLogs st) x (screenLog st) (nativeOut st) (content st)
    (isInitializedRef st) (logElementRef st) (throttleConfigRef st)
    (throttleTimeoutRef st) (pendingLogsRef st) (lastLogTimeRef st)
    (testSignalIntervalRef st) (testSignalCountRef st) (searchQuery st)
    (timers st) (nextTimerId st).

Definition set_screenLog (x : option screenLogObj) (st : state) : state :=
  mkState (host st) (enableTesting st) (initiallyVisible st)
    (earlyLogs st) (console st) x (nativeOut st) (content st)
    (isInitializedRef st) (logElementRef st) (throttleConfigRef st)
    (throttleTimeoutRef st) (pendingLogsRef st) (lastLogTimeRef st)
    (testSignalIntervalRef st) (testSignalCountRef st) (searchQuery st)
    (timers st) (nextTimerId st).

Definition set_nativeOut (x : list (method * list value)) (st : state) : state :=
  mkState (host st) (enableTesting st) (initiallyVisible st)
    (earlyLogs st) (console st) (screenLog st) x (content st)
    (isInitializedRef st) (logElementRef st) (throttleConfigRef st)
    (throttleTimeoutRef st) (pendingLogsRef st) (lastLogTimeRef st)
    (testSignalIntervalRef st) (testSignalCountRef st) (searchQuery st)
    (timers st) (nextTimerId st).

Definition set_content (x : option (list logLine)) (st : state) : state :=
  mkState (host st) (enableTesting st) (initiallyVisible st)
    (earlyLogs st) (console st) (screenLog st) (nativeOut st) x
    (isInitializedRef st) (logElementRef st) (throttleConfigRef st)
    (throttleTimeoutRef st) (pendingLogsRef st) (lastLogTimeRef st)
    (testSignalIntervalRef st) (testSignalCountRef st) (searchQuery st)
    (timers st) (nextTimerId st).

Definition set_isInitializedRef (x : bool) (st : state) : state :=
  mkState (host st) (enableTesting st) (initiallyVisible st)
    (earlyLogs st) (console st) (screenLog st) (nativeOut st) (content st)
    x (logElementRef st) (throttleConfigRef st) (throttleTimeoutRef st)
    (pendingLogsRef st) (lastLogTimeRef st) (testSignalIntervalRef st)
    (testSignalCountRef st) (searchQuery st) (timers st) (nextTimerId st).

Definition set_logElementRef (x : bool) (st : state) : state :=
  mkState (host st) (enableTesting st) (initiallyVisible st)
    (earlyLogs st) (console st) (screenLog st) (nativeOut st) (content st)
    (isInitializedRef st) x (throttleConfigRef st) (throttleTimeoutRef st)
    (pendingLogsRef st) (lastLogTimeRef st) (testSignalIntervalRef st)
    (testSignalCountRef st) (searchQuery st) (timers st) (nextTimerId st).

Definition set_throttleConfigRef (x : ThrottleConfig) (st : state) : state :=
  mkState (host st) (enableTesting st) (initiallyVisible st)
    (earlyLogs st) (console st) (screenLog st) (nativeOut st) (content st)
    (isInitializedRef st) (logElementRef st) x (throttleTimeoutRef st)
    (pendingLogsRef st) (lastLogTimeRef st) (testSignalIntervalRef st)
    (testSignalCountRef st) (searchQuery st) (timers st) (nextTimerId st).

Definition set_throttleTimeoutRef (x : option nat) (st : state) : state :=
  mkState (host st) (enableTesting st) (initiallyVisible st)
    (earlyLogs st) (console st) (screenLog st) (nativeOut st) (content st)
    (isInitializedRef st) (logElementRef st) (throttleConfigRef st) x
    (pendingLogsRef st) (lastLogTimeRef st) (testSignalIntervalRef st)
    (testSignalCountRef st) (searchQuery st) (timers st) (nextTimerId st).

Definition set_pendingLogsRef (x : list (string * list value)) (st : state) : state :=
  mkState (host st) (enableTesting st) (initiallyVisible st)
    (earlyLogs st) (console st) (screenLog st) (nativeOut st) (content st)
    (isInitializedRef st) (logElementRef st) (throttleConfigRef st)
    (throttleTimeoutRef st) x (lastLogTimeRef st)
    (testSignalIntervalRef st) (testSignalCountRef st) (searchQuery st)
    (timers st) (nextTimerId st).

Definition set_lastLogTimeRef (x : Z) (st : state) : state :=
  mkState (host st) (enableTesting st) (initiallyVisible st)
    (earlyLogs st) (console st) (screenLog st) (nativeOut st) (content st)
    (isInitializedRef st) (logElementRef st) (throttleConfigRef st)
    (throttleTimeoutRef st) (pendingLogsRef st) x
    (testSignalIntervalRef st) (testSignalCountRef st) (searchQuery st)
    (timers st) (nextTimerId st).

Definition set_testSignalIntervalRef (x : option nat) (st : state) : state :=
  mkState (host st) (enableTesting st) (initiallyVisible st)
    (earlyLogs st) (console st) (screenLog st) (nativeOut st) (content st)
    (isInitializedRef st) (logElementRef st) (throttleConfigRef st)
    (throttleTimeoutRef st) (pendingLogsRef st) (lastLogTimeRef st) x
    (testSignalCountRef st) (searchQuery st) (timers st) (nextTimerId st).

Definition set_testSignalCountRef (x : nat) (st : state) : state :=
  mkState (host st) (enableTesting st) (initiallyVisible st)
    (earlyLogs st) (console st) (screenLog st) (nativeOut st) (content st)
    (isInitializedRef st) (logElementRef st) (throttleConfigRef st)
    (throttleTimeoutRef st) (pendingLogsRef st) (lastLogTimeRef st)
    (testSignalIntervalRef st) x (searchQuery st) (timers st)
    (nextTimerId st).

Definition set_searchQuery (x : string) (st : state) : state :=
  mkState (host st) (enableTesting st) (initiallyVisible st)
    (earlyLogs st) (console st) (screenLog st) (nativeOut st) (content st)
    (isInitializedRef st) (logElementRef st) (throttleConfigRef st)
    (throttleTimeoutRef st) (pendingLogsRef st) (lastLogTimeRef st)
    (testSignalIntervalRef st) (testSignalCountRef st) x (timers st)
    (nextTimerId st).

Definition set_timers (x : list timer) (st : state) : state :=
  mkState (host st) (enableTesting st) (initiallyVisible st)
    (earlyLogs st) (console st) (screenLog st) (nativeOut st) (content st)
    (isInitializedRef st) (logElementRef st) (throttleConfigRef st)
    (throttleTimeoutRef st) (pendingLogsRef st) (lastLogTimeRef st)
    (testSignalIntervalRef st) (testSignalCountRef st) (searchQuery st) x
    (nextTimerId st).

Definition set_nextTimerId (x : nat) (st : state) : state :=
  mkState (host st) (enableTesting st) (initiallyVisible st)
    (earlyLogs st) (console st) (screenLog st) (nativeOut st) (content st)
    (isInitializedRef st) (logElementRef st) (throttleConfigRef st)
    (throttleTimeoutRef st) (pendingLogsRef st) (lastLogTimeRef st)
    (testSignalIntervalRef st) (testSignalCountRef st) (searchQuery st)
    (timers st) x.

(** The outcome of a call: it returns, or an exception escapes it; the
    state reached is kept in both cases. *)
Inductive outcome : Type :=
| Done (st : state)
| Thrown (st : state).

Definition andThen (o : outcome) (k : state -> outcome) : outcome :=
  match o with
  | Done st => k st
  | Thrown st => Thrown st
  end.

(** The colours of [_options]. *)
Definition logColor := "#d4d4d4".
Definition infoColor := "#4dabf7".
Definition warnColor := "#ffa94d".
Definition errorColor := "#ff6b6b".

Definition colorOf (m : method) : string :=
  match m with
  | ERROR => errorColor
  | WARN => warnColor
  | INFO => infoColor
  | LOG | CLEAR => logColor
  end.

Definition logTypeOf (color : string) : method :=
  if String.eqb color errorColor then ERROR
  else if String.eqb color warnColor then WARN
  else if String.eqb color infoColor then INFO
  else LOG.

Definition borderColorOf (logType : method) : string :=
  match logType with
  | ERROR => "#FC8181"
  | WARN => "#F6AD55"
  | INFO => "#63B3ED"
  | LOG | CLEAR => "#A0AEC0"
  end.

(** ** Timers *)

(** [setTimeout] and [setInterval]: a fresh handle, the task pending. *)
Definition setTimer (ms : Z) (rep : bool) (t : timerTask) (st : state)
  : nat * state :=
  let id := nextTimerId st in
  (id, set_nextTimerId (S id)
         (set_timers (timers st ++ [{| timerId := id; after := ms;
                                       repeating := rep; task := t |}]) st)).

(** [clearTimeout] and [clearInterval] *)
Definition clearTimer (id : nat) (st : state) : state :=
  set_timers (filter (fun t => negb (timerId t =? id)) (timers st)) st.

(** [if (throttleTimeoutRef.current) { clearTimeout(...); ... = null }] *)
Definition cancelThrottleTimeout (st : state) : state :=
  match throttleTimeoutRef st with
  | Some id => set_throttleTimeoutRef None (clearTimer id st)
  | None => st
  end.

Definition stopContinuousTestSignals (st : state) : state :=
  match testSignalIntervalRef st with
  | Some id => set_testSignalIntervalRef None (clearTimer id st)
  | None => st
  end.

Definition startContinuousTestSignals (st : state) : state :=
  let st1 := stopContinuousTestSignals st in
  let cfg := throttleConfigRef st1 in
  let currentDelay := if throttled cfg then delay cfg else 10%Z in
  let (id, st2) := setTimer currentDelay true TestSignal st1 in
  set_testSignalIntervalRef (Some id) st2.

(** ** Admission and rendering: [genericLogger(color)(...args)]

    The styling of the entry is kept as its colour, border and stripe;
    the throttle indicator and the entry count of the header, which are
    recomputed from the state kept here, are not represented. *)

Definition mkLine (color : string) (children : list logLine) (now : Z)
           (nodes : list node) : logLine :=
  {| lineColor := color;
     borderColor := borderColorOf (logTypeOf color);
     striped := negb (List.length children mod 2 =? 0);
     shownAt := now;
     nodes := nodes |}.

(** The entry is appended and the scroll is scheduled ([autoScroll]). *)
Definition appendLine (color : string) (children : list logLine) (now : Z)
           (nodes : list node) (st : state) : state :=
  snd (setTimer 0 false ScrollToEnd
         (set_content (Some (children ++ [mkLine color children now nodes])) st)).

Definition genericLogger (color : string) (args : list value) (now : Z)
           (st : state) : outcome :=
  if negb (logElementRef st) || paused (throttleConfigRef st) then Done st
  else
    match content st with
    | None => Done st
    | Some children =>
        if throttled (throttleConfigRef st) then
          if (delay (throttleConfigRef st) <=? now - lastLogTimeRef st)%Z then
            match formatArgs (host st) args with
            | Throw => Thrown st
            | Ok nodes =>
                Done (set_lastLogTimeRef now
                        (appendLine color children now nodes st))
            end
          else Done st
        else
          match formatArgs (host st) args with
          | Throw => Thrown st
          | Ok nodes => Done (appendLine color children now nodes st)
          end
    end.

(** [clear()] of an attach *)
Definition clear (st : state) : state :=
  let st1 :=
    if logElementRef st then
      match content st with
      | Some _ => set_content (Some []) st
      | None => st
      end
    else st in
  cancelThrottleTimeout (set_pendingLogsRef [] st1).

(** ** Calling a console function *)
Fixpoint callFn (f : fn) (args : list value) (now : Z) (st : state)
  : outcome :=
  match f with
  | Native m => Done (set_nativeOut (nativeOut st ++ [(m, args)]) st)
  | EarlyCapture m originalConsole =>
      callFn originalConsole args now
             (set_earlyLogs
                (earlyLogs st ++ [{| type := m; args := args; timestamp := now |}])
                st)
  | Decorated m saved =>
      andThen
        match m with
        | CLEAR => Done (clear st)
        | _ => genericLogger (colorOf m) args now st
        end
        (callFn saved args now)
  end.

(** [console[m](...args)] *)
Definition consoleCall (m : method) (args : list value) (now : Z)
           (st : state) : outcome :=
  callFn (lookup (console st) m) args now st.

(** ** The throttle controller *)

(** The messages of [toggleThrottling], with the characters this
    revision has before each text; the earlier revision has a pictograph
    in their place. *)
Definition msgEnabled250 := "ðŸ”„ THROTTLING ENABLED: 250ms".
Definition msgSet500 := "ðŸ”„ THROTTLING SET TO: 500ms".
Definition msgSet1000 := "ðŸ”„ THROTTLING SET TO: 1000ms".
Definition msgPaused := "â¸ï¸ LOGGING PAUSED - No new logs will be shown".
Definition msgDisabled := "âœ… THROTTLING DISABLED - Normal logging resumed".

Definition plain (t p : bool) (d : Z) : ThrottleConfig :=
  {| throttled := t; paused := p; delay := d; _previousState := None |}.

(** The branch table of [toggleThrottling]: the replacement
    configuration, its message, and whether the clock is read into
    [lastLogTimeRef]. *)
Definition toggleStep (current : ThrottleConfig)
  : ThrottleConfig * string * bool :=
  if negb (throttled current) && negb (paused current) then
    (plain true false 250, msgEnabled250, true)
  else if throttled current && (delay current =? 250)%Z then
    (plain true false 500, msgSet500, false)
  else if throttled current && (delay current =? 500)%Z then
    (plain true false 1000, msgSet1000, false)
  else if throttled current && (delay current =? 1000)%Z then
    (plain false true 1000, msgPaused, false)
  else
    (plain false false 250, msgDisabled, false).

Definition toggleThrottling (now : Z) (st : state) : state :=
  let st1 := stopContinuousTestSignals (cancelThrottleTimeout st) in
  let '(cfg, message, stamp) := toggleStep (throttleConfigRef st1) in
  let st2 := if stamp then set_lastLogTimeRef now st1 else st1 in
  let st3 := set_pendingLogsRef [] (set_throttleConfigRef cfg st2) in
  snd (setTimer 50 false (ToggleStatus message) st3).

(** The Pause / Resume button, and Ctrl+P. *)
Definition togglePause (st : state) : state :=
  let current := throttleConfigRef st in
  set_throttleConfigRef
    {| throttled := throttled current; paused := negb (paused current);
       delay := delay current; _previousState := _previousState current |} st.

(** [handleSearchChange(query)]; [searchQuery] is the React state, read
    as of this call.  The function is the same in both revisions of the
    component, and so is [toggleThrottling] but for the characters
    before its messages. *)
Definition handleSearchChange (query : string) (st : state) : state :=
  let wasPreviouslySearching := negb (String.eqb (searchQuery st) "") in
  let isNowSearching := negb (String.eqb query "") in
  let st1 := set_searchQuery query st in
  let cfg := throttleConfigRef st1 in
  let st2 :=
    if negb wasPreviouslySearching && isNowSearching then
      if negb (paused cfg) then
        set_throttleConfigRef
          {| throttled := false; paused := true; delay := delay cfg;
             _previousState := Some {| prevThrottled := throttled cfg;
                                       prevDelay := delay cfg |} |} st1
      else st1
    else if wasPreviouslySearching && negb isNowSearching then
      match paused cfg, _previousState cfg with
      | true, Some prev =>
          set_throttleConfigRef
            {| throttled := prevThrottled prev; paused := false;
               delay := prevDelay prev; _previousState := None |} st1
      | _, _ => st1
      end
    else st1 in
  snd (setTimer 0 false FilterLogs st2).

(** ** The early buffer: [replayLogsToScreenLogger] *)

Definition startSeparator := "---------- EARLY LOGS ----------".
Definition endSeparator := "---------- END EARLY LOGS ----------".

Definition isSeparator (l : earlyLog) : bool :=
  match args l with
  | VPrim (PStr s) :: _ =>
      JS.includes "EARLY LOGS" s || JS.includes "END EARLY LOGS" s
  | _ => false
  end.

(** [array.slice(-n)] *)
Definition sliceLast {A : Type} (n : nat) (l : list A) : list A :=
  match n with
  | 0 => l
  | _ => skipn (List.length l - n) l
  end.

Definition replayOne (sl : screenLogObj) (l : earlyLog) : fn :=
  match type l with
  | WARN => sl_warn sl
  | ERROR => sl_error sl
  | INFO => sl_info sl
  | LOG | CLEAR => sl_log sl
  end.

Fixpoint replayEach (sl : screenLogObj) (logs : list earlyLog) (now : Z)
         (st : state) : outcome :=
  match logs with
  | [] => Done st
  | l :: rest =>
      andThen (callFn (replayOne sl l) (args l) now st)
              (replayEach sl rest now)
  end.

Definition replayLogsToScreenLogger (maxEntries : nat) (now : Z)
           (st : state) : outcome :=
  match screenLog st with
  | None => Done st
  | Some sl =>
      match earlyLogs st with
      | [] => Done st
      | _ :: _ =>
          andThen (callFn (sl_log sl) [VPrim (PStr startSeparator)] now st)
            (fun st1 =>
               let logsToReplay :=
                 filter (fun l => negb (isSeparator l))
                        (sliceLast maxEntries (earlyLogs st1)) in
               andThen (replayEach sl logsToReplay now st1)
                 (callFn (sl_log sl) [VPrim (PStr endSeparator)] now))
      end
  end.

(** ** Attach and destroy *)

Definition decorate (_console : consoleObj) : consoleObj :=
  {| c_log := Decorated LOG (c_log _console);
     c_info := Decorated INFO (c_info _console);
     c_warn := Decorated WARN (c_warn _console);
     c_error := Decorated ERROR (c_error _console);
     c_clear := Decorated CLEAR (c_clear _console) |}.

Definition handle (_console : consoleObj) : screenLogObj :=
  {| sl_log := Decorated LOG (c_log _console);
     sl_clear := Decorated CLEAR (c_clear _console);
     sl_info := Decorated INFO (c_info _console);
     sl_warn := Decorated WARN (c_warn _console);
     sl_error := Decorated ERROR (c_error _console);
     sl_console := _console |}.

(** [initScreenLog()]: an initialised component with a panel only
    refreshes the display and returns; otherwise any panel left in the
    document is removed, a new one is created, the console functions are
    saved in [_console] and replaced, the first line is logged and the
    early buffer is replayed. *)
Definition initScreenLog (now : Z) (st : state) : outcome :=
  if isInitializedRef st && logElementRef st then Done st
  else
    let _console := console st in
    let st1 :=
      set_isInitializedRef true
        (set_screenLog (Some (handle _console))
           (set_console (decorate _console)
              (set_logElementRef true (set_content (Some []) st)))) in
    andThen
      (genericLogger logColor [VPrim (PStr "Screen logger initialized.")] now st1)
      (fun st2 =>
         andThen (replayLogsToScreenLogger 200 now st2)
           (fun st3 =>
              Done (if enableTesting st3 && initiallyVisible st3
                    then startContinuousTestSignals st3 else st3))).

(** [destroy()] of the attach whose saved console is [sl_console sl]. *)
Definition destroy (sl : screenLogObj) (st : state) : state :=
  cancelThrottleTimeout
    (set_logElementRef false
       (set_isInitializedRef false
          (set_content None (set_console (sl_console sl) st)))).

(** [window.screenLog.destroy()] *)
Definition screenLogDestroy (st : state) : outcome :=
  match screenLog st with
  | Some sl => Done (destroy sl st)
  | None => Thrown st
  end.

(** The unmount effect of the component. *)
Definition unmount (st : state) : state :=
  stopContinuousTestSignals
    match screenLog st with
    | Some sl => if isInitializedRef st then destroy sl st else st
    | None => st
    end.

(** ** Timers coming due *)

Definition testSignalText (n : nat) (cfg : ThrottleConfig) : string :=
  ("Test log #" ++ JS.stringOfZ (Z.of_nat n) ++ " "
     ++ (if throttled cfg
         then "(throttled to " ++ JS.stringOfZ (delay cfg) ++ "ms)"
         else "(sending 100 logs per second)"))%string.

Definition runTask (t : timerTask) (now : Z) (st : state) : outcome :=
  match t with
  | ScrollToEnd | FilterLogs => Done st
  | ToggleStatus message =>
      andThen
        match screenLog st with
        | Some sl => callFn (sl_log sl) [VPrim (PStr message)] now st
        | None => Done st
        end
        (fun st1 =>
           Done (if enableTesting st1 then startContinuousTestSignals st1
                 else st1))
  | TestSignal =>
      let st1 := set_testSignalCountRef (S (testSignalCountRef st)) st in
      match screenLog st1 with
      | Some sl =>
          callFn (sl_log sl)
                 [VPrim (PStr (testSignalText (testSignalCountRef st1)
                                              (throttleConfigRef st1)))]
                 now st1
      | None => Done st1
      end
  end.

(** The timer [id] fires: a timeout leaves the pending list first. *)
Definition fire (id : nat) (now : Z) (st : state) : outcome :=
  match find (fun t => timerId t =? id) (timers st) with
  | None => Done st
  | Some t =>
      runTask (task t) now (if repeating t then st else clearTimer id st)
  end.

(** ** Where a run starts *)

(** After [early-logs] has been evaluated and the component mounted. *)
Definition earlyConsole : consoleObj :=
  {| c_log := EarlyCapture LOG (Native LOG);
     c_info := EarlyCapture INFO (Native INFO);
     c_warn := EarlyCapture WARN (Native WARN);
     c_error := EarlyCapture ERROR (Native ERROR);
     c_clear := Native CLEAR |}.

Definition mounted (e : env) (testing visible : bool) : state :=
  {| host := e; enableTesting := testing; initiallyVisible := visible;
     earlyLogs := []; console := earlyConsole; screenLog := None;
     nativeOut := []; content := None;
     isInitializedRef := false; logElementRef := false;
     throttleConfigRef := plain false false 250;
     throttleTimeoutRef := None; pendingLogsRef := [];
     lastLogTimeRef := 0%Z;
     testSignalIntervalRef := None; testSignalCountRef := 0;
     searchQuery := ""; timers := []; nextTimerId := 1 |}.

(** A run of console calls, each at its own clock reading. *)
Fixpoint consoleCalls (calls : list (method * list value * Z)) (st : state)
  : outcome :=
  match calls with
  | [] => Done st
  | (m, a, now) :: rest => andThen (consoleCall m a now st) (consoleCalls rest)
  end.

End Sink.

(* ===================================================================== *)
(** * Part IV: the Leva variant of the component                          *)
(* ===================================================================== *)

(** [processLog], [createLoggers] and [destroyLogger] of the variant that
    keeps its entries in React state: the admission path and the
    teardown, the counterparts of [Sink.genericLogger] and [Sink.destroy]. *)
Module Leva.
Import Value.

Inductive method : Type := LOG | INFO | WARN | ERROR | CLEAR.

Inductive fn : Type :=
| Native (m : method)
| Bound (f : fn)                       (* [f.bind(console)] *)
| Override (m : method) (original : fn)
    (* the replacement of [console[m]]: the original, then the sink *)
| Handle (m : method) (original : fn).
    (* the entry of [window.screenLog]: the sink, then the original *)

Record consoleObj : Type := {
  c_log : fn; c_info : fn; c_warn : fn; c_error : fn; c_clear : fn
}.

Record screenLogObj : Type := {
  sl_log : fn; sl_info : fn; sl_warn : fn; sl_error : fn
}.

Record ThrottleConfig : Type := {
  throttled : bool; paused : bool; delay : Z
}.

Record LogEntry : Type := {
  type : method;
  content : string;
  timestamp : Z;
  objectData : option value
}.

Record state : Type := mkState {
  heap : Value.heap;
  console : consoleObj;
  consoleMethodsRef : option consoleObj;   (* the methods saved by createLoggers *)
  screenLog : option screenLogObj;   (* window.screenLog *)
  nativeOut : list (method * list value);
  logs : list LogEntry;   (* the React state behind the panel *)
  throttleConfigRef : ThrottleConfig;
  throttleTimeoutRef : option nat;
  lastLogTimeRef : Z;
  testSignalIntervalRef : option nat;
  isInitializedRef : bool;
  timers : list nat;   (* handles of the pending timers *)
  nextTimerId : nat
}.

Definition set_console (x : consoleObj) (st : state) : state :=
  mkState (heap st) x (consoleMethodsRef st) (screenLog st) (nativeOut st)
    (logs st) (throttleConfigRef st) (throttleTimeoutRef st)
    (lastLogTimeRef st) (testSignalIntervalRef st) (isInitializedRef st)
    (timers st) (nextTimerId st).

Definition set_consoleMethodsRef (x : option consoleObj) (st : state) : state :=
  mkState (heap st) (console st) x (screenLog st) (nativeOut st) (logs st)
    (throttleConfigRef st) (throttleTimeoutRef st) (lastLogTimeRef st)
    (testSignalIntervalRef st) (isInitializedRef st) (timers st)
    (nextTimerId st).

Definition set_screenLog (x : option screenLogObj) (st : state) : state :=
  mkState (heap st) (console st) (consoleMethodsRef st) x (nativeOut st)
    (logs st) (throttleConfigRef st) (throttleTimeoutRef st)
    (lastLogTimeRef st) (testSignalIntervalRef st) (isInitializedRef st)
    (timers st) (nextTimerId st).

Definition set_nativeOut (x : list (method * list value)) (st : state) : state :=
  mkState (heap st) (console st) (consoleMethodsRef st) (screenLog st) x
    (logs st) (throttleConfigRef st) (throttleTimeoutRef st)
    (lastLogTimeRef st) (testSignalIntervalRef st) (isInitializedRef st)
    (timers st) (nextTimerId st).

Definition set_logs (x : list LogEntry) (st : state) : state :=
  mkState (heap st) (console st) (consoleMethodsRef st) (screenLog st)
    (nativeOut st) x (throttleConfigRef st) (throttleTimeoutRef st)
    (lastLogTimeRef st) (testSignalIntervalRef st) (isInitializedRef st)
    (timers st) (nextTimerId st).

Definition set_throttleTimeoutRef (x : option nat) (st : state) : state :=
  mkState (heap st) (console st) (consoleMethodsRef st) (screenLog st)
    (nativeOut st) (logs st) (throttleConfigRef st) x (lastLogTimeRef st)
    (testSignalIntervalRef st) (isInitializedRef st) (timers st)
    (nextTimerId st).

Definition set_lastLogTimeRef (x : Z) (st : state) : state :=
  mkState (heap st) (console st) (consoleMethodsRef st) (screenLog st)
    (nativeOut st) (logs st) (throttleConfigRef st)
    (throttleTimeoutRef st) x (testSignalIntervalRef st)
    (isInitializedRef st) (timers st) (nextTimerId st).

Definition set_testSignalIntervalRef (x : option nat) (st : state) : state :=
  mkState (heap st) (console st) (consoleMethodsRef st) (screenLog st)
    (nativeOut st) (logs st) (throttleConfigRef st)
    (throttleTimeoutRef st) (lastLogTimeRef st) x (isInitializedRef st)
    (timers st) (nextTimerId st).

Definition set_isInitializedRef (x : bool) (st : state) : state :=
  mkState (heap st) (console st) (consoleMethodsRef st) (screenLog st)
    (nativeOut st) (logs st) (throttleConfigRef st)
    (throttleTimeoutRef st) (lastLogTimeRef st) (testSignalIntervalRef st)
    x (timers st) (nextTimerId st).

Definition set_timers (x : list nat) (st : state) : state :=
  mkState (heap st) (console st) (consoleMethodsRef st) (screenLog st)
    (nativeOut st) (logs st) (throttleConfigRef st)
    (throttleTimeoutRef st) (lastLogTimeRef st) (testSignalIntervalRef st)
    (isInitializedRef st) x (nextTimerId st).

Definition set_nextTimerId (x : nat) (st : state) : state :=
  mkState (heap st) (console st) (consoleMethodsRef st) (screenLog st)
    (nativeOut st) (logs st) (throttleConfigRef st)
    (throttleTimeoutRef st) (lastLogTimeRef st) (testSignalIntervalRef st)
    (isInitializedRef st) (timers st) x.

Definition addLogEntry (ty : method) (text : string) (data : option value)
           (now : Z) (st : state) : state :=
  set_logs (logs st ++ [{| type := ty; content := text; timestamp := now;
                           objectData := data |}]) st.

Definition clearTimer (id : nat) (st : state) : state :=
  set_timers (filter (fun t => negb (t =? id)) (timers st)) st.

Definition cancelThrottleTimeout (st : state) : state :=
  match throttleTimeoutRef st with
  | Some id => set_throttleTimeoutRef None (clearTimer id st)
  | None => st
  end.

Definition stopContinuousTestSignals (st : state) : state :=
  match testSignalIntervalRef st with
  | Some id => set_testSignalIntervalRef None (clearTimer id st)
  | None => st
  end.

Definition startContinuousTestSignals (st : state) : state :=
  let st1 := match testSignalIntervalRef st with
             | Some id => clearTimer id st
             | None => st
             end in
  let id := nextTimerId st1 in
  set_testSignalIntervalRef (Some id)
    (set_nextTimerId (S id) (set_timers (timers st1 ++ [id]) st1)).

(** The text of one argument: the compact serialization of a structured
    value, the placeholder when serializing throws. *)
Definition argText (h : Value.heap) (arg : value) : string :=
  match arg with
  | VRef _ =>
      match Json.stringifyCompact h arg with
      | Ok (Some s) => s
      | Ok None => ""
      | Throw => "[Circular]"
      end
  | VPrim p => stringOfPrim p
  end.

Definition isObject (arg : value) : bool :=
  match arg with VRef _ => true | VPrim _ => false end.

(** [processLog(type, ...args)] *)
Definition processLog (ty : method) (args : list value) (now : Z)
           (st : state) : state :=
  if paused (throttleConfigRef st) then st
  else
    let text := String.concat " " (map (argText (heap st)) args) in
    let data := find isObject args in
    if throttled (throttleConfigRef st) then
      if (delay (throttleConfigRef st) <=? now - lastLogTimeRef st)%Z
      then set_lastLogTimeRef now (addLogEntry ty text data now st)
      else st
    else addLogEntry ty text data now st.

(** [createLoggers()] *)
Definition createLoggers (now : Z) (st : state) : state :=
  let c := console st in
  let originalMethods :=
    {| c_log := Bound (c_log c); c_info := Bound (c_info c);
       c_warn := Bound (c_warn c); c_error := Bound (c_error c);
       c_clear := Bound (c_clear c) |} in
  addLogEntry LOG "Screen logger initialized" None now
    (set_screenLog
       (Some {| sl_log := Handle LOG (c_log originalMethods);
                sl_info := Handle INFO (c_info originalMethods);
                sl_warn := Handle WARN (c_warn originalMethods);
                sl_error := Handle ERROR (c_error originalMethods) |})
       (set_console
          {| c_log := Override LOG (c_log originalMethods);
             c_info := Override INFO (c_info originalMethods);
             c_warn := Override WARN (c_warn originalMethods);
             c_error := Override ERROR (c_error originalMethods);
             c_clear := Override CLEAR (c_clear originalMethods) |}
          (set_consoleMethodsRef (Some originalMethods) st))).

(** [destroyLogger()] *)
Definition destroyLogger (st : state) : state :=
  let st1 := match consoleMethodsRef st with
             | Some originalMethods => set_console originalMethods st
             | None => st
             end in
  set_screenLog None
    (set_isInitializedRef false
       (cancelThrottleTimeout (stopContinuousTestSignals st1))).

End Leva.

(* ===================================================================== *)
(** * Part V: vocabulary of the specification, and sample runs            *)
(* ===================================================================== *)

Module Spec.
Import Value Classifier Sink.

(** The mode of the controller as the admission path reads it: the pause
    is tested first, then the throttle. *)
Inductive mode : Type :=
| Normal
| Throttled (delayMs : Z)
| Paused.

Definition modeOf (cfg : ThrottleConfig) : mode :=
  if paused cfg then Paused
  else if throttled cfg then Throttled (delay cfg)
  else Normal.

Definition modeIn (st : state) : mode := modeOf (throttleConfigRef st).

(** The two results of the branch table of the toggle. *)
Definition nextConfig (cfg : ThrottleConfig) : ThrottleConfig :=
  fst (fst (toggleStep cfg)).

Definition nextMessage (cfg : ThrottleConfig) : string :=
  snd (fst (toggleStep cfg)).

(** The timer a toggle arms for its status message. *)
Definition statusTimer (id : nat) (message : string) : timer :=
  {| timerId := id; after := 50; repeating := false;
     task := ToggleStatus message |}.

(** [st'] holds the timers left by the toggle's cancellations and one
    more, which carries [message]. *)
Definition emits (st st' : state) (message : string) : Prop :=
  timers st' =
  timers (stopContinuousTestSignals (cancelThrottleTimeout st))
    ++ [statusTimer (nextTimerId st) message].

(** The number of entries the panel shows. *)
Definition entryCount (st : state) : nat :=
  match content st with
  | Some children => List.length children
  | None => 0
  end.

(** What an observer reads off an entry: its colour and its tokens. *)
Definition view (l : logLine) : string * list node :=
  (lineColor l, nodes l).

Definition shown (st : state) : list (string * list node) :=
  match content st with
  | Some children => map view children
  | None => []
  end.

(** The tokens of an argument list that renders. *)
Definition rendered (e : env) (a : list value) : list node :=
  match formatArgs e a with
  | Ok ns => ns
  | Throw => []
  end.

Definition renders (e : env) (a : list value) : Prop :=
  exists ns, formatArgs e a = Ok ns.

(** A console call that the early buffer records and the replay keeps. *)
Definition callMethod (c : method * list value * Z) : method := fst (fst c).
Definition callArgs (c : method * list value * Z) : list value := snd (fst c).
Definition callTime (c : method * list value * Z) : Z := snd c.

Definition entryOf (c : method * list value * Z) : earlyLog :=
  {| type := callMethod c; args := callArgs c; timestamp := callTime c |}.

Definition output (c : method * list value * Z) : method * list value :=
  (callMethod c, callArgs c).

Definition replayable (e : env) (c : method * list value * Z) : Prop :=
  callMethod c <> CLEAR /\ isSeparator (entryOf c) = false
  /\ renders e (callArgs c).

(** The early entry a replay call leaves in the buffer in its turn. *)
Definition restamp (now : Z) (l : earlyLog) : earlyLog :=
  {| type := type l; args := args l; timestamp := now |}.

Definition str (s : string) : list value := [VPrim (PStr s)].

(** A call through the early wrapper: recorded, then printed. *)
Definition capture (m : method) (a : list value) (now : Z) (st : state)
  : state :=
  set_nativeOut (nativeOut st ++ [(m, a)])
    (set_earlyLogs
       (earlyLogs st ++ [{| type := m; args := a; timestamp := now |}]) st).

(** A call through the decorator of an attach over the early wrapper,
    when the entry is accepted with tokens [ns] after [ch]. *)
Definition relog (m : method) (a : list value) (now : Z) (ns : list node)
           (ch : list logLine) (st : state) : state :=
  capture m a now (appendLine (colorOf m) ch now ns st).

(** The panel after the entries [logs] were accepted one after another. *)
Fixpoint addLines (e : env) (now : Z) (ch : list logLine)
         (logs : list earlyLog) : list logLine :=
  match logs with
  | [] => ch
  | l :: rest =>
      addLines e now
        (ch ++ [mkLine (colorOf (type l)) ch now (rendered e (args l))]) rest
  end.

(** The sink is attached over the early wrappers, in Normal mode, and
    the panel shows [ch]. *)
Definition Attached (e : env) (ch : list logLine) (st : state) : Prop :=
  host st = e /\ screenLog st = Some (handle earlyConsole)
  /\ isInitializedRef st = true /\ logElementRef st = true
  /\ modeIn st = Normal /\ content st = Some ch.

(** The two separators as the replay logs them. *)
Definition startEntry (now : Z) : earlyLog :=
  {| type := LOG; args := str startSeparator; timestamp := now |}.
Definition endEntry (now : Z) : earlyLog :=
  {| type := LOG; args := str endSeparator; timestamp := now |}.

(** The first line of every attach. *)
Definition initEntry (now : Z) : earlyLog :=
  {| type := LOG; args := str "Screen logger initialized."; timestamp := now |}.

(** What an observer reads off a replayed entry. *)
Definition viewOf (e : env) (l : earlyLog) : string * list node :=
  (colorOf (type l), rendered e (args l)).

(** A buffered entry that the replay passes on as it is. *)
Definition keeps (e : env) (l : earlyLog) : Prop :=
  type l <> CLEAR /\ renders e (args l).

Definition stateOf (o : outcome) : state :=
  match o with Done st => st | Thrown st => st end.

(** What an attach installs and a destroy puts back. *)
Definition bindings (st : state) : consoleObj * option screenLogObj :=
  (console st, screenLog st).

Definition throws (o : outcome) : bool :=
  match o with Done _ => false | Thrown _ => true end.

(** Every pending timer has a handle the component has given out. *)
Definition fresh (st : state) : Prop :=
  Forall (fun t => timerId t < nextTimerId st) (timers st).

(** From [st] to [st'] timers were only cancelled or armed under new
    handles. *)
Definition grows (st st' : state) : Prop :=
  nextTimerId st <= nextTimerId st'
  /\ forall t, In t (timers st') ->
                In t (timers st)
                \/ (nextTimerId st <= timerId t /\ timerId t < nextTimerId st').

(** The timer [id] comes due at [now] in [st] and says [message]: its
    callback returns, the host's console prints the message, once, and
    the timer is spent. *)
Definition says (id : nat) (message : string) (now : Z) (st : state) : Prop :=
  throws (fire id now st) = false
  /\ nativeOut (stateOf (fire id now st)) = nativeOut st ++ [(LOG, str message)]
  /\ forall t, In t (timers (stateOf (fire id now st))) -> timerId t <> id.

End Spec.

(** Concrete hosts and runs used to exercise the statements. *)
Module Sample.
Import Value Classifier Sink Spec.

(** Canonical decimal numerals without sign, fraction or exponent: the
    host's reading restricted to what the samples contain. *)
Definition plainNumeral (s : string) : bool :=
  Regex.test digitsRegex s
  && (String.eqb s "0" || negb (String.prefix "0" s)).

(** One cell, an object whose property [self] is the object itself. *)
Definition cyclicHeap : Value.heap := [HObject [("self", VRef 0)]].

Definition cyclicHost : env := {| heap := cyclicHeap; numeral := plainNumeral |}.
Definition plainHost : env := {| heap := []; numeral := plainNumeral |}.

Definition threeCalls : list (method * list value * Z) :=
  [(LOG, str "one", 1%Z); (WARN, str "two", 2%Z); (ERROR, str "three", 3%Z)].

(** Three early entries, then the attach at clock 10. *)
Definition captured : state :=
  stateOf (consoleCalls threeCalls (mounted plainHost false true)).
Definition attached : state := stateOf (initScreenLog 10 captured).
Definition detached : state := stateOf (screenLogDestroy attached).
Definition reattached : state := stateOf (initScreenLog 20 detached).

(** A click of the throttle button at [now] and the timer it arms
    coming due at [due]. *)
Definition clickAndStatus (now due : Z) (st : state) : state :=
  stateOf (fire (nextTimerId st) due (toggleThrottling now st)).

(** Five clicks on the attached sink, each status timer on time. *)
Definition cycled : state :=
  clickAndStatus 500 550
    (clickAndStatus 400 450
       (clickAndStatus 300 350
          (clickAndStatus 200 250 (clickAndStatus 100 150 attached)))).

(** The exported replay called once more on the attached sink. *)
Definition replayedAgain : state :=
  stateOf (replayLogsToScreenLogger 200 11 attached).

(** An early entry whose text contains the marker of the separators. *)
Definition markedCalls : list (method * list value * Z) :=
  [(LOG, str "one", 1%Z); (INFO, str "no EARLY LOGS yet", 2%Z)].
Definition markedAttached : state :=
  stateOf (initScreenLog 10
             (stateOf (consoleCalls markedCalls (mounted plainHost false true)))).

(** As many early entries as the cap. *)
Definition capCalls : list (method * list value * Z) :=
  map (fun i => (LOG, [VPrim (PNum (Z.of_nat i))], Z.of_nat i)) (seq 1 200).
Definition capAttached : state :=
  stateOf (initScreenLog 300
             (stateOf (consoleCalls capCalls (mounted plainHost false true)))).

(** An attached sink throttled to 250 ms whose last admission was at 1000. *)
Definition throttledAt1000 : state :=
  set_lastLogTimeRef 1000%Z
    (toggleThrottling 1000 (stateOf (initScreenLog 0 (mounted plainHost false true)))).

(** An attached sink whose host holds the cyclic object. *)
Definition cyclicAttached : state :=
  stateOf (initScreenLog 0 (mounted cyclicHost false true)).

(** The default props ([enableTesting], [initiallyVisible]): attach, then
    destroy. *)
Definition testingAttached : state :=
  stateOf (initScreenLog 0 (mounted plainHost true true)).
Definition testingDestroyed : state :=
  stateOf (screenLogDestroy testingAttached).

(** A toggle immediately before the destroy. *)
Definition toggledDestroyed : state :=
  stateOf (screenLogDestroy
             (toggleThrottling 5 (stateOf (initScreenLog 0
                                             (mounted plainHost false true))))).

(** The default props again: attach, toggle, destroy within the 50 ms. *)
Definition testingToggledDestroyed : state :=
  stateOf (screenLogDestroy
             (toggleThrottling 5 (stateOf (initScreenLog 0
                                             (mounted plainHost true true))))).

(** A search begun while throttled to 500 ms. *)
Definition searching : state :=
  handleSearchChange "abc"
    (toggleThrottling 2 (toggleThrottling 1 (mounted plainHost false true))).

(** The Leva variant, test signals running. *)
Definition levaMounted : Leva.state :=
  {| Leva.heap := cyclicHeap;
     Leva.console := {| Leva.c_log := Leva.Native Leva.LOG;
                        Leva.c_info := Leva.Native Leva.INFO;
                        Leva.c_warn := Leva.Native Leva.WARN;
                        Leva.c_error := Leva.Native Leva.ERROR;
                        Leva.c_clear := Leva.Native Leva.CLEAR |};
     Leva.consoleMethodsRef := None; Leva.screenLog := None;
     Leva.nativeOut := []; Leva.logs := [];
     Leva.throttleConfigRef := {| Leva.throttled := false; Leva.paused := false;
                                  Leva.delay := 250 |};
     Leva.throttleTimeoutRef := None; Leva.lastLogTimeRef := 0%Z;
     Leva.testSignalIntervalRef := None; Leva.isInitializedRef := false;
     Leva.timers := []; Leva.nextTimerId := 1 |}.

Definition levaRunning : Leva.state :=
  Leva.startContinuousTestSignals (Leva.createLoggers 0 levaMounted).

End Sample.

(** Splitting the conjunctions of a goal, and no definition under them. *)
Ltac conjuncts := repeat match goal with |- _ /\ _ => split end.

(** Closed statements about concrete runs are settled by evaluation. *)
Ltac by_evaluation := conjuncts; vm_compute; reflexivity.

(* ===================================================================== *)
(** * Part V, continued: the rest of the component                        *)
(* ===================================================================== *)

(** Runs of the sink beyond single calls, and the functions of the
    component that the earlier parts did not need. *)
Module Run.
Import Value Classifier Sink Spec.

Definition primitive (v : value) : bool :=
  match v with VPrim _ => true | VRef _ => false end.

Definition primitiveArgs (l : earlyLog) : Prop :=
  forallb primitive (args l) = true.

(** What no console call changes: the host, what the names are bound
    to, the attachment and the controller. *)
Definition control (st : state)
  : env * consoleObj * option screenLogObj * bool * bool * ThrottleConfig :=
  (host st, console st, screenLog st, logElementRef st, isInitializedRef st,
   throttleConfigRef st).

Definition isClear (m : method) : bool :=
  match m with CLEAR => true | _ => false end.

(** The calls that the early wrappers record: all but [console.clear]. *)
Definition recorded (c : method * list value * Z) : bool :=
  negb (isClear (callMethod c)).

(** What an observer reads off the entry of a console call. *)
Definition callView (e : env) (c : method * list value * Z)
  : string * list node :=
  (colorOf (callMethod c), rendered e (callArgs c)).

(** [window.screenLog[m](...args)], guarded as its callers guard it by
    [if (window.screenLog)]. *)
Definition handleFn (sl : screenLogObj) (m : method) : fn :=
  match m with
  | LOG => sl_log sl | INFO => sl_info sl | WARN => sl_warn sl
  | ERROR => sl_error sl | CLEAR => sl_clear sl
  end.

Definition handleCall (m : method) (a : list value) (now : Z) (st : state)
  : outcome :=
  match screenLog st with
  | Some sl => callFn (handleFn sl m) a now st
  | None => Done st
  end.

(** Entries submitted to the admission path one after another, each
    with its colour and clock reading; an entry whose rendering throws
    leaves the state as it was. *)
Fixpoint submitAll (entries : list (string * list value * Z)) (st : state)
  : state :=
  match entries with
  | [] => st
  | (color, a, now) :: rest =>
      submitAll rest (stateOf (genericLogger color a now st))
  end.

(** Consecutive readings, starting after [t0], are at least [d] apart. *)
Fixpoint spaced (d t0 : Z) (times : list Z) : Prop :=
  match times with
  | [] => True
  | t :: rest => (d <= t - t0)%Z /\ spaced d t rest
  end.

(** The toggle applied [n] times to a configuration. *)
Fixpoint toggles (n : nat) (cfg : ThrottleConfig) : ThrottleConfig :=
  match n with
  | 0 => cfg
  | S k => nextConfig (toggles k cfg)
  end.

(** The five configurations a toggle can write. *)
Definition canonical (cfg : ThrottleConfig) : Prop :=
  cfg = plain true false 250 \/ cfg = plain true false 500
  \/ cfg = plain true false 1000 \/ cfg = plain false true 1000
  \/ cfg = plain false false 250.

(** The search box receiving one query after another. *)
Fixpoint typeQueries (queries : list string) (st : state) : state :=
  match queries with
  | [] => st
  | q :: rest => typeQueries rest (handleSearchChange q st)
  end.

(** The throttle button clicked at each of [times]. *)
Definition clicks (times : list Z) (st : state) : state :=
  fold_left (fun s t => toggleThrottling t s) times st.

(** ** Runs of the component

    What can happen to a mounted component, one event at a time.  The
    conditions under which the component itself starts and stops the
    test signals (the visibility, the number of entries shown) and runs
    its mount effect are not kept: in a run they may happen at any
    time, so every run of the component is a run here. *)
Inductive event : Type :=
| Console (m : method) (a : list value)    (* [console[m](...a)] *)
| ScreenLog (m : method) (a : list value)  (* [window.screenLog[m](...a)] *)
| Replay (maxEntries : nat)       (* [replayLogsToScreenLogger(maxEntries)] *)
| Init                            (* the timer of the mount effect *)
| Destroy                         (* [window.screenLog.destroy()] *)
| Unmount                         (* the cleanup of the last effect *)
| Toggle                          (* the throttle button, Ctrl+T *)
| Pause                           (* the Pause button, Ctrl+P *)
| Search (query : string)         (* the search box *)
| StartSignals                    (* [startContinuousTestSignals()] *)
| StopSignals                     (* [stopContinuousTestSignals()] *)
| Due (id : nat).                 (* the timer [id] comes due *)

(** The state an event leaves; an exception that escapes the handler
    leaves the state as it was when thrown. *)
Definition react (ev : event) (now : Z) (st : state) : state :=
  match ev with
  | Console m a => stateOf (consoleCall m a now st)
  | ScreenLog m a => stateOf (handleCall m a now st)
  | Replay maxEntries => stateOf (replayLogsToScreenLogger maxEntries now st)
  | Init =>
      match initScreenLog now st with
      | Done st1 => set_isInitializedRef true st1
      | Thrown st1 => st1
      end
  | Destroy =>
      match screenLog st with
      | Some sl => destroy sl st
      | None => st
      end
  | Unmount => unmount st
  | Toggle => toggleThrottling now st
  | Pause => togglePause st
  | Search query => handleSearchChange query st
  | StartSignals => startContinuousTestSignals st
  | StopSignals => stopContinuousTestSignals st
  | Due id => stateOf (fire id now st)
  end.

Fixpoint runEvents (evs : list (event * Z)) (st : state) : state :=
  match evs with
  | [] => st
  | (ev, now) :: rest => runEvents rest (react ev now st)
  end.

(** What the names are bound to and whether a panel is attached. *)
Definition wiring (st : state)
  : consoleObj * option screenLogObj * bool * bool :=
  (console st, screenLog st, logElementRef st, isInitializedRef st).

(** The console is either as the attach found it, with no panel, or
    decorated once over that, with the handle of that attach. *)
Definition wired (c0 : consoleObj) (st : state) : Prop :=
  (console st = c0
   /\ (screenLog st = None \/ screenLog st = Some (handle c0))
   /\ logElementRef st = false /\ isInitializedRef st = false)
  \/ (console st = decorate c0 /\ screenLog st = Some (handle c0)
      /\ logElementRef st = true /\ isInitializedRef st = true).

(** Nothing is held back for later: no throttle timeout, no pending
    entries. *)
Definition nothingDeferred (st : state) : Prop :=
  throttleTimeoutRef st = None /\ pendingLogsRef st = [].

Definition isTestSignal (t : timer) : bool :=
  match task t with TestSignal => true | _ => false end.

(** The pending test-signal intervals. *)
Definition signals (st : state) : list timer :=
  filter isTestSignal (timers st).

(** Every pending test-signal interval is the one the component holds
    in [testSignalIntervalRef], and there is at most one. *)
Definition oneInterval (st : state) : Prop :=
  (forall t, In t (signals st) -> testSignalIntervalRef st = Some (timerId t))
  /\ List.length (signals st) <= 1.

(** A host whose only object has three long keys. *)
Definition wideObject : env :=
  {| heap := [HObject [("firstKeyOfTheObjectWhichIsFortyCharsLong", VPrim (PNum 1));
                       ("secondKeyOfTheObjectWhichIsFortyCharsLng", VPrim (PNum 2));
                       ("thirdKeyOfTheObjectWhichIsFortyCharsLong", VPrim (PNum 3))]];
     numeral := Sample.plainNumeral |}.

(** The third word of a text of the common shape, when there is one. *)
Definition thirdWord (paramName : option string) : string :=
  match paramName with
  | Some word => (" " ++ word)%string
  | None => ""
  end.

(** A non-empty word without white space. *)
Definition isWordOfText (word : string) : Prop :=
  word <> "" /\ forallb (Regex.notc JS.isSpace) (JS.chars word) = true.

(** The last [k] elements of a list. *)
Definition lastN {A : Type} (k : nat) (l : list A) : list A :=
  skipn (List.length l - k) l.

(** The entries of the buffer that a replay capped at [maxEntries]
    gets to: the start separator, itself recorded by the time the
    buffer is cut, takes one of the places. *)
Definition replayed (maxEntries : nat) (buffer : list earlyLog)
  : list earlyLog :=
  match maxEntries with
  | 0 => buffer
  | S k => lastN k buffer
  end.

(** The text a node contributes to [textContent]; a collapsed structure
    contributes its summary and its body. *)
Definition nodeText (n : node) : string :=
  match n with
  | Span _ _ t => t
  | TextNode t => t
  | Details summary body => (summary ++ body)%string
  end.

Definition textContent (ns : list node) : string :=
  String.concat "" (map nodeText ns).

End Run.

(** ** The earlier revision of the component

    [getResponsiveWidth(position)] of the earlier revision reads
    [window.innerWidth]; the position is the string the caller passes. *)
Module Earlier.

Definition isSide (position : string) : bool :=
  String.eqb position "left" || String.eqb position "right".
Definition isEdge (position : string) : bool :=
  String.eqb position "top" || String.eqb position "bottom".
Definition isCorner (position : string) : bool :=
  JS.includes "top-" position || JS.includes "bottom-" position.
Definition isCenter (position : string) : bool :=
  String.eqb position "center".

Definition getResponsiveWidth (screenWidth : Z) (position : string) : string :=
  let wide :=
    if isSide position then "20%"
    else if isEdge position then "50%"
    else if isCorner position then "20%"
    else if isCenter position then "60%"
    else "50%" in
  if (screenWidth <=? 640)%Z then
    if isSide position then "50%"
    else if isEdge position then "90%"
    else if isCorner position then "50%"
    else if isCenter position then "90%"
    else wide
  else if (screenWidth <=? 1024)%Z then
    if isSide position then "30%"
    else if isEdge position then "70%"
    else if isCorner position then "30%"
    else if isCenter position then "70%"
    else wide
  else wide.

(** The number a width starts with. *)
Fixpoint digitsValue (acc : Z) (l : list ascii) : Z :=
  match l with
  | c :: l' =>
      if JS.isDigit c
      then digitsValue (10 * acc + Z.of_nat (JS.codeOf c - 48)) l'
      else acc
  | [] => acc
  end.

Definition percentOf (width : string) : Z := digitsValue 0 (JS.chars width).

End Earlier.

(** ** Runs of the Leva variant *)
Module LevaRun.

(** The methods [createLoggers] saves: each bound to the console. *)
Definition originalMethods (c : Leva.consoleObj) : Leva.consoleObj :=
  {| Leva.c_log := Leva.Bound (Leva.c_log c);
     Leva.c_info := Leva.Bound (Leva.c_info c);
     Leva.c_warn := Leva.Bound (Leva.c_warn c);
     Leva.c_error := Leva.Bound (Leva.c_error c);
     Leva.c_clear := Leva.Bound (Leva.c_clear c) |}.

(** Entries handed to [processLog] one after another. *)
Fixpoint processAll (entries : list (Leva.method * list Value.value * Z))
         (st : Leva.state) : Leva.state :=
  match entries with
  | [] => st
  | (ty, a, now) :: rest => processAll rest (Leva.processLog ty a now st)
  end.

(** What [processLog] never touches. *)
Definition wiring (st : Leva.state)
  : Leva.consoleObj * option Leva.consoleObj * option Leva.screenLogObj
    * option nat * option nat * bool * list nat * nat :=
  (Leva.console st, Leva.consoleMethodsRef st, Leva.screenLog st,
   Leva.throttleTimeoutRef st, Leva.testSignalIntervalRef st,
   Leva.isInitializedRef st, Leva.timers st, Leva.nextTimerId st).

End LevaRun.

(** Case analysis on whatever the goal branches on, evaluating as it
    goes. *)
Ltac by_cases :=
  cbn;
  repeat match goal with
         | |- context [match ?x with _ => _ end] => destruct x; cbn
         end;
  auto.

(* ===================================================================== *)
(** * Part VI: the serializer always returns                              *)
(* ===================================================================== *)

Module JsonFacts.
Import Value Json.

Lemma traverse_returns (A B : Type) (f : A -> option (result B)) (l : list A) :
  (forall a, In a l -> f a <> None) -> traverse f l <> None.
Proof.
  induction l as [|a l IH]; intros Hf; cbn [traverse]; [discriminate|].
  destruct (f a) as [[b|]|] eqn:Ha.
  - assert (Hl : traverse f l <> None)
      by (apply IH; intros x Hx; apply Hf; right; exact Hx).
    destruct (traverse f l) as [[bs|]|]; try discriminate. contradiction.
  - discriminate.
  - exfalso. apply (Hf a); [left; reflexivity|exact Ha].
Qed.

Lemma filter_shrinks (p q : nat -> bool) (xs : list nat) (a : nat) :
  (forall x, q x = true -> p x = true) ->
  In a xs -> p a = true -> q a = false ->
  List.length (filter q xs) < List.length (filter p xs).
Proof.
  intros Hqp. induction xs as [|x xs IH]; intros Hin Hpa Hqa; [contradiction|].
  assert (Hle : forall ys, List.length (filter q ys) <= List.length (filter p ys)).
  { induction ys as [|y ys IHy]; cbn; [lia|].
    destruct (q y) eqn:Hq.
    - rewrite (Hqp y Hq). cbn. lia.
    - destruct (p y); cbn; lia. }
  cbn. destruct Hin as [->|Hin].
  - rewrite Hpa, Hqa. cbn. specialize (Hle xs). lia.
  - specialize (IH Hin Hpa Hqa).
    destruct (q x) eqn:Hq.
    + rewrite (Hqp x Hq). cbn. lia.
    + destruct (p x); cbn; lia.
Qed.

(** Entering a cell of the heap leaves one cell fewer to visit. *)
Lemma unvisited_shrinks (h : heap) (stack : list loc) (l : loc) :
  l < List.length h ->
  existsb (Nat.eqb l) stack = false ->
  List.length (unvisited h (l :: stack)) < List.length (unvisited h stack).
Proof.
  intros Hl Hfresh. unfold unvisited.
  apply filter_shrinks with (a := l).
  - intros x. cbn [existsb]. rewrite negb_orb, andb_true_iff. tauto.
  - apply in_seq. lia.
  - rewrite Hfresh. reflexivity.
  - cbn [existsb]. rewrite Nat.eqb_refl. reflexivity.
Qed.

(** With more units than cells left to visit the serializer returns: a
    text, [undefined], or a throw. *)
Lemma serializeProperty_returns (h : heap) (gap : string) (fuel : nat) :
  forall (stack : list loc) (indent : string) (v : value),
    List.length (unvisited h stack) < fuel ->
    serializeProperty h gap fuel stack indent v <> None.
Proof.
  induction fuel as [|fuel IH]; intros stack indent v Hfuel; [lia|].
  destruct v as [p|l]; [destruct p; discriminate|].
  cbn [serializeProperty].
  destruct (existsb (Nat.eqb l) stack) eqn:Hfresh; [discriminate|].
  assert (Hinner : forall c,
             In c match deref h l with
                  | HObject fields => map snd fields
                  | HArray elems => elems
                  end ->
             serializeProperty h gap fuel (l :: stack) (indent ++ gap)%string c
             <> None).
  { intros c Hc. apply IH.
    destruct (Nat.lt_ge_cases l (List.length h)) as [Hin|Hout].
    - pose proof (unvisited_shrinks h stack l Hin Hfresh). lia.
    - exfalso. unfold deref in Hc. rewrite nth_overflow in Hc by exact Hout.
      exact Hc. }
  destruct (deref h l) as [fields|elems].
  - pose proof (traverse_returns _ _
                  (serializeProperty h gap fuel (l :: stack) (indent ++ gap)%string)
                  (map snd fields) Hinner) as Ht.
    destruct (traverse _ (map snd fields)) as [[parts|]|];
      [discriminate|discriminate|contradiction].
  - pose proof (traverse_returns _ _
                  (serializeProperty h gap fuel (l :: stack) (indent ++ gap)%string)
                  elems Hinner) as Ht.
    destruct (traverse _ elems) as [[parts|]|];
      [discriminate|discriminate|contradiction].
Qed.

(** The budget of [stringifyWith] is never used up. *)
Lemma serializeProperty_budget (h : heap) (gap : string) (v : value) :
  serializeProperty h gap (budget h) [] "" v <> None.
Proof.
  apply serializeProperty_returns.
  unfold budget, unvisited.
  eapply Nat.le_lt_trans; [apply filter_length_le|].
  rewrite length_seq. lia.
Qed.

(** So [stringifyWith] is the serializer itself. *)
Lemma stringifyWith_exact (gap : string) (h : heap) (v : value) :
  serializeProperty h gap (budget h) [] "" v = Some (stringifyWith gap h v).
Proof.
  unfold stringifyWith.
  pose proof (serializeProperty_budget h gap v) as H.
  destruct (serializeProperty h gap (budget h) [] "" v);
    [reflexivity|contradiction].
Qed.

End JsonFacts.

(* ===================================================================== *)
(** * Part VII: the classifier on the documented texts                    *)
(* ===================================================================== *)

Module ClassifierFacts.
Import Value Classifier.

(** The common shape is recognised with all four groups. *)
Lemma commonLogRegex_auth :
  Regex.exec commonLogRegex "[Auth] login userId 42"
  = Some [(4, "42"); (3, "userId"); (2, "login"); (1, "Auth")].
Proof. vm_compute. reflexivity. Qed.

(** A remainder made of digits is one number token. *)
Lemma formatRest_digits : formatRest "42" = [Span numberColor false "42"].
Proof. vm_compute. reflexivity. Qed.

(** C7.  The text "[Auth] login userId 42" is decomposed into exactly the
    module token "[Auth] ", the action token "login ", the parameter token
    "userId " and the value token "42" in the number colour; the only
    thing that may follow is the separator between adjacent arguments. *)
Theorem formatLogText_auth_login (e : env) (index argsLength : nat) :
  formatLogText e (VPrim (PStr "[Auth] login userId 42")) index argsLength
  = Ok ([Span bracketColor true "[Auth] ";
         Span identifierColor false "login ";
         Span propertyColor false "userId ";
         Span numberColor false "42"]
          ++ trailingSpace index argsLength).
Proof.
  unfold formatLogText.
  cbn [stringOfPrim].
  rewrite commonLogRegex_auth.
  cbn [Regex.group Nat.eqb truthy].
  rewrite formatRest_digits.
  reflexivity.
Qed.

(** The general property-list scanner on the same remainder: two
    properties, two values, split at the colons and at the comma. *)
Lemma scanParts_patch :
  scanParts (JS.chars "activePresetId: null, currentPatchName: Foo") "" false
  = [{| type := property; text := "activePresetId" |};
     {| type := separator; text := ": " |};
     {| type := valuePart; text := "null" |};
     {| type := comma; text := ", " |};
     {| type := property; text := "currentPatchName" |};
     {| type := separator; text := ": " |};
     {| type := valuePart; text := "Foo" |}].
Proof. vm_compute. reflexivity. Qed.

Lemma valueColor_null_Foo :
  valueColor "null" = nullColor /\ valueColor "Foo" = identifierColor.
Proof. split; vm_compute; reflexivity. Qed.

(** C8.  The remainder "activePresetId: null, currentPatchName: Foo" is
    rendered as exactly two property/value pairs around one comma: the
    value "null" in the null colour, the value "Foo" in the colour of
    generic values; and that is the remainder of a text of the common
    shape. *)
Theorem formatRest_patch_pairs :
  formatRest "activePresetId: null, currentPatchName: Foo"
  = [Span propertyColor false "activePresetId: ";
     Span nullColor false "null";
     TextNode ", ";
     Span propertyColor false "currentPatchName: ";
     Span identifierColor false "Foo"]
  /\ (forall e : env,
        formatLogText e
          (VPrim (PStr "[PatchSelectMenu] Trigger Render activePresetId: null, currentPatchName: Foo"))
          0 1
        = Ok ([Span bracketColor true "[PatchSelectMenu] ";
               Span identifierColor false "Trigger ";
               Span propertyColor false "Render "]
                ++ formatRest "activePresetId: null, currentPatchName: Foo")).
Proof.
  split.
  - vm_compute. reflexivity.
  - intros e. vm_compute. reflexivity.
Qed.

(** A primitive argument always renders. *)
Lemma formatLogText_prim (e : env) (p : prim) (index argsLength : nat) :
  exists ns, formatLogText e (VPrim p) index argsLength = Ok ns.
Proof. unfold formatLogText. eexists. reflexivity. Qed.

(** A structured argument renders exactly when its serialization does
    not throw: nothing in [formatLogText] catches that exception. *)
Lemma formatLogText_structured (e : env) (l : loc) (index argsLength : nat) :
  formatLogText e (VRef l) index argsLength = Throw
  <-> Json.stringify (heap e) (VRef l) = Throw.
Proof.
  unfold formatLogText.
  destruct (Json.stringify (heap e) (VRef l)); split;
    intros H; try discriminate; reflexivity.
Qed.

End ClassifierFacts.

(* ===================================================================== *)
(** * Part VIII: the throttle controller                                  *)
(* ===================================================================== *)

Module ControllerFacts.
Import Value Classifier Sink Spec.

(** ** What the cancellations leave alone *)

Lemma cancelThrottleTimeout_frame (st : state) :
  throttleConfigRef (cancelThrottleTimeout st) = throttleConfigRef st
  /\ nextTimerId (cancelThrottleTimeout st) = nextTimerId st
  /\ testSignalIntervalRef (cancelThrottleTimeout st) = testSignalIntervalRef st
  /\ searchQuery (cancelThrottleTimeout st) = searchQuery st.
Proof.
  unfold cancelThrottleTimeout.
  destruct (throttleTimeoutRef st); repeat split; reflexivity.
Qed.

Lemma stopContinuousTestSignals_frame (st : state) :
  throttleConfigRef (stopContinuousTestSignals st) = throttleConfigRef st
  /\ nextTimerId (stopContinuousTestSignals st) = nextTimerId st
  /\ searchQuery (stopContinuousTestSignals st) = searchQuery st.
Proof.
  unfold stopContinuousTestSignals.
  destruct (testSignalIntervalRef st); repeat split; reflexivity.
Qed.

Lemma quiesced_config (st : state) :
  throttleConfigRef (stopContinuousTestSignals (cancelThrottleTimeout st))
  = throttleConfigRef st.
Proof.
  destruct (stopContinuousTestSignals_frame (cancelThrottleTimeout st)) as [-> _].
  apply cancelThrottleTimeout_frame.
Qed.

Lemma quiesced_nextTimerId (st : state) :
  nextTimerId (stopContinuousTestSignals (cancelThrottleTimeout st))
  = nextTimerId st.
Proof.
  destruct (stopContinuousTestSignals_frame (cancelThrottleTimeout st))
    as (_ & -> & _).
  apply cancelThrottleTimeout_frame.
Qed.

(** ** One toggle *)

(** The toggle installs the configuration of the branch table. *)
Lemma toggleThrottling_config (now : Z) (st : state) :
  throttleConfigRef (toggleThrottling now st) = nextConfig (throttleConfigRef st).
Proof.
  unfold toggleThrottling, nextConfig.
  rewrite quiesced_config.
  destruct (toggleStep (throttleConfigRef st)) as [[cfg message] stamp].
  destruct stamp; reflexivity.
Qed.

(** The toggle arms one timer, with the message of the branch table. *)
Lemma toggleThrottling_emits (now : Z) (st : state) :
  emits st (toggleThrottling now st) (nextMessage (throttleConfigRef st)).
Proof.
  unfold emits, toggleThrottling, nextMessage.
  rewrite quiesced_config.
  destruct (toggleStep (throttleConfigRef st)) as [[cfg message] stamp].
  unfold statusTimer.
  rewrite <- (quiesced_nextTimerId st).
  destruct stamp; reflexivity.
Qed.

(** The configuration written by a toggle never has a snapshot. *)
Lemma nextConfig_no_snapshot (cfg : ThrottleConfig) :
  _previousState (nextConfig cfg) = None.
Proof.
  unfold nextConfig, toggleStep.
  repeat match goal with
         | |- context [if ?b then _ else _] => destruct b
         end; reflexivity.
Qed.

(** The branch table on the five modes of the cycle. *)
Lemma toggleStep_modes (cfg : ThrottleConfig) :
  match modeOf cfg with
  | Normal =>
      modeOf (nextConfig cfg) = Throttled 250 /\ nextMessage cfg = msgEnabled250
  | Throttled d =>
      (d = 250%Z ->
       modeOf (nextConfig cfg) = Throttled 500 /\ nextMessage cfg = msgSet500)
      /\ (d = 500%Z ->
          modeOf (nextConfig cfg) = Throttled 1000 /\ nextMessage cfg = msgSet1000)
      /\ (d = 1000%Z ->
          modeOf (nextConfig cfg) = Paused /\ nextMessage cfg = msgPaused)
  | Paused =>
      throttled cfg = false ->
      modeOf (nextConfig cfg) = Normal /\ nextMessage cfg = msgDisabled
  end.
Proof.
  destruct cfg as [t p d prev].
  unfold modeOf, nextConfig, nextMessage, toggleStep; cbn.
  destruct p, t; cbn; try discriminate.
  - intros _. split; reflexivity.
  - repeat split; subst; reflexivity.
  - split; reflexivity.
Qed.


(** ** The search overlay *)

Lemma handleSearchChange_config (query : string) (st : state) :
  throttleConfigRef (handleSearchChange query st)
  = let cfg := throttleConfigRef st in
    let before := negb (String.eqb (searchQuery st) "") in
    let after := negb (String.eqb query "") in
    if negb before && after then
      if negb (paused cfg) then
        {| throttled := false; paused := true; delay := delay cfg;
           _previousState := Some {| prevThrottled := throttled cfg;
                                     prevDelay := delay cfg |} |}
      else cfg
    else if before && negb after then
      match paused cfg, _previousState cfg with
      | true, Some prev =>
          {| throttled := prevThrottled prev; paused := false;
             delay := prevDelay prev; _previousState := None |}
      | _, _ => cfg
      end
    else cfg.
Proof.
  unfold handleSearchChange. cbn.
  destruct (negb (negb (searchQuery st =? "")%string) && negb (query =? "")%string).
  - destruct (negb (paused (throttleConfigRef st))); reflexivity.
  - destruct (negb (searchQuery st =? "")%string && negb (negb (query =? "")%string)).
    + destruct (paused (throttleConfigRef st)); [|reflexivity].
      destruct (_previousState (throttleConfigRef st)); reflexivity.
    + reflexivity.
Qed.

Lemma handleSearchChange_query (query : string) (st : state) :
  searchQuery (handleSearchChange query st) = query.
Proof.
  unfold handleSearchChange. cbn.
  repeat match goal with
         | |- context [if ?b then _ else _] => destruct b
         | |- context [match ?o with Some _ => _ | None => _ end] => destruct o
         end; reflexivity.
Qed.

(** C4.  When the query goes from empty to non-empty: a controller that
    is not paused has its throttle flag and delay saved in the snapshot
    and is paused; a controller that is already paused keeps its
    configuration, and no snapshot is written. *)
Theorem search_start_pauses (query : string) (st : state) :
  searchQuery st = "" ->
  query <> "" ->
  (paused (throttleConfigRef st) = false ->
   throttleConfigRef (handleSearchChange query st)
   = {| throttled := false; paused := true;
        delay := delay (throttleConfigRef st);
        _previousState :=
          Some {| prevThrottled := throttled (throttleConfigRef st);
                  prevDelay := delay (throttleConfigRef st) |} |}
   /\ modeIn (handleSearchChange query st) = Paused)
  /\ (paused (throttleConfigRef st) = true ->
      throttleConfigRef (handleSearchChange query st) = throttleConfigRef st).
Proof.
  intros Hempty Hquery.
  unfold modeIn.
  remember (throttleConfigRef (handleSearchChange query st)) as c eqn:Ec.
  rewrite handleSearchChange_config in Ec.
  cbn zeta in Ec. rewrite Hempty in Ec.
  destruct (String.eqb_spec query "") as [->|_]; [contradiction|].
  cbn in Ec.
  split; intros Hp; rewrite Hp in Ec; cbn in Ec; subst c.
  - split; reflexivity.
  - reflexivity.
Qed.

(** A search begun while throttled to 500 ms. *)
Lemma search_start_pauses_witness :
  modeIn Sample.searching = Paused
  /\ _previousState (throttleConfigRef Sample.searching)
     = Some {| prevThrottled := true; prevDelay := 500 |}.
Proof.
  pose proof (search_start_pauses "abc"
                (toggleThrottling 2 (toggleThrottling 1
                   (mounted Sample.plainHost false true)))
                eq_refl) as H.
  destruct H as [H _]; [discriminate|].
  destruct (H eq_refl) as [Hcfg Hmode].
  split; [exact Hmode|].
  unfold Sample.searching. rewrite Hcfg. reflexivity.
Defined.

(** Ending a search restores at most once: the snapshot does not survive
    the restore. *)
Lemma search_end_config (st : state) :
  throttleConfigRef (handleSearchChange "" st)
  = if negb (String.eqb (searchQuery st) "") then
      match paused (throttleConfigRef st),
            _previousState (throttleConfigRef st) with
      | true, Some prev =>
          {| throttled := prevThrottled prev; paused := false;
             delay := prevDelay prev; _previousState := None |}
      | _, _ => throttleConfigRef st
      end
    else throttleConfigRef st.
Proof.
  rewrite handleSearchChange_config. cbn.
  rewrite andb_false_r.
  destruct (searchQuery st =? "")%string; reflexivity.
Qed.

(** C5.  Ending a search when no snapshot exists leaves the throttle
    configuration (mode and delay) as it is; ending a search restores the
    snapshot of an auto-pause and removes it; and ending a search a
    second time changes nothing more, whether or not the component has
    rendered in between (that is, whatever query the second call takes
    for the previous one). *)
Theorem search_end_idempotent (st : state) :
  (_previousState (throttleConfigRef st) = None ->
   throttleConfigRef (handleSearchChange "" st) = throttleConfigRef st)
  /\ (forall prev,
        searchQuery st <> "" ->
        paused (throttleConfigRef st) = true ->
        _previousState (throttleConfigRef st) = Some prev ->
        throttleConfigRef (handleSearchChange "" st)
        = {| throttled := prevThrottled prev; paused := false;
             delay := prevDelay prev; _previousState := None |})
  /\ throttleConfigRef (handleSearchChange "" (handleSearchChange "" st))
     = throttleConfigRef (handleSearchChange "" st)
  /\ (forall st',
        searchQuery st <> "" ->
        throttleConfigRef st' = throttleConfigRef (handleSearchChange "" st) ->
        throttleConfigRef (handleSearchChange "" st') = throttleConfigRef st').
Proof.
  repeat split.
  - intros Hnone. rewrite search_end_config, Hnone.
    destruct (negb (searchQuery st =? "")%string);
      destruct (paused (throttleConfigRef st)); reflexivity.
  - intros prev Hq Hp Hs. rewrite search_end_config, Hp, Hs.
    destruct (String.eqb_spec (searchQuery st) "") as [E|_]; [contradiction|].
    reflexivity.
  - rewrite (search_end_config (handleSearchChange "" st)).
    rewrite handleSearchChange_query. reflexivity.
  - intros st' Hq Hst'.
    rewrite (search_end_config st'), Hst', (search_end_config st).
    destruct (String.eqb_spec (searchQuery st) "") as [E|_]; [contradiction|].
    cbn [negb].
    destruct (negb (searchQuery st' =? "")%string); [|reflexivity].
    destruct (paused (throttleConfigRef st)) eqn:Hp;
      [destruct (_previousState (throttleConfigRef st)) eqn:Hs|];
      cbn; rewrite ?Hp, ?Hs; reflexivity.
Qed.

(** A search begun while throttled to 500 ms and then ended, twice. *)
Lemma search_end_idempotent_witness :
  modeIn (handleSearchChange "" Sample.searching) = Throttled 500
  /\ modeIn (handleSearchChange "" (handleSearchChange "" Sample.searching))
     = Throttled 500.
Proof.
  destruct (search_end_idempotent Sample.searching)
    as (_ & Hrestore & Hagain & _).
  assert (Hcfg : throttleConfigRef (handleSearchChange "" Sample.searching)
                 = {| throttled := true; paused := false; delay := 500;
                      _previousState := None |}).
  { apply (Hrestore {| prevThrottled := true; prevDelay := 500 |}).
    - vm_compute. discriminate.
    - vm_compute. reflexivity.
    - vm_compute. reflexivity. }
  unfold modeIn. rewrite Hagain, Hcfg. split; reflexivity.
Defined.

(** C10.  Whatever the state, the configuration written by the toggle
    has no snapshot, and a search that ends next restores nothing: the
    configuration stays the one the toggle produced. *)
Theorem toggle_discards_snapshot (now : Z) (st : state) :
  _previousState (throttleConfigRef (toggleThrottling now st)) = None
  /\ throttleConfigRef (handleSearchChange "" (toggleThrottling now st))
     = throttleConfigRef (toggleThrottling now st)
  /\ modeIn (handleSearchChange "" (toggleThrottling now st))
     = modeIn (toggleThrottling now st).
Proof.
  assert (Hnone : _previousState (throttleConfigRef (toggleThrottling now st)) = None).
  { rewrite toggleThrottling_config. apply nextConfig_no_snapshot. }
  assert (Hsame : throttleConfigRef (handleSearchChange "" (toggleThrottling now st))
                  = throttleConfigRef (toggleThrottling now st)).
  { rewrite search_end_config, Hnone.
    destruct (negb (searchQuery (toggleThrottling now st) =? "")%string);
      destruct (paused (throttleConfigRef (toggleThrottling now st)));
      reflexivity. }
  repeat split; try assumption.
  unfold modeIn. rewrite Hsame. reflexivity.
Qed.

(** A toggle during an auto-pause: the snapshot (throttled, 500 ms) is
    gone, and the end of the search leaves the mode of the toggle. *)
Lemma toggle_during_search :
  _previousState (throttleConfigRef Sample.searching)
  = Some {| prevThrottled := true; prevDelay := 500 |}
  /\ modeIn (toggleThrottling 9 Sample.searching) = Normal
  /\ modeIn (handleSearchChange "" (toggleThrottling 9 Sample.searching)) = Normal.
Proof. by_evaluation. Qed.

End ControllerFacts.

(* ===================================================================== *)
(** * Part IX: admission, serialization failures, teardown                *)
(* ===================================================================== *)

Module SinkFacts.
Import Value Classifier Sink Spec.

Lemma modeIn_normal (st : state) :
  modeIn st = Normal ->
  paused (throttleConfigRef st) = false
  /\ throttled (throttleConfigRef st) = false.
Proof.
  unfold modeIn, modeOf.
  destruct (paused (throttleConfigRef st)); [discriminate|].
  destruct (throttled (throttleConfigRef st)); [discriminate|].
  split; reflexivity.
Qed.

Lemma modeIn_throttled (st : state) (d : Z) :
  modeIn st = Throttled d ->
  paused (throttleConfigRef st) = false
  /\ throttled (throttleConfigRef st) = true
  /\ delay (throttleConfigRef st) = d.
Proof.
  unfold modeIn, modeOf.
  destruct (paused (throttleConfigRef st)); [discriminate|].
  destruct (throttled (throttleConfigRef st)); [|discriminate].
  intros [= <-]. repeat split; reflexivity.
Qed.

(** ** The throttle gate *)

(** The admission path in the throttled mode. *)
Lemma genericLogger_throttled (color : string) (a : list value) (now : Z)
      (st : state) (d : Z) (ch : list logLine) (ns : list node) :
  logElementRef st = true ->
  content st = Some ch ->
  modeIn st = Throttled d ->
  formatArgs (host st) a = Ok ns ->
  genericLogger color a now st
  = if (d <=? now - lastLogTimeRef st)%Z
    then Done (set_lastLogTimeRef now (appendLine color ch now ns st))
    else Done st.
Proof.
  intros Hel Hc Hm Hf.
  destruct (modeIn_throttled st d Hm) as (Hp & Ht & Hd).
  unfold genericLogger.
  rewrite Hel, Hp, Hc, Ht, Hd, Hf. cbn.
  reflexivity.
Qed.

(** C3, as the code has it.  While the controller is Throttled(d), on an
    attached sink and for arguments that render: an entry is discarded
    unless now - lastLogTime >= d, and an accepted entry is appended and
    sets lastLogTime to now.  Consequently, when the first of two entries
    is accepted, a second one less than d later is discarded (one
    admission in all) and a second one at least d later is accepted
    (two admissions). *)
Theorem throttle_gate (color : string) (a : list value) (now : Z)
        (st : state) (d : Z) (ch : list logLine) (ns : list node) :
  logElementRef st = true ->
  content st = Some ch ->
  modeIn st = Throttled d ->
  formatArgs (host st) a = Ok ns ->
  ((now - lastLogTimeRef st < d)%Z -> genericLogger color a now st = Done st)
  /\ ((d <= now - lastLogTimeRef st)%Z ->
      exists st1,
        genericLogger color a now st = Done st1
        /\ content st1 = Some (ch ++ [mkLine color ch now ns])
        /\ lastLogTimeRef st1 = now
        /\ entryCount st1 = S (entryCount st)
        /\ forall color2 a2 now2 ns2,
            formatArgs (host st) a2 = Ok ns2 ->
            ((now2 - now < d)%Z ->
             entryCount (stateOf (genericLogger color2 a2 now2 st1))
             = S (entryCount st))
            /\ ((d <= now2 - now)%Z ->
                entryCount (stateOf (genericLogger color2 a2 now2 st1))
                = S (S (entryCount st)))).
Proof.
  intros Hel Hc Hm Hf.
  pose proof (genericLogger_throttled color a now st d ch ns Hel Hc Hm Hf) as Hg.
  split.
  - intros Hlt. rewrite Hg.
    destruct (Z.leb_spec d (now - lastLogTimeRef st)); [lia|reflexivity].
  - intros Hge.
    destruct (Z.leb_spec d (now - lastLogTimeRef st)); [|lia].
    exists (set_lastLogTimeRef now (appendLine color ch now ns st)).
    assert (Hadm : entryCount (set_lastLogTimeRef now (appendLine color ch now ns st))
                   = S (entryCount st)).
    { unfold entryCount. rewrite Hc. cbn. rewrite length_app. cbn. lia. }
    repeat split; try assumption; try reflexivity.
    + intros Hlt.
      rewrite (genericLogger_throttled color2 a2 now2 _ d
                 (ch ++ [mkLine color ch now ns]) ns2);
        try reflexivity; try assumption.
      cbn [lastLogTimeRef set_lastLogTimeRef].
      destruct (Z.leb_spec d (now2 - now)); [lia|].
      cbn [stateOf]. exact Hadm.
    + intros Hge2.
      rewrite (genericLogger_throttled color2 a2 now2 _ d
                 (ch ++ [mkLine color ch now ns]) ns2);
        try reflexivity; try assumption.
      cbn [lastLogTimeRef set_lastLogTimeRef].
      destruct (Z.leb_spec d (now2 - now)); [|lia].
      cbn [stateOf]. unfold entryCount. rewrite Hc. cbn.
      rewrite !length_app. cbn. lia.
Qed.

(** The gate on a sink throttled to 250 ms whose last admission was at
    1000: an entry at 1250 is accepted, one at 1300 after it is not. *)
Lemma throttle_gate_witness :
  modeIn Sample.throttledAt1000 = Throttled 250
  /\ entryCount (stateOf (genericLogger logColor (str "a") 1250
                                      Sample.throttledAt1000))
     = S (entryCount Sample.throttledAt1000).
Proof.
  assert (Hm : modeIn Sample.throttledAt1000 = Throttled 250)
    by (vm_compute; reflexivity).
  assert (Hel : logElementRef Sample.throttledAt1000 = true)
    by (vm_compute; reflexivity).
  assert (Hc : content Sample.throttledAt1000
               = Some (match content Sample.throttledAt1000 with
                       | Some ch => ch | None => [] end))
    by (vm_compute; reflexivity).
  assert (Hf : formatArgs (host Sample.throttledAt1000) (str "a")
               = Ok (rendered Sample.plainHost (str "a")))
    by (vm_compute; reflexivity).
  assert (Hdue : (250 <= 1250 - lastLogTimeRef Sample.throttledAt1000)%Z)
    by (vm_compute; discriminate).
  split; [exact Hm|].
  destruct (throttle_gate logColor (str "a") 1250 Sample.throttledAt1000 250
              _ _ Hel Hc Hm Hf) as [_ H].
  destruct (H Hdue) as (st1 & Hrun & _ & _ & Hadm & _).
  rewrite Hrun. exact Hadm.
Defined.

(** C3, as stated, fails: on a sink throttled to 250 ms whose last
    admission was at 1000, two entries 10 ms apart (at 1010 and 1020)
    yield no admission at all, and two entries 250 ms apart (at 1010 and
    1260) yield one admission instead of two. *)
Lemma throttle_pairs_counterexample :
  modeIn Sample.throttledAt1000 = Throttled 250
  /\ lastLogTimeRef Sample.throttledAt1000 = 1000%Z
  /\ entryCount
       (stateOf (genericLogger logColor (str "b") 1020
          (stateOf (genericLogger logColor (str "a") 1010
                                  Sample.throttledAt1000))))
     = entryCount Sample.throttledAt1000
  /\ entryCount
       (stateOf (genericLogger logColor (str "b") 1260
          (stateOf (genericLogger logColor (str "a") 1010
                                  Sample.throttledAt1000))))
     = S (entryCount Sample.throttledAt1000).
Proof. by_evaluation. Qed.

(** ** Serialization failures *)

(** The serializer throws on the object that contains itself. *)
Lemma stringify_cyclic :
  Json.stringify Sample.cyclicHeap (VRef 0) = Throw
  /\ Json.stringifyCompact Sample.cyclicHeap (VRef 0) = Throw.
Proof. by_evaluation. Qed.

(** The earlier revision of [genericLogger] and the Leva variant recover
    from any failure of the serializer: both are total, and on a throw
    they produce the placeholder. *)
Lemma placeholder_paths (h : Value.heap) (l : loc) :
  Json.stringify h (VRef l) = Throw ->
  Json.stringifyCompact h (VRef l) = Throw ->
  renderArgOld h (VRef l) = Details "Object data" "[Circular]"
  /\ Leva.argText h (VRef l) = "[Circular]".
Proof.
  intros H1 H2. unfold renderArgOld, Leva.argText.
  rewrite H1, H2. split; reflexivity.
Qed.

(** Whenever the serialization of a structured argument throws, the
    admission path of an attached sink in Normal mode throws, and so does
    the console function decorated by the attach. *)
Lemma unserializable_argument_throws (st : state) (ch : list logLine)
      (l : loc) (m : method) (saved : fn) (now : Z) :
  m <> CLEAR ->
  logElementRef st = true ->
  modeIn st = Normal ->
  content st = Some ch ->
  Json.stringify (heap (host st)) (VRef l) = Throw ->
  genericLogger (colorOf m) [VRef l] now st = Thrown st
  /\ callFn (Decorated m saved) [VRef l] now st = Thrown st.
Proof.
  intros Hm Hel Hmode Hc Hthrow.
  destruct (modeIn_normal st Hmode) as [Hp Ht].
  assert (Hf : formatArgs (host st) [VRef l] = Throw).
  { unfold formatArgs. cbn [List.length formatFrom].
    destruct (ClassifierFacts.formatLogText_structured (host st) l 0 1) as [_ H].
    rewrite (H Hthrow). reflexivity. }
  assert (Hg : genericLogger (colorOf m) [VRef l] now st = Thrown st).
  { unfold genericLogger. rewrite Hel, Hp, Hc, Ht, Hf. reflexivity. }
  split; [exact Hg|].
  destruct m; try contradiction; cbn [callFn]; rewrite Hg; reflexivity.
Qed.

(** C6, on the revision that renders through [formatLogText]: the
    serialization of a structured argument is evaluated outside the
    [try], so for the object that contains itself [formatLogText] throws,
    and the exception crosses [console.log] and [window.screenLog.log] of
    an attached sink; nothing is appended to the panel.  The earlier
    revision and the Leva variant give the placeholder "[Circular]". *)
Theorem cyclic_argument_escapes :
  formatLogText Sample.cyclicHost (VRef 0) 0 1 = Throw
  /\ throws (consoleCall LOG [VRef 0] 5 Sample.cyclicAttached) = true
  /\ throws (match screenLog Sample.cyclicAttached with
             | Some sl => callFn (sl_log sl) [VRef 0] 5 Sample.cyclicAttached
             | None => Done Sample.cyclicAttached
             end) = true
  /\ shown (stateOf (consoleCall LOG [VRef 0] 5 Sample.cyclicAttached))
     = shown Sample.cyclicAttached
  /\ renderArgOld Sample.cyclicHeap (VRef 0) = Details "Object data" "[Circular]"
  /\ Leva.argText Sample.cyclicHeap (VRef 0) = "[Circular]".
Proof. by_evaluation. Qed.

(** ** Teardown *)

(** [destroy] puts back the console that the attach saved. *)
Lemma destroy_console (sl : screenLogObj) (st : state) :
  console (destroy sl st) = sl_console sl.
Proof.
  unfold destroy, cancelThrottleTimeout. cbn.
  destruct (throttleTimeoutRef st); reflexivity.
Qed.

(** [destroy] cancels the timer held by [throttleTimeoutRef] and no
    other: a timer with another handle stays pending. *)
Lemma destroy_timers (sl : screenLogObj) (st : state) :
  timers (destroy sl st)
  = match throttleTimeoutRef st with
    | Some id => filter (fun t => negb (timerId t =? id)) (timers st)
    | None => timers st
    end.
Proof.
  unfold destroy, cancelThrottleTimeout. cbn.
  destruct (throttleTimeoutRef st); reflexivity.
Qed.

(** [destroyLogger] of the Leva variant restores the saved methods and
    stops the test signals as well. *)
Lemma destroyLogger_stops_signals (st : Leva.state) (id : nat) :
  Leva.testSignalIntervalRef st = Some id ->
  Leva.testSignalIntervalRef (Leva.destroyLogger st) = None
  /\ forall t, In t (Leva.timers (Leva.destroyLogger st)) -> t <> id.
Proof.
  intros Hid. unfold Leva.destroyLogger, Leva.stopContinuousTestSignals.
  destruct (Leva.consoleMethodsRef st); cbn; rewrite Hid; cbn.
  - unfold Leva.cancelThrottleTimeout. cbn.
    destruct (Leva.throttleTimeoutRef st); cbn.
    + split; [reflexivity|]. intros t Ht.
      apply filter_In in Ht. destruct Ht as [Ht _].
      apply filter_In in Ht. destruct Ht as [_ Ht].
      intros ->. rewrite Nat.eqb_refl in Ht. discriminate.
    + split; [reflexivity|]. intros t Ht.
      apply filter_In in Ht. destruct Ht as [_ Ht].
      intros ->. rewrite Nat.eqb_refl in Ht. discriminate.
  - unfold Leva.cancelThrottleTimeout. cbn.
    destruct (Leva.throttleTimeoutRef st); cbn.
    + split; [reflexivity|]. intros t Ht.
      apply filter_In in Ht. destruct Ht as [Ht _].
      apply filter_In in Ht. destruct Ht as [_ Ht].
      intros ->. rewrite Nat.eqb_refl in Ht. discriminate.
    + split; [reflexivity|]. intros t Ht.
      apply filter_In in Ht. destruct Ht as [_ Ht].
      intros ->. rewrite Nat.eqb_refl in Ht. discriminate.
Qed.

(** C9, on the revision that renders through [formatLogText].  After
    attach and destroy the console bindings are the ones saved at attach
    time, but timers stay pending: with the default props the interval
    of the test signals survives [destroy], and when it fires its text
    still reaches the console and the early buffer; a status message
    armed by a toggle just before [destroy] survives it too, and when it
    fires with test signals enabled it arms their interval anew.  (Only
    [throttleTimeoutRef] is cleared, and nothing ever stores a handle in
    it.)  [destroyLogger] of the Leva variant leaves no timer pending. *)
Theorem destroy_leaves_timers_pending :
  console Sample.testingDestroyed = earlyConsole
  /\ content Sample.testingDestroyed = None
  /\ filter repeating (timers Sample.testingDestroyed)
     = [{| timerId := 2; after := 10; repeating := true; task := TestSignal |}]
  /\ testSignalIntervalRef Sample.testingDestroyed = Some 2
  /\ nativeOut (stateOf (fire 2 10 Sample.testingDestroyed))
     = nativeOut Sample.testingDestroyed
         ++ [(LOG, str "Test log #1 (sending 100 logs per second)")]
  /\ filter (fun t => negb (Z.eqb (after t) 0)) (timers Sample.toggledDestroyed)
     = [statusTimer 2 msgEnabled250]
  /\ filter repeating (timers Sample.testingToggledDestroyed) = []
  /\ filter repeating
       (timers (stateOf (fire 3 55 Sample.testingToggledDestroyed)))
     = [{| timerId := 4; after := 250; repeating := true; task := TestSignal |}]
  /\ Leva.timers Sample.levaRunning = [1]
  /\ Leva.timers (Leva.destroyLogger Sample.levaRunning) = [].
Proof. by_evaluation. Qed.

End SinkFacts.

(* ===================================================================== *)
(** * Part X: attach followed by destroy                                  *)
(* ===================================================================== *)

Module TeardownFacts.
Import Value Classifier Sink Spec.

Lemma andThen_bindings (o : outcome) (k : state -> outcome) (b : consoleObj * option screenLogObj) :
  bindings (stateOf o) = b ->
  (forall st, bindings st = b -> bindings (stateOf (k st)) = b) ->
  bindings (stateOf (andThen o k)) = b.
Proof.
  intros Ho Hk. destruct o as [st|st]; cbn [andThen stateOf] in *.
  - apply Hk, Ho.
  - exact Ho.
Qed.

Lemma genericLogger_bindings (color : string) (a : list value) (now : Z) (st : state) :
  bindings (stateOf (genericLogger color a now st)) = bindings st.
Proof.
  unfold genericLogger.
  destruct (negb (logElementRef st) || paused (throttleConfigRef st)); [reflexivity|].
  destruct (content st); [|reflexivity].
  destruct (throttled (throttleConfigRef st)).
  - destruct (_ <=? _)%Z; [|reflexivity].
    destruct (formatArgs (host st) a); reflexivity.
  - destruct (formatArgs (host st) a); reflexivity.
Qed.

Lemma clear_bindings (st : state) : bindings (clear st) = bindings st.
Proof.
  unfold clear, cancelThrottleTimeout.
  destruct (logElementRef st), (content st); cbn;
    destruct (throttleTimeoutRef st); reflexivity.
Qed.

(** No call changes what the console names and [window.screenLog] are
    bound to. *)
Lemma callFn_bindings (f : fn) :
  forall (a : list value) (now : Z) (st : state),
    bindings (stateOf (callFn f a now st)) = bindings st.
Proof.
  induction f as [m|m f IH|m f IH]; intros a now st; cbn [callFn].
  - reflexivity.
  - rewrite IH. reflexivity.
  - apply andThen_bindings.
    + destruct m; try apply genericLogger_bindings.
      cbn [stateOf]. apply clear_bindings.
    + intros st' Hst'. rewrite IH. exact Hst'.
Qed.

Lemma replayEach_bindings (sl : screenLogObj) (now : Z) (logs : list earlyLog) :
  forall st, bindings (stateOf (replayEach sl logs now st)) = bindings st.
Proof.
  induction logs as [|l logs IH]; intros st; cbn [replayEach]; [reflexivity|].
  apply andThen_bindings; [apply callFn_bindings|].
  intros st' Hst'. rewrite IH. exact Hst'.
Qed.

Lemma replayLogsToScreenLogger_bindings (maxEntries : nat) (now : Z) (st : state) :
  bindings (stateOf (replayLogsToScreenLogger maxEntries now st)) = bindings st.
Proof.
  unfold replayLogsToScreenLogger.
  destruct (screenLog st) as [sl|]; [|reflexivity].
  destruct (earlyLogs st); [reflexivity|].
  apply andThen_bindings; [apply callFn_bindings|].
  intros st1 H1.
  apply andThen_bindings; [rewrite replayEach_bindings; exact H1|].
  intros st2 H2. rewrite callFn_bindings. exact H2.
Qed.

Lemma startContinuousTestSignals_bindings (st : state) :
  bindings (startContinuousTestSignals st) = bindings st.
Proof.
  unfold startContinuousTestSignals, stopContinuousTestSignals.
  destruct (testSignalIntervalRef st); reflexivity.
Qed.

(** An attach that is not refused installs the decorators over the
    console it found, whether it returns or an exception escapes it. *)
Lemma initScreenLog_bindings (now : Z) (st : state) :
  isInitializedRef st && logElementRef st = false ->
  bindings (stateOf (initScreenLog now st))
  = (decorate (console st), Some (handle (console st))).
Proof.
  intros Hfree. unfold initScreenLog. rewrite Hfree.
  apply andThen_bindings; [rewrite genericLogger_bindings; reflexivity|].
  intros st2 H2.
  apply andThen_bindings;
    [rewrite replayLogsToScreenLogger_bindings; exact H2|].
  intros st3 H3. cbn [stateOf].
  destruct (enableTesting st3 && initiallyVisible st3);
    [rewrite startContinuousTestSignals_bindings|]; exact H3.
Qed.

(** The first half of C9 holds in general: after an attach and the
    destroy of its handle, the five console names are bound to the
    functions found at attach time, and the panel is out of the
    document, so a call no longer reaches the admission path. *)
Lemma attach_destroy_restores_console (now : Z) (st : state) :
  isInitializedRef st && logElementRef st = false ->
  exists st',
    screenLogDestroy (stateOf (initScreenLog now st)) = Done st'
    /\ console st' = console st
    /\ content st' = None
    /\ logElementRef st' = false.
Proof.
  intros Hfree.
  pose proof (initScreenLog_bindings now st Hfree) as Hb.
  unfold bindings in Hb. injection Hb as Hc Hs.
  unfold screenLogDestroy. rewrite Hs.
  eexists. split; [reflexivity|].
  rewrite SinkFacts.destroy_console.
  unfold destroy, cancelThrottleTimeout. cbn.
  destruct (throttleTimeoutRef _); conjuncts; reflexivity.
Qed.

End TeardownFacts.

(* ===================================================================== *)
(** * Part XI: the replay of the early buffer                             *)
(* ===================================================================== *)

Module ReplayFacts.
Import Value Classifier Sink Spec.

(** Rendering is never unfolded by simplification in this part. *)
Local Arguments formatArgs : simpl never.
Local Arguments rendered : simpl never.
Local Arguments mkLine : simpl never.

(** ** Rendering *)

Lemma formatArgs_rendered (e : env) (a : list value) :
  renders e a -> formatArgs e a = Ok (rendered e a).
Proof.
  intros [ns H]. unfold rendered. rewrite H. reflexivity.
Qed.

Lemma renders_str (e : env) (s : string) : renders e (str s).
Proof.
  unfold renders, formatArgs, str. cbn [List.length formatFrom].
  destruct (ClassifierFacts.formatLogText_prim e (PStr s) 0 1) as [ns ->].
  eexists. reflexivity.
Qed.

(** ** One call through the wrappers *)

Lemma callFn_capture (m : method) (a : list value) (now : Z) (st : state) :
  callFn (EarlyCapture m (Native m)) a now st = Done (capture m a now st).
Proof. reflexivity. Qed.

Lemma callFn_shows (m : method) (a : list value) (now : Z) (st : state)
      (ch : list logLine) (ns : list node) :
  m <> CLEAR ->
  logElementRef st = true ->
  modeIn st = Normal ->
  content st = Some ch ->
  formatArgs (host st) a = Ok ns ->
  callFn (Decorated m (EarlyCapture m (Native m))) a now st
  = Done (relog m a now ns ch st).
Proof.
  intros Hm Hel Hmode Hc Hf.
  destruct (SinkFacts.modeIn_normal st Hmode) as [Hp Ht].
  assert (Hg : genericLogger (colorOf m) a now st
               = Done (appendLine (colorOf m) ch now ns st)).
  { unfold genericLogger. rewrite Hel, Hp, Hc, Ht, Hf. reflexivity. }
  destruct m; try contradiction; cbn [callFn]; rewrite Hg; reflexivity.
Qed.

Lemma relog_attached (e : env) (m : method) (a : list value) (now : Z)
      (ns : list node) (ch : list logLine) (st : state) :
  Attached e ch st ->
  Attached e (ch ++ [mkLine (colorOf m) ch now ns]) (relog m a now ns ch st).
Proof.
  intros (Hh & Hs & Hi & Hl & Hm & Hc).
  unfold Attached, modeIn in *. cbn. repeat split; assumption.
Qed.

Lemma relog_frame (m : method) (a : list value) (now : Z)
      (ns : list node) (ch : list logLine) (st : state) :
  earlyLogs (relog m a now ns ch st)
  = earlyLogs st ++ [{| type := m; args := a; timestamp := now |}]
  /\ nativeOut (relog m a now ns ch st) = nativeOut st ++ [(m, a)]
  /\ console (relog m a now ns ch st) = console st
  /\ enableTesting (relog m a now ns ch st) = enableTesting st
  /\ initiallyVisible (relog m a now ns ch st) = initiallyVisible st.
Proof. repeat split; reflexivity. Qed.

Lemma replayOne_handle (l : earlyLog) :
  type l <> CLEAR ->
  replayOne (handle earlyConsole) l
  = Decorated (type l) (EarlyCapture (type l) (Native (type l))).
Proof.
  unfold replayOne. destruct (type l); try contradiction; reflexivity.
Qed.

(** ** The loop over the entries to replay *)

Lemma replayEach_attached (e : env) (now : Z) (logs : list earlyLog) :
  Forall (keeps e) logs ->
  forall (st : state) (ch : list logLine),
    Attached e ch st ->
    exists st',
      replayEach (handle earlyConsole) logs now st = Done st'
      /\ Attached e (addLines e now ch logs) st'
      /\ earlyLogs st' = earlyLogs st ++ map (restamp now) logs
      /\ nativeOut st' = nativeOut st ++ map (fun l => (type l, args l)) logs
      /\ console st' = console st
      /\ enableTesting st' = enableTesting st
      /\ initiallyVisible st' = initiallyVisible st.
Proof.
  induction 1 as [|l logs [Hty Hr] _ IH]; intros st ch Hatt.
  - exists st. cbn [replayEach addLines map]. rewrite !app_nil_r.
    conjuncts; try reflexivity. exact Hatt.
  - pose proof Hatt as (Hh & Hs & Hi & Hl & Hm & Hc).
    cbn [replayEach].
    rewrite (replayOne_handle l Hty).
    rewrite (callFn_shows (type l) (args l) now st ch (rendered e (args l))
               Hty Hl Hm Hc).
    2:{ rewrite Hh. apply formatArgs_rendered, Hr. }
    cbn [andThen].
    destruct (IH _ _ (relog_attached e (type l) (args l) now
                        (rendered e (args l)) ch st Hatt))
      as (st' & Hrun & Hatt' & He & Hn & Hcons & Hen & Hiv).
    exists st'.
    destruct (relog_frame (type l) (args l) now (rendered e (args l)) ch st)
      as (Fe & Fn & Fc & Fen & Fiv).
    rewrite Fe in He. rewrite Fn in Hn.
    rewrite Fc in Hcons. rewrite Fen in Hen. rewrite Fiv in Hiv.
    conjuncts; try assumption.
    + rewrite He. rewrite <- app_assoc. reflexivity.
    + rewrite Hn. rewrite <- app_assoc. reflexivity.
Qed.

(** The panel reads as the old lines followed by the replayed ones. *)
Lemma addLines_view (e : env) (now : Z) (logs : list earlyLog) :
  forall ch, map view (addLines e now ch logs) = map view ch ++ map (viewOf e) logs.
Proof.
  induction logs as [|l logs IH]; intros ch; cbn [addLines map].
  - rewrite app_nil_r. reflexivity.
  - rewrite IH, map_app. cbn [map]. rewrite <- app_assoc. reflexivity.
Qed.

(** ** [replayLogsToScreenLogger] *)

Lemma sliceLast_all (A : Type) (n : nat) (l : list A) :
  List.length l <= n -> sliceLast n l = l.
Proof.
  intros Hle. destruct n as [|n]; [reflexivity|].
  unfold sliceLast.
  replace (List.length l - S n) with 0 by lia.
  reflexivity.
Qed.

Lemma filter_all (A : Type) (p : A -> bool) (l : list A) :
  Forall (fun x => p x = true) l -> filter p l = l.
Proof.
  induction 1 as [|x l Hx _ IH]; cbn; [reflexivity|].
  rewrite Hx, IH. reflexivity.
Qed.

Lemma separators_are_separators (now : Z) :
  isSeparator (startEntry now) = true /\ isSeparator (endEntry now) = true.
Proof. split; vm_compute; reflexivity. Qed.

(** The buffer [E] of fewer than [maxEntries] entries, none of them a
    separator, is replayed whole between the two separators. *)
Lemma replayLogsToScreenLogger_attached (e : env) (now : Z) (maxEntries : nat)
      (st : state) (ch : list logLine) :
  Attached e ch st ->
  earlyLogs st <> [] ->
  List.length (earlyLogs st) < maxEntries ->
  Forall (keeps e) (earlyLogs st) ->
  Forall (fun l => isSeparator l = false) (earlyLogs st) ->
  exists st',
    replayLogsToScreenLogger maxEntries now st = Done st'
    /\ Attached e (addLines e now ch
                     (startEntry now :: earlyLogs st ++ [endEntry now])) st'
    /\ nativeOut st'
       = nativeOut st
           ++ map (fun l => (type l, args l))
                  (startEntry now :: earlyLogs st ++ [endEntry now])
    /\ earlyLogs st'
       = earlyLogs st
           ++ map (restamp now)
                  (startEntry now :: earlyLogs st ++ [endEntry now])
    /\ console st' = console st
    /\ enableTesting st' = enableTesting st
    /\ initiallyVisible st' = initiallyVisible st.
Proof.
  intros Hatt Hne Hlen Hkeep Hnosep.
  pose proof Hatt as (Hh & Hs & Hi & Hl & Hm & Hc).
  unfold replayLogsToScreenLogger. rewrite Hs.
  destruct (earlyLogs st) as [|l0 E0] eqn:HE; [contradiction|].
  rewrite <- HE in *. clear l0 E0 HE Hne.
  (* the start separator *)
  change (sl_log (handle earlyConsole))
    with (Decorated LOG (EarlyCapture LOG (Native LOG))).
  change [VPrim (PStr startSeparator)] with (str startSeparator).
  change [VPrim (PStr endSeparator)] with (str endSeparator).
  rewrite (callFn_shows LOG (str startSeparator) now st ch
             (rendered e (str startSeparator))); try assumption;
    [|discriminate|rewrite Hh; apply formatArgs_rendered, renders_str].
  cbn [andThen].
  set (st1 := relog LOG (str startSeparator) now
                    (rendered e (str startSeparator)) ch st).
  assert (Hatt1 : Attached e (addLines e now ch [startEntry now]) st1)
    by (apply relog_attached; exact Hatt).
  destruct (relog_frame LOG (str startSeparator) now
              (rendered e (str startSeparator)) ch st)
    as (Fe & Fn & Fc & Fen & Fiv).
  fold st1 in Fe, Fn, Fc, Fen, Fiv.
  (* the entries to replay *)
  assert (Hsel : filter (fun l => negb (isSeparator l))
                        (sliceLast maxEntries (earlyLogs st1))
                 = earlyLogs st).
  { rewrite Fe, sliceLast_all by (rewrite length_app; cbn [List.length]; lia).
    rewrite filter_app. cbn [filter].
    change {| type := LOG; args := str startSeparator; timestamp := now |}
      with (startEntry now).
    destruct (separators_are_separators now) as [-> _]. cbn [negb].
    rewrite app_nil_r. apply filter_all.
    eapply Forall_impl; [|exact Hnosep]. cbn. intros l ->. reflexivity. }
  rewrite Hsel.
  destruct (replayEach_attached e now (earlyLogs st) Hkeep st1 _ Hatt1)
    as (st2 & Hrun & Hatt2 & He2 & Hn2 & Hc2 & Hen2 & Hiv2).
  rewrite Hrun. cbn [andThen].
  (* the end separator *)
  pose proof Hatt2 as (Hh2 & _ & _ & Hl2 & Hm2 & Hcont2).
  rewrite (callFn_shows LOG (str endSeparator) now st2
             (addLines e now (addLines e now ch [startEntry now]) (earlyLogs st))
             (rendered e (str endSeparator))); try assumption;
    [|discriminate|rewrite Hh2; apply formatArgs_rendered, renders_str].
  eexists. split; [reflexivity|].
  destruct (relog_frame LOG (str endSeparator) now
              (rendered e (str endSeparator))
              (addLines e now (addLines e now ch [startEntry now]) (earlyLogs st))
              st2) as (Ge & Gn & Gc & Gen & Giv).
  assert (Hlines : forall ch0 logs l,
             addLines e now ch0 (logs ++ [l])
             = addLines e now ch0 logs
                 ++ [mkLine (colorOf (type l)) (addLines e now ch0 logs) now
                            (rendered e (args l))]).
  { intros ch0 logs. revert ch0.
    induction logs as [|x logs IH]; intros ch0 l; cbn [addLines app];
      [reflexivity|apply IH]. }
  conjuncts.
  - change (addLines e now ch (startEntry now :: earlyLogs st ++ [endEntry now]))
      with (addLines e now (addLines e now ch [startEntry now])
                     (earlyLogs st ++ [endEntry now])).
    rewrite Hlines.
    apply (relog_attached e LOG (str endSeparator) now
             (rendered e (str endSeparator)) _ st2 Hatt2).
  - rewrite Gn, Hn2, Fn. cbn [map app]. rewrite map_app. cbn [map].
    rewrite <- !app_assoc. reflexivity.
  - rewrite Ge, He2, Fe. cbn [map app]. rewrite map_app. cbn [map].
    rewrite <- !app_assoc. reflexivity.
  - rewrite Gc, Hc2, Fc. reflexivity.
  - rewrite Gen, Hen2, Fen. reflexivity.
  - rewrite Giv, Hiv2, Fiv. reflexivity.
Qed.

(** ** Capture before the attach *)

Lemma consoleCalls_fresh (calls : list (method * list value * Z)) :
  Forall (fun c => callMethod c <> CLEAR) calls ->
  forall st,
    console st = earlyConsole ->
    exists st',
      consoleCalls calls st = Done st'
      /\ earlyLogs st' = earlyLogs st ++ map entryOf calls
      /\ nativeOut st' = nativeOut st ++ map output calls
      /\ host st' = host st
      /\ console st' = console st
      /\ isInitializedRef st' = isInitializedRef st
      /\ throttleConfigRef st' = throttleConfigRef st.
Proof.
  induction 1 as [|[[m a] t] calls Hm _ IH]; intros st Hcons.
  - exists st. cbn [consoleCalls map]. rewrite !app_nil_r.
    conjuncts; reflexivity.
  - cbn [consoleCalls]. unfold consoleCall. rewrite Hcons.
    cbn in Hm.
    assert (Hcall : callFn (lookup earlyConsole m) a t st = Done (capture m a t st))
      by (destruct m; try contradiction; reflexivity).
    rewrite Hcall. cbn [andThen].
    destruct (IH (capture m a t st) Hcons)
      as (st' & Hrun & He & Hn & Hh & Hc & Hi & Hcfg).
    exists st'. conjuncts; try assumption.
    + rewrite He. cbn [map]. unfold capture at 1. cbn [earlyLogs set_nativeOut set_earlyLogs].
      rewrite <- app_assoc. reflexivity.
    + rewrite Hn. cbn [map]. unfold capture at 1. cbn [nativeOut set_nativeOut set_earlyLogs].
      rewrite <- app_assoc. reflexivity.
    + rewrite Hc. exact Hcons.
Qed.

(** ** The attach *)

Lemma genericLogger_normal (color : string) (a : list value) (now : Z)
      (st : state) (ch : list logLine) (ns : list node) :
  logElementRef st = true ->
  modeIn st = Normal ->
  content st = Some ch ->
  formatArgs (host st) a = Ok ns ->
  genericLogger color a now st = Done (appendLine color ch now ns st).
Proof.
  intros Hel Hmode Hc Hf.
  destruct (SinkFacts.modeIn_normal st Hmode) as [Hp Ht].
  unfold genericLogger. rewrite Hel, Hp, Hc, Ht, Hf. reflexivity.
Qed.

Lemma startContinuousTestSignals_frame (st : state) :
  content (startContinuousTestSignals st) = content st
  /\ nativeOut (startContinuousTestSignals st) = nativeOut st
  /\ isInitializedRef (startContinuousTestSignals st) = isInitializedRef st
  /\ logElementRef (startContinuousTestSignals st) = logElementRef st.
Proof.
  unfold startContinuousTestSignals, stopContinuousTestSignals.
  destruct (testSignalIntervalRef st); conjuncts; reflexivity.
Qed.

(** An attach that is already initialised returns at once. *)
Lemma initScreenLog_again (now : Z) (st : state) :
  isInitializedRef st = true -> logElementRef st = true ->
  initScreenLog now st = Done st.
Proof.
  intros Hi Hl. unfold initScreenLog. rewrite Hi, Hl. reflexivity.
Qed.

(** C1, as the code has it.  In every run in which early entries were
    captured before the attach - fewer than the cap of 200, none of them
    a separator text, all of them rendering - the attach logs its first
    line and then replays exactly the start separator, the captured
    entries in capture order under their own kinds, and the end
    separator, on the panel and to the console alike; and a further
    attach while the sink is attached returns at once and replays
    nothing. *)
Theorem early_replay_in_order (e : env) (testing visible : bool)
        (calls : list (method * list value * Z)) (now later : Z) :
  calls <> [] ->
  List.length calls < 200 ->
  Forall (replayable e) calls ->
  exists st1 st2,
    consoleCalls calls (mounted e testing visible) = Done st1
    /\ earlyLogs st1 = map entryOf calls
    /\ initScreenLog now st1 = Done st2
    /\ nativeOut st2
       = nativeOut st1
           ++ (LOG, str startSeparator) :: map output calls
           ++ [(LOG, str endSeparator)]
    /\ shown st2
       = viewOf e (initEntry now) :: viewOf e (startEntry now)
           :: map (viewOf e) (map entryOf calls)
           ++ [viewOf e (endEntry now)]
    /\ initScreenLog later st2 = Done st2.
Proof.
  intros Hne Hlen Hall.
  destruct (consoleCalls_fresh calls) with (st := mounted e testing visible)
    as (st1 & Hrun & He & Hn & Hh & Hc & Hi & Hcfg); [|reflexivity|].
  { eapply Forall_impl; [|exact Hall]. intros c (H & _). exact H. }
  cbn [mounted earlyLogs nativeOut app host console isInitializedRef
       throttleConfigRef] in He, Hn, Hh, Hc, Hi, Hcfg.
  exists st1.
  (* the panel is created and the first line logged *)
  set (st1' := set_isInitializedRef true
                 (set_screenLog (Some (handle (console st1)))
                    (set_console (decorate (console st1))
                       (set_logElementRef true (set_content (Some []) st1))))).
  assert (Hinit : genericLogger logColor (str "Screen logger initialized.") now st1'
                  = Done (appendLine logColor [] now
                            (rendered e (str "Screen logger initialized.")) st1')).
  { apply genericLogger_normal.
    - reflexivity.
    - unfold modeIn, st1'. cbn. rewrite Hcfg. reflexivity.
    - reflexivity.
    - unfold st1'. cbn. rewrite Hh. apply formatArgs_rendered, renders_str. }
  set (st2 := appendLine logColor [] now
                (rendered e (str "Screen logger initialized.")) st1') in Hinit.
  assert (Hatt : Attached e (addLines e now [] [initEntry now]) st2).
  { unfold Attached, modeIn, st2, st1'. cbn.
    rewrite Hh, Hc, Hcfg. conjuncts; reflexivity. }
  assert (HE : earlyLogs st2 = map entryOf calls) by (exact He).
  destruct (replayLogsToScreenLogger_attached e now 200 st2 _ Hatt)
    as (st3 & Hrep & Hatt3 & Hn3 & He3 & _).
  { rewrite HE. destruct calls; [contradiction|discriminate]. }
  { rewrite HE, length_map. exact Hlen. }
  { rewrite HE. apply Forall_map.
    eapply Forall_impl; [|exact Hall].
    intros c (H1 & _ & H3). split; assumption. }
  { rewrite HE. apply Forall_map.
    eapply Forall_impl; [|exact Hall].
    intros c (_ & H2 & _). exact H2. }
  rewrite HE in Hn3, Hatt3.
  set (final := if enableTesting st3 && initiallyVisible st3
                then startContinuousTestSignals st3 else st3).
  assert (Hrun2 : initScreenLog now st1 = Done final).
  { unfold initScreenLog. rewrite Hi. cbn [andb].
    fold st1'.
    change [VPrim (PStr "Screen logger initialized.")]
      with (str "Screen logger initialized.").
    rewrite Hinit. cbn [andThen]. rewrite Hrep. reflexivity. }
  pose proof Hatt3 as (_ & _ & Hi3 & Hl3 & _ & Hc3).
  assert (Hfinal : content final = content st3
                   /\ nativeOut final = nativeOut st3
                   /\ isInitializedRef final = isInitializedRef st3
                   /\ logElementRef final = logElementRef st3).
  { unfold final.
    destruct (enableTesting st3 && initiallyVisible st3);
      [apply startContinuousTestSignals_frame|conjuncts; reflexivity]. }
  destruct Hfinal as (Fc & Fn & Fi & Fl).
  exists final. conjuncts.
  - exact Hrun.
  - exact He.
  - exact Hrun2.
  - rewrite Fn, Hn3. cbn [map].
    rewrite map_app, map_map. cbn [map].
    change (nativeOut st2) with (nativeOut st1).
    reflexivity.
  - unfold shown. rewrite Fc, Hc3.
    rewrite !addLines_view. cbn [map app].
    rewrite map_app. reflexivity.
  - apply initScreenLog_again; [rewrite Fi|rewrite Fl]; assumption.
Qed.

(** Three early entries, then the attach. *)
Lemma early_replay_in_order_witness :
  exists st1 st2,
    consoleCalls Sample.threeCalls (mounted Sample.plainHost false true) = Done st1
    /\ earlyLogs st1 = map entryOf Sample.threeCalls
    /\ initScreenLog 10 st1 = Done st2
    /\ nativeOut st2
       = nativeOut st1
           ++ (LOG, str startSeparator) :: map output Sample.threeCalls
           ++ [(LOG, str endSeparator)]
    /\ shown st2
       = viewOf Sample.plainHost (initEntry 10)
           :: viewOf Sample.plainHost (startEntry 10)
           :: map (viewOf Sample.plainHost) (map entryOf Sample.threeCalls)
           ++ [viewOf Sample.plainHost (endEntry 10)]
    /\ initScreenLog 20 st2 = Done st2.
Proof.
  apply (early_replay_in_order Sample.plainHost false true Sample.threeCalls 10 20).
  - discriminate.
  - unfold Sample.threeCalls. cbn [List.length]. lia.
  - unfold Sample.threeCalls.
    repeat constructor; try discriminate;
      try (vm_compute; reflexivity);
      try (eexists; vm_compute; reflexivity).
Defined.

(** C1, as stated, fails: there is no drained flag.  After three early
    entries, an attach and a destroy, the next attach - with no console
    call in between - replays again, and replays each entry twice, since
    the first replay went through the early wrapper and was buffered in
    its turn; calling the exported replay once more on the attached sink
    does the same. *)
Lemma second_attach_replays_again :
  earlyLogs Sample.detached = earlyLogs Sample.attached
  /\ nativeOut Sample.detached = nativeOut Sample.attached
  /\ nativeOut Sample.reattached
     = nativeOut Sample.detached
         ++ [(LOG, str startSeparator);
             (LOG, str "one"); (WARN, str "two"); (ERROR, str "three");
             (LOG, str "one"); (WARN, str "two"); (ERROR, str "three");
             (LOG, str endSeparator)]
  /\ shown Sample.reattached
     = map (viewOf Sample.plainHost)
         [initEntry 20; startEntry 20;
          entryOf (LOG, str "one", 1%Z); entryOf (WARN, str "two", 2%Z);
          entryOf (ERROR, str "three", 3%Z);
          entryOf (LOG, str "one", 1%Z); entryOf (WARN, str "two", 2%Z);
          entryOf (ERROR, str "three", 3%Z);
          endEntry 20]
  /\ nativeOut Sample.replayedAgain
     = nativeOut Sample.attached
         ++ [(LOG, str startSeparator);
             (LOG, str "one"); (WARN, str "two"); (ERROR, str "three");
             (LOG, str "one"); (WARN, str "two"); (ERROR, str "three");
             (LOG, str endSeparator)].
Proof. by_evaluation. Qed.

(** An early entry whose first argument contains "EARLY LOGS" is taken
    for a separator and is not replayed. *)
Lemma replay_filters_marked_text :
  nativeOut Sample.markedAttached
  = map output Sample.markedCalls
      ++ [(LOG, str startSeparator); (LOG, str "one"); (LOG, str endSeparator)].
Proof. by_evaluation. Qed.

(** With as many early entries as the cap, the start separator takes
    one of the 200 places: 199 entries are replayed, the oldest is not. *)
Lemma replay_at_the_cap :
  List.length (earlyLogs (stateOf (consoleCalls Sample.capCalls
                                     (mounted Sample.plainHost false true)))) = 200
  /\ List.length (nativeOut Sample.capAttached) = 200 + (1 + 199 + 1)
  /\ nth 201 (nativeOut Sample.capAttached) (CLEAR, []) = (LOG, [VPrim (PNum 2)]).
Proof. by_evaluation. Qed.

End ReplayFacts.

(* ===================================================================== *)
(** * Part XII: the status message of a toggle, when its timer fires      *)
(* ===================================================================== *)

Module StatusFacts.
Import Value Classifier Sink Spec.

(** Arguments that render pass the admission path without an exception,
    and the path itself prints nothing to the console. *)
Lemma genericLogger_quiet (color : string) (a : list value) (now : Z)
      (st : state) :
  renders (host st) a ->
  exists st',
    genericLogger color a now st = Done st'
    /\ nativeOut st' = nativeOut st
    /\ enableTesting st' = enableTesting st.
Proof.
  intros [ns Hf]. unfold genericLogger. rewrite Hf.
  destruct (negb (logElementRef st) || paused (throttleConfigRef st));
    [exists st; conjuncts; reflexivity|].
  destruct (content st) as [ch|]; [|exists st; conjuncts; reflexivity].
  destruct (throttled (throttleConfigRef st)).
  - destruct (_ <=? _)%Z; eexists; conjuncts; reflexivity.
  - eexists; conjuncts; reflexivity.
Qed.

(** On a sink attached over the early wrappers, in whatever mode, the
    status message reaches the console exactly once when its timer
    fires: the decorator forwards it even when the panel discards it. *)
Lemma status_message_printed_once (message : string) (now : Z) (st : state) :
  screenLog st = Some (handle earlyConsole) ->
  throws (runTask (ToggleStatus message) now st) = false
  /\ nativeOut (stateOf (runTask (ToggleStatus message) now st))
     = nativeOut st ++ [(LOG, str message)].
Proof.
  intros Hs. unfold runTask. rewrite Hs.
  change (sl_log (handle earlyConsole))
    with (Decorated LOG (EarlyCapture LOG (Native LOG))).
  change [VPrim (PStr message)] with (str message).
  change (callFn (Decorated LOG (EarlyCapture LOG (Native LOG)))
                 (str message) now st)
    with (andThen (genericLogger logColor (str message) now st)
                  (callFn (EarlyCapture LOG (Native LOG)) (str message) now)).
  destruct (genericLogger_quiet logColor (str message) now st
              (ReplayFacts.renders_str (host st) message))
    as (st' & -> & Hn & Hen).
  cbn [andThen]. rewrite ReplayFacts.callFn_capture. cbn [andThen throws stateOf].
  split; [reflexivity|].
  assert (Hcap : nativeOut (capture LOG (str message) now st')
                 = nativeOut st ++ [(LOG, str message)])
    by (cbn; rewrite Hn; reflexivity).
  destruct (enableTesting (capture LOG (str message) now st')); [|exact Hcap].
  destruct (ReplayFacts.startContinuousTestSignals_frame
              (capture LOG (str message) now st')) as (_ & -> & _).
  exact Hcap.
Qed.

(** ** Timers armed and spent *)

Lemma grows_refl (st : state) : grows st st.
Proof. split; [apply Nat.le_refl|]. intros t Ht. left. exact Ht. Qed.

Lemma grows_trans (a b c : state) : grows a b -> grows b c -> grows a c.
Proof.
  intros [Hab Tab] [Hbc Tbc]. split; [lia|].
  intros t Ht. destruct (Tbc t Ht) as [Hb | [H1 H2]].
  - destruct (Tab t Hb) as [Ha | [H1 H2]]; [left; exact Ha|right; lia].
  - right. lia.
Qed.

Lemma grows_same (a b : state) :
  timers b = timers a -> nextTimerId b = nextTimerId a -> grows a b.
Proof.
  intros Ht Hn. unfold grows. rewrite Ht, Hn.
  split; [apply Nat.le_refl|]. intros t H. left. exact H.
Qed.

Lemma grows_setTimer (ms : Z) (rep : bool) (task : timerTask) (st : state) :
  grows st (snd (setTimer ms rep task st)).
Proof.
  unfold grows, setTimer. cbn. split; [lia|].
  intros t Ht. apply in_app_or in Ht. destruct Ht as [Ht | [<- | []]].
  - left. exact Ht.
  - right. cbn. lia.
Qed.

Lemma grows_clearTimer (id : nat) (st : state) : grows st (clearTimer id st).
Proof.
  unfold grows, clearTimer. cbn. split; [lia|].
  intros t Ht. left. apply filter_In in Ht. apply Ht.
Qed.

Lemma grows_cancel (st : state) : grows st (cancelThrottleTimeout st).
Proof.
  unfold cancelThrottleTimeout.
  destruct (throttleTimeoutRef st) as [id|]; [|apply grows_refl].
  apply (grows_trans _ (clearTimer id st));
    [apply grows_clearTimer|apply grows_same; reflexivity].
Qed.

Lemma grows_stop (st : state) : grows st (stopContinuousTestSignals st).
Proof.
  unfold stopContinuousTestSignals.
  destruct (testSignalIntervalRef st) as [id|]; [|apply grows_refl].
  apply (grows_trans _ (clearTimer id st));
    [apply grows_clearTimer|apply grows_same; reflexivity].
Qed.

Lemma grows_start (st : state) : grows st (startContinuousTestSignals st).
Proof.
  unfold startContinuousTestSignals.
  apply (grows_trans _ (stopContinuousTestSignals st)); [apply grows_stop|].
  generalize (stopContinuousTestSignals st). intros s.
  pose proof (grows_setTimer
                (if throttled (throttleConfigRef s)
                 then delay (throttleConfigRef s) else 10%Z)
                true TestSignal s) as H.
  destruct (setTimer _ true TestSignal s) as [id s2].
  apply (grows_trans _ s2); [exact H|apply grows_same; reflexivity].
Qed.

Lemma grows_toggle (now : Z) (st : state) : grows st (toggleThrottling now st).
Proof.
  unfold toggleThrottling.
  apply (grows_trans _ (stopContinuousTestSignals (cancelThrottleTimeout st))).
  { apply (grows_trans _ (cancelThrottleTimeout st));
      [apply grows_cancel|apply grows_stop]. }
  generalize (stopContinuousTestSignals (cancelThrottleTimeout st)).
  intros s. destruct (toggleStep (throttleConfigRef s)) as [[cfg message] stamp].
  eapply grows_trans; [|apply grows_setTimer].
  apply grows_same; destruct stamp; reflexivity.
Qed.

Lemma fresh_grows (a b : state) : fresh a -> grows a b -> fresh b.
Proof.
  unfold fresh. intros Ha [Hn Ht]. apply Forall_forall. intros t Hin.
  destruct (Ht t Hin) as [H | [_ H]]; [|exact H].
  pose proof (proj1 (Forall_forall _ _) Ha t H). cbn in *. lia.
Qed.

(** ** The toggle and its timer *)

Lemma find_fresh (id : nat) (l : list timer) (t : timer) :
  Forall (fun x => timerId x < id) l ->
  timerId t = id ->
  find (fun x => timerId x =? id) (l ++ [t]) = Some t.
Proof.
  intros Hl Ht. induction Hl as [|x l Hx _ IH]; cbn.
  - rewrite Ht, Nat.eqb_refl. reflexivity.
  - replace (timerId x =? id) with false
      by (symmetry; apply Nat.eqb_neq; lia).
    exact IH.
Qed.

(** The timer a toggle arms is the one found under its handle. *)
Lemma toggle_arms (now : Z) (st : state) :
  fresh st ->
  find (fun t => timerId t =? nextTimerId st)
       (timers (toggleThrottling now st))
  = Some (statusTimer (nextTimerId st) (nextMessage (throttleConfigRef st))).
Proof.
  intros Hf. rewrite (ControllerFacts.toggleThrottling_emits now st).
  apply find_fresh; [|reflexivity].
  assert (H : fresh (stopContinuousTestSignals (cancelThrottleTimeout st))).
  { apply (fresh_grows st); [exact Hf|].
    apply (grows_trans _ (cancelThrottleTimeout st));
      [apply grows_cancel|apply grows_stop]. }
  unfold fresh in H. rewrite ControllerFacts.quiesced_nextTimerId in H.
  exact H.
Qed.

Lemma toggle_frame (now : Z) (st : state) :
  nativeOut (toggleThrottling now st) = nativeOut st
  /\ screenLog (toggleThrottling now st) = screenLog st.
Proof.
  destruct st. unfold toggleThrottling, stopContinuousTestSignals,
    cancelThrottleTimeout. by_cases.
Qed.

(** The admission path on a text: it returns, prints nothing, and arms
    at most the timer of the scroll. *)
Lemma genericLogger_text (color message : string) (now : Z) (st : state) :
  exists st',
    genericLogger color (str message) now st = Done st'
    /\ nativeOut st' = nativeOut st
    /\ screenLog st' = screenLog st
    /\ throttleConfigRef st' = throttleConfigRef st
    /\ grows st st'.
Proof.
  destruct (ReplayFacts.renders_str (host st) message) as [ns Hf].
  assert (Hline : forall ch, grows st (appendLine color ch now ns st)).
  { intros ch. unfold appendLine.
    eapply grows_trans; [|apply grows_setTimer].
    apply grows_same; reflexivity. }
  unfold genericLogger. rewrite Hf.
  destruct (negb (logElementRef st) || paused (throttleConfigRef st));
    [exists st; conjuncts; try reflexivity; apply grows_refl|].
  destruct (content st) as [ch|];
    [|exists st; conjuncts; try reflexivity; apply grows_refl].
  destruct (throttled (throttleConfigRef st)).
  - destruct (_ <=? _)%Z;
      [|exists st; conjuncts; try reflexivity; apply grows_refl].
    eexists. conjuncts; try reflexivity.
    eapply grows_trans; [apply (Hline ch)|apply grows_same; reflexivity].
  - eexists. conjuncts; try reflexivity. apply Hline.
Qed.

(** The status timer coming due on a sink attached over the early
    wrappers. *)
Lemma status_timer_fires (id : nat) (message : string) (now : Z) (st : state) :
  screenLog st = Some (handle earlyConsole) ->
  fresh st ->
  find (fun t => timerId t =? id) (timers st) = Some (statusTimer id message) ->
  says id message now st
  /\ screenLog (stateOf (fire id now st)) = screenLog st
  /\ throttleConfigRef (stateOf (fire id now st)) = throttleConfigRef st
  /\ fresh (stateOf (fire id now st)).
Proof.
  intros Hs Hf Hfind.
  assert (Hid : id < nextTimerId st).
  { apply find_some in Hfind. destruct Hfind as [Hin _].
    exact (proj1 (Forall_forall _ _) Hf _ Hin). }
  unfold says, fire. rewrite Hfind.
  cbn [repeating statusTimer task runTask].
  set (s0 := clearTimer id st).
  change (screenLog s0) with (screenLog st). rewrite Hs.
  change (sl_log (handle earlyConsole))
    with (Decorated LOG (EarlyCapture LOG (Native LOG))).
  change [VPrim (PStr message)] with (str message).
  change (callFn (Decorated LOG (EarlyCapture LOG (Native LOG)))
                 (str message) now s0)
    with (andThen (genericLogger logColor (str message) now s0)
                  (callFn (EarlyCapture LOG (Native LOG)) (str message) now)).
  destruct (genericLogger_text logColor message now s0)
    as (s1 & -> & Hn & Hsl & Hcfg & Hg).
  cbn [andThen]. rewrite ReplayFacts.callFn_capture. cbn [andThen].
  set (c := capture LOG (str message) now s1).
  set (r := if enableTesting c then startContinuousTestSignals c else c).
  assert (Hcr : grows c r /\ nativeOut r = nativeOut c
                /\ screenLog r = screenLog c
                /\ throttleConfigRef r = throttleConfigRef c).
  { unfold r. destruct (enableTesting c);
      [|conjuncts; try reflexivity; apply grows_refl].
    conjuncts; [apply grows_start| | |].
    - apply ReplayFacts.startContinuousTestSignals_frame.
    - unfold startContinuousTestSignals, stopContinuousTestSignals.
      destruct (testSignalIntervalRef c); reflexivity.
    - unfold startContinuousTestSignals, stopContinuousTestSignals.
      destruct (testSignalIntervalRef c); reflexivity. }
  destruct Hcr as (Hgr & Hnr & Hsr & Hcfgr).
  assert (Hg0 : grows s0 r).
  { apply (grows_trans _ s1); [exact Hg|].
    apply (grows_trans _ c); [apply grows_same; reflexivity|exact Hgr]. }
  cbn [throws stateOf]. conjuncts.
  - reflexivity.
  - rewrite Hnr. cbn. rewrite Hn. reflexivity.
  - intros t Ht. destruct Hg0 as [_ Hg0]. destruct (Hg0 t Ht) as [H | [H _]].
    + apply filter_In in H. destruct H as [_ H].
      apply negb_true_iff, Nat.eqb_neq in H. exact H.
    + change (nextTimerId s0) with (nextTimerId st) in H. lia.
  - rewrite Hsr. transitivity (screenLog s0); [exact Hsl|exact Hs].
  - rewrite Hcfgr. exact Hcfg.
  - apply (fresh_grows st); [exact Hf|].
    apply (grows_trans _ s0); [apply grows_clearTimer|exact Hg0].
Qed.

(** One toggle and the timer it arms coming due. *)
Lemma toggle_then_status (now due : Z) (st s r : state) :
  screenLog st = Some (handle earlyConsole) ->
  fresh st ->
  s = toggleThrottling now st ->
  r = stateOf (fire (nextTimerId st) due s) ->
  emits st s (nextMessage (throttleConfigRef st))
  /\ says (nextTimerId st) (nextMessage (throttleConfigRef st)) due s
  /\ throttleConfigRef s = nextConfig (throttleConfigRef st)
  /\ throttleConfigRef r = nextConfig (throttleConfigRef st)
  /\ nativeOut r
     = nativeOut st ++ [(LOG, str (nextMessage (throttleConfigRef st)))]
  /\ screenLog r = Some (handle earlyConsole)
  /\ fresh r.
Proof.
  intros Hs Hf -> ->.
  destruct (toggle_frame now st) as [Hn Hsl].
  assert (Hs' : screenLog (toggleThrottling now st)
                = Some (handle earlyConsole))
    by (rewrite Hsl; exact Hs).
  assert (Hf' : fresh (toggleThrottling now st))
    by (apply (fresh_grows st); [exact Hf|apply grows_toggle]).
  destruct (status_timer_fires (nextTimerId st)
              (nextMessage (throttleConfigRef st)) due
              (toggleThrottling now st) Hs' Hf' (toggle_arms now st Hf))
    as (Hsays & Hsr & Hcr & Hfr).
  conjuncts.
  - apply ControllerFacts.toggleThrottling_emits.
  - exact Hsays.
  - apply ControllerFacts.toggleThrottling_config.
  - rewrite Hcr. apply ControllerFacts.toggleThrottling_config.
  - destruct Hsays as (_ & Hout & _). rewrite Hout, Hn. reflexivity.
  - rewrite Hsr. exact Hs'.
  - exact Hfr.
Qed.

(** ** The configuration while timers come due *)

Lemma genericLogger_config (color : string) (a : list value) (now : Z)
      (st : state) :
  throttleConfigRef (stateOf (genericLogger color a now st))
  = throttleConfigRef st.
Proof.
  unfold genericLogger.
  destruct (negb (logElementRef st) || paused (throttleConfigRef st));
    [reflexivity|].
  destruct (content st) as [ch|]; [|reflexivity].
  destruct (throttled (throttleConfigRef st)).
  - destruct (_ <=? _)%Z; [|reflexivity].
    destruct (formatArgs (host st) a); reflexivity.
  - destruct (formatArgs (host st) a); reflexivity.
Qed.

Lemma clear_config (st : state) :
  throttleConfigRef (clear st) = throttleConfigRef st.
Proof.
  unfold clear, cancelThrottleTimeout.
  destruct (logElementRef st); [destruct (content st)|]; cbn;
    destruct (throttleTimeoutRef st); reflexivity.
Qed.

Lemma callFn_config (f : fn) :
  forall (a : list value) (now : Z) (st : state),
    throttleConfigRef (stateOf (callFn f a now st)) = throttleConfigRef st.
Proof.
  induction f as [m | m orig IH | m saved IH]; intros a now st; cbn [callFn].
  - reflexivity.
  - rewrite IH. reflexivity.
  - assert (H : forall o,
               throttleConfigRef (stateOf o) = throttleConfigRef st ->
               throttleConfigRef (stateOf (andThen o (callFn saved a now)))
               = throttleConfigRef st).
    { intros [s|s] Ho; cbn [andThen stateOf] in *; [rewrite IH|]; exact Ho. }
    apply H.
    destruct m; cbv iota; try apply genericLogger_config.
    cbn [stateOf]. apply clear_config.
Qed.

Lemma startContinuousTestSignals_config (st : state) :
  throttleConfigRef (startContinuousTestSignals st) = throttleConfigRef st.
Proof.
  unfold startContinuousTestSignals, stopContinuousTestSignals.
  destruct (testSignalIntervalRef st); reflexivity.
Qed.

(** No timer coming due changes the configuration. *)
Lemma fire_config (id : nat) (now : Z) (st : state) :
  throttleConfigRef (stateOf (fire id now st)) = throttleConfigRef st.
Proof.
  unfold fire.
  destruct (find (fun t => timerId t =? id) (timers st)) as [t|];
    [|reflexivity].
  assert (H0 : throttleConfigRef (if repeating t then st else clearTimer id st)
               = throttleConfigRef st)
    by (destruct (repeating t); reflexivity).
  revert H0. generalize (if repeating t then st else clearTimer id st).
  intros s0 H0.
  destruct (task t) as [| |message|]; cbn [runTask stateOf]; try exact H0.
  - assert (H : forall o,
               throttleConfigRef (stateOf o) = throttleConfigRef s0 ->
               throttleConfigRef
                 (stateOf (andThen o
                    (fun st1 => Done (if enableTesting st1
                                      then startContinuousTestSignals st1
                                      else st1))))
               = throttleConfigRef st).
    { intros [s|s] Ho; cbn [andThen stateOf] in *;
        [|rewrite Ho; exact H0].
      destruct (enableTesting s);
        rewrite ?startContinuousTestSignals_config, Ho; exact H0. }
    apply H. destruct (screenLog s0); [apply callFn_config|reflexivity].
  - cbn [screenLog set_testSignalCountRef].
    destruct (screenLog s0); [rewrite callFn_config|]; exact H0.
Qed.

(** C2.  From the Normal state the toggle runs through
    Throttled(250), Throttled(500), Throttled(1000), Paused and back to
    Normal, so five toggles return to Normal, whether the timers they
    arm come due in between or not; each toggle arms exactly one timer,
    which carries the message of the state entered.  On a sink attached
    over the early wrappers, when that timer comes due its callback
    says the message: the host's console prints it once, and the timer
    is spent; over the five toggles, each followed by its timer, the
    console prints the five messages, one each, in the order of the
    cycle. *)
Theorem toggle_cycle_from_normal (st : state)
        (t1 t2 t3 t4 t5 d1 d2 d3 d4 d5 : Z) :
  modeIn st = Normal ->
  let s1 := toggleThrottling t1 st in
  let r1 := stateOf (fire (nextTimerId st) d1 s1) in
  let s2 := toggleThrottling t2 r1 in
  let r2 := stateOf (fire (nextTimerId r1) d2 s2) in
  let s3 := toggleThrottling t3 r2 in
  let r3 := stateOf (fire (nextTimerId r2) d3 s3) in
  let s4 := toggleThrottling t4 r3 in
  let r4 := stateOf (fire (nextTimerId r3) d4 s4) in
  let s5 := toggleThrottling t5 r4 in
  let r5 := stateOf (fire (nextTimerId r4) d5 s5) in
  ((modeIn s1 = Throttled 250 /\ modeIn r1 = Throttled 250
    /\ emits st s1 msgEnabled250)
   /\ (modeIn s2 = Throttled 500 /\ modeIn r2 = Throttled 500
       /\ emits r1 s2 msgSet500)
   /\ (modeIn s3 = Throttled 1000 /\ modeIn r3 = Throttled 1000
       /\ emits r2 s3 msgSet1000)
   /\ (modeIn s4 = Paused /\ modeIn r4 = Paused
       /\ emits r3 s4 msgPaused)
   /\ (modeIn s5 = Normal /\ modeIn r5 = Normal
       /\ emits r4 s5 msgDisabled)
   /\ throttleConfigRef r5 = plain false false 250
   /\ modeIn (toggleThrottling t5 (toggleThrottling t4 (toggleThrottling t3
        (toggleThrottling t2 (toggleThrottling t1 st))))) = Normal)
  /\ (screenLog st = Some (handle earlyConsole) ->
      fresh st ->
      says (nextTimerId st) msgEnabled250 d1 s1
      /\ says (nextTimerId r1) msgSet500 d2 s2
      /\ says (nextTimerId r2) msgSet1000 d3 s3
      /\ says (nextTimerId r3) msgPaused d4 s4
      /\ says (nextTimerId r4) msgDisabled d5 s5
      /\ nativeOut r5
         = nativeOut st
             ++ [(LOG, str msgEnabled250); (LOG, str msgSet500);
                 (LOG, str msgSet1000); (LOG, str msgPaused);
                 (LOG, str msgDisabled)]).
Proof.
  intros Hnormal s1 r1 s2 r2 s3 r3 s4 r4 s5 r5.
  assert (N0 : nextConfig (throttleConfigRef st) = plain true false 250
               /\ nextMessage (throttleConfigRef st) = msgEnabled250).
  { unfold modeIn, modeOf in Hnormal. unfold nextConfig, nextMessage, toggleStep.
    destruct (paused (throttleConfigRef st)); [discriminate|].
    destruct (throttled (throttleConfigRef st)); [discriminate|].
    split; reflexivity. }
  destruct N0 as [C0 M0].
  assert (Cs1 : throttleConfigRef s1 = plain true false 250)
    by (unfold s1; rewrite ControllerFacts.toggleThrottling_config; exact C0).
  assert (Cr1 : throttleConfigRef r1 = plain true false 250)
    by (unfold r1; rewrite fire_config; exact Cs1).
  assert (Cs2 : throttleConfigRef s2 = plain true false 500)
    by (unfold s2; rewrite ControllerFacts.toggleThrottling_config, Cr1;
        reflexivity).
  assert (Cr2 : throttleConfigRef r2 = plain true false 500)
    by (unfold r2; rewrite fire_config; exact Cs2).
  assert (Cs3 : throttleConfigRef s3 = plain true false 1000)
    by (unfold s3; rewrite ControllerFacts.toggleThrottling_config, Cr2;
        reflexivity).
  assert (Cr3 : throttleConfigRef r3 = plain true false 1000)
    by (unfold r3; rewrite fire_config; exact Cs3).
  assert (Cs4 : throttleConfigRef s4 = plain false true 1000)
    by (unfold s4; rewrite ControllerFacts.toggleThrottling_config, Cr3;
        reflexivity).
  assert (Cr4 : throttleConfigRef r4 = plain false true 1000)
    by (unfold r4; rewrite fire_config; exact Cs4).
  assert (Cs5 : throttleConfigRef s5 = plain false false 250)
    by (unfold s5; rewrite ControllerFacts.toggleThrottling_config, Cr4;
        reflexivity).
  assert (Cr5 : throttleConfigRef r5 = plain false false 250)
    by (unfold r5; rewrite fire_config; exact Cs5).
  assert (E1 : emits st s1 msgEnabled250)
    by (rewrite <- M0; apply ControllerFacts.toggleThrottling_emits).
  assert (E2 : emits r1 s2 msgSet500).
  { pose proof (ControllerFacts.toggleThrottling_emits t2 r1) as H.
    rewrite Cr1 in H. exact H. }
  assert (E3 : emits r2 s3 msgSet1000).
  { pose proof (ControllerFacts.toggleThrottling_emits t3 r2) as H.
    rewrite Cr2 in H. exact H. }
  assert (E4 : emits r3 s4 msgPaused).
  { pose proof (ControllerFacts.toggleThrottling_emits t4 r3) as H.
    rewrite Cr3 in H. exact H. }
  assert (E5 : emits r4 s5 msgDisabled).
  { pose proof (ControllerFacts.toggleThrottling_emits t5 r4) as H.
    rewrite Cr4 in H. exact H. }
  split.
  - unfold modeIn.
    rewrite Cs1, Cr1, Cs2, Cr2, Cs3, Cr3, Cs4, Cr4, Cs5, Cr5.
    conjuncts; try assumption; try reflexivity.
    rewrite !ControllerFacts.toggleThrottling_config, C0. reflexivity.
  - intros Hs Hf.
    destruct (toggle_then_status t1 d1 st s1 r1 Hs Hf eq_refl eq_refl)
      as (_ & S1 & _ & _ & O1 & L1 & F1).
    rewrite M0 in S1, O1.
    destruct (toggle_then_status t2 d2 r1 s2 r2 L1 F1 eq_refl eq_refl)
      as (_ & S2 & _ & _ & O2 & L2 & F2).
    rewrite Cr1 in S2, O2.
    change (nextMessage (plain true false 250)) with msgSet500 in S2, O2.
    destruct (toggle_then_status t3 d3 r2 s3 r3 L2 F2 eq_refl eq_refl)
      as (_ & S3 & _ & _ & O3 & L3 & F3).
    rewrite Cr2 in S3, O3.
    change (nextMessage (plain true false 500)) with msgSet1000 in S3, O3.
    destruct (toggle_then_status t4 d4 r3 s4 r4 L3 F3 eq_refl eq_refl)
      as (_ & S4 & _ & _ & O4 & L4 & F4).
    rewrite Cr3 in S4, O4.
    change (nextMessage (plain true false 1000)) with msgPaused in S4, O4.
    destruct (toggle_then_status t5 d5 r4 s5 r5 L4 F4 eq_refl eq_refl)
      as (_ & S5 & _ & _ & O5 & _ & _).
    rewrite Cr4 in S5, O5.
    change (nextMessage (plain false true 1000)) with msgDisabled in S5, O5.
    conjuncts; try assumption.
    rewrite O5, O4, O3, O2, O1, <- !app_assoc. reflexivity.
Qed.

(** Five clicks on the attached sink of the sample, which has shown its
    three early entries. *)
Lemma toggle_cycle_from_normal_witness :
  modeIn Sample.attached = Normal
  /\ modeIn Sample.cycled = Normal
  /\ nativeOut Sample.cycled
     = nativeOut Sample.attached
         ++ [(LOG, str msgEnabled250); (LOG, str msgSet500);
             (LOG, str msgSet1000); (LOG, str msgPaused);
             (LOG, str msgDisabled)].
Proof.
  assert (H1 : modeIn Sample.attached = Normal) by (vm_compute; reflexivity).
  assert (H2 : screenLog Sample.attached = Some (handle earlyConsole))
    by (vm_compute; reflexivity).
  assert (H3 : fresh Sample.attached)
    by (unfold fresh; vm_compute; repeat constructor).
  destruct (toggle_cycle_from_normal Sample.attached
              100 200 300 400 500 150 250 350 450 550 H1)
    as ((_ & _ & _ & _ & (_ & M5 & _) & _) & Hsays).
  destruct (Hsays H2 H3) as (_ & _ & _ & _ & _ & O5).
  conjuncts; [exact H1|exact M5|exact O5].
Defined.

End StatusFacts.

(* ===================================================================== *)
(** * Part XIII: what a console call can and cannot do                    *)
(* ===================================================================== *)

Module CallFacts.
Import Value Classifier Sink Spec Run.

(** ** Primitive arguments *)

Lemma formatFrom_primitive (e : env) (a : list value) :
  forallb primitive a = true ->
  forall index argsLength, exists ns, formatFrom e index argsLength a = Ok ns.
Proof.
  induction a as [|v a IH]; intros Hp index argsLength; cbn [formatFrom].
  - eexists. reflexivity.
  - cbn [forallb] in Hp. apply andb_true_iff in Hp. destruct Hp as [Hv Ha].
    destruct v as [p|l]; [|discriminate].
    destruct (ClassifierFacts.formatLogText_prim e p index argsLength) as [ns ->].
    destruct (IH Ha (S index) argsLength) as [more ->].
    eexists. reflexivity.
Qed.

Lemma renders_primitive (e : env) (a : list value) :
  forallb primitive a = true -> renders e a.
Proof. intros Hp. apply formatFrom_primitive, Hp. Qed.

(** ** What the admission path leaves alone *)

Lemma genericLogger_cases (color : string) (a : list value) (now : Z)
      (st : state) :
  genericLogger color a now st = Thrown st
  \/ exists st',
      genericLogger color a now st = Done st'
      /\ control st' = control st
      /\ earlyLogs st' = earlyLogs st
      /\ nativeOut st' = nativeOut st.
Proof.
  unfold genericLogger.
  destruct (negb (logElementRef st) || paused (throttleConfigRef st));
    [right; exists st; conjuncts; reflexivity|].
  destruct (content st) as [ch|]; [|right; exists st; conjuncts; reflexivity].
  destruct (throttled (throttleConfigRef st)).
  - destruct (_ <=? _)%Z; [|right; exists st; conjuncts; reflexivity].
    destruct (formatArgs (host st) a); [right|left; reflexivity].
    eexists; conjuncts; reflexivity.
  - destruct (formatArgs (host st) a); [right|left; reflexivity].
    eexists; conjuncts; reflexivity.
Qed.

(** The path throws only when the arguments do not render. *)
Lemma genericLogger_returns (color : string) (a : list value) (now : Z)
      (st : state) :
  renders (host st) a ->
  exists st',
    genericLogger color a now st = Done st'
    /\ control st' = control st
    /\ earlyLogs st' = earlyLogs st
    /\ nativeOut st' = nativeOut st.
Proof.
  intros [ns Hf].
  destruct (genericLogger_cases color a now st) as [Hthrown|H]; [|exact H].
  exfalso. revert Hthrown. unfold genericLogger. rewrite Hf.
  destruct (negb (logElementRef st) || paused (throttleConfigRef st));
    [discriminate|].
  destruct (content st); [|discriminate].
  destruct (throttled (throttleConfigRef st)); [|discriminate].
  destruct (_ <=? _)%Z; discriminate.
Qed.

Lemma clear_control (st : state) :
  control (clear st) = control st
  /\ earlyLogs (clear st) = earlyLogs st
  /\ nativeOut (clear st) = nativeOut st.
Proof.
  unfold clear, cancelThrottleTimeout.
  destruct (logElementRef st), (content st); cbn;
    destruct (throttleTimeoutRef st); conjuncts; reflexivity.
Qed.

(** ** X1: arguments that render never make a console function throw *)

(** Whatever function is bound - the host's own, the early wrapper, the
    decorator of an attach, in any nesting - a call whose arguments
    render returns, and it leaves the host, the bindings, the attachment
    and the controller as they were. *)
Lemma callFn_returns (f : fn) :
  forall (a : list value) (now : Z) (st : state),
    renders (host st) a ->
    exists st', callFn f a now st = Done st' /\ control st' = control st.
Proof.
  induction f as [m|m f IH|m f IH]; intros a now st Hr; cbn [callFn].
  - eexists. split; reflexivity.
  - destruct (IH a now
                 (set_earlyLogs
                    (earlyLogs st ++ [{| type := m; args := a; timestamp := now |}])
                    st) Hr) as (st' & Hrun & Hc).
    exists st'. split; [exact Hrun|exact Hc].
  - assert (Hfirst : exists st1,
               match m with
               | CLEAR => Done (clear st)
               | _ => genericLogger (colorOf m) a now st
               end = Done st1 /\ control st1 = control st).
    { destruct m;
        try (destruct (genericLogger_returns (colorOf LOG) a now st Hr)
               as (st1 & H1 & H2 & _); exists st1; split; assumption);
        try (destruct (genericLogger_returns (colorOf INFO) a now st Hr)
               as (st1 & H1 & H2 & _); exists st1; split; assumption);
        try (destruct (genericLogger_returns (colorOf WARN) a now st Hr)
               as (st1 & H1 & H2 & _); exists st1; split; assumption);
        try (destruct (genericLogger_returns (colorOf ERROR) a now st Hr)
               as (st1 & H1 & H2 & _); exists st1; split; assumption).
      exists (clear st). split; [reflexivity|apply clear_control]. }
    destruct Hfirst as (st1 & -> & Hc1). cbn [andThen].
    assert (Hr1 : renders (host st1) a).
    { unfold control in Hc1. injection Hc1 as Hh _ _ _ _ _.
      rewrite Hh. exact Hr. }
    destruct (IH a now st1 Hr1) as (st' & Hrun & Hc).
    exists st'. split; [exact Hrun|]. rewrite Hc. exact Hc1.
Qed.

(** X1.  A console function called with primitive arguments only never
    throws: not the host's function, not the early wrapper, not the
    decorator of an attach, in whatever nesting and whatever the state
    of the sink. *)
Theorem primitive_arguments_never_throw (f : fn) (ps : list prim) (now : Z)
        (st : state) :
  throws (callFn f (map VPrim ps) now st) = false
  /\ control (stateOf (callFn f (map VPrim ps) now st)) = control st.
Proof.
  destruct (callFn_returns f (map VPrim ps) now st) as (st' & -> & Hc).
  - apply renders_primitive. induction ps; [reflexivity|exact IHps].
  - split; [reflexivity|exact Hc].
Qed.

(** ** X2: attaching over a buffer of primitive entries *)

Lemma callFn_primitive (f : fn) :
  forall (a : list value) (now : Z) (st : state),
    forallb primitive a = true ->
    Forall primitiveArgs (earlyLogs st) ->
    exists st',
      callFn f a now st = Done st'
      /\ control st' = control st
      /\ Forall primitiveArgs (earlyLogs st').
Proof.
  induction f as [m|m f IH|m f IH]; intros a now st Ha Hlogs; cbn [callFn].
  - eexists. conjuncts; [reflexivity|reflexivity|exact Hlogs].
  - destruct (IH a now
                 (set_earlyLogs
                    (earlyLogs st ++ [{| type := m; args := a; timestamp := now |}])
                    st) Ha) as (st' & Hrun & Hc & Hl).
    { cbn. apply Forall_app. split; [exact Hlogs|].
      constructor; [exact Ha|constructor]. }
    exists st'. conjuncts; assumption.
  - assert (Hfirst : exists st1,
               match m with
               | CLEAR => Done (clear st)
               | _ => genericLogger (colorOf m) a now st
               end = Done st1
               /\ control st1 = control st /\ earlyLogs st1 = earlyLogs st).
    { pose proof (fun c => genericLogger_returns c a now st
                             (renders_primitive (host st) a Ha)) as Hg.
      destruct m;
        try (destruct (Hg (colorOf LOG)) as (st1 & H1 & H2 & H3 & _);
             exists st1; conjuncts; assumption);
        try (destruct (Hg (colorOf INFO)) as (st1 & H1 & H2 & H3 & _);
             exists st1; conjuncts; assumption);
        try (destruct (Hg (colorOf WARN)) as (st1 & H1 & H2 & H3 & _);
             exists st1; conjuncts; assumption);
        try (destruct (Hg (colorOf ERROR)) as (st1 & H1 & H2 & H3 & _);
             exists st1; conjuncts; assumption).
      exists (clear st). conjuncts; [reflexivity| |]; apply clear_control. }
    destruct Hfirst as (st1 & -> & Hc1 & He1). cbn [andThen].
    destruct (IH a now st1 Ha) as (st' & Hrun & Hc & Hl);
      [rewrite He1; exact Hlogs|].
    exists st'. conjuncts; [exact Hrun| |exact Hl]. rewrite Hc. exact Hc1.
Qed.

Lemma replayEach_primitive (sl : screenLogObj) (now : Z) (logs : list earlyLog) :
  Forall primitiveArgs logs ->
  forall st,
    Forall primitiveArgs (earlyLogs st) ->
    exists st',
      replayEach sl logs now st = Done st'
      /\ control st' = control st
      /\ Forall primitiveArgs (earlyLogs st').
Proof.
  induction 1 as [|l logs Hl _ IH]; intros st Hlogs; cbn [replayEach].
  - exists st. conjuncts; [reflexivity|reflexivity|exact Hlogs].
  - destruct (callFn_primitive (replayOne sl l) (args l) now st Hl Hlogs)
      as (st1 & -> & Hc1 & Hl1).
    cbn [andThen].
    destruct (IH st1 Hl1) as (st' & Hrun & Hc & Hl').
    exists st'. conjuncts; [exact Hrun| |exact Hl']. rewrite Hc. exact Hc1.
Qed.

Lemma in_skipn (A : Type) (n : nat) (l : list A) (x : A) :
  In x (skipn n l) -> In x l.
Proof.
  intros H. rewrite <- (firstn_skipn n l). apply in_or_app. right. exact H.
Qed.

Lemma replayLogsToScreenLogger_primitive (maxEntries : nat) (now : Z) (st : state) :
  Forall primitiveArgs (earlyLogs st) ->
  exists st',
    replayLogsToScreenLogger maxEntries now st = Done st'
    /\ control st' = control st.
Proof.
  intros Hlogs. unfold replayLogsToScreenLogger.
  destruct (screenLog st) as [sl|]; [|exists st; split; reflexivity].
  destruct (earlyLogs st) as [|l0 E0] eqn:HE; [exists st; split; reflexivity|].
  rewrite <- HE in Hlogs.
  destruct (callFn_primitive (sl_log sl) [VPrim (PStr startSeparator)] now st
              eq_refl Hlogs) as (st1 & -> & Hc1 & Hl1).
  cbn [andThen].
  destruct (replayEach_primitive sl now
              (filter (fun l => negb (isSeparator l))
                      (sliceLast maxEntries (earlyLogs st1)))) with (st := st1)
    as (st2 & -> & Hc2 & Hl2); [|exact Hl1|].
  { apply Forall_forall. intros l Hin.
    apply filter_In in Hin. destruct Hin as [Hin _].
    assert (Hin' : In l (earlyLogs st1)).
    { unfold sliceLast in Hin. destruct maxEntries; [exact Hin|].
      eapply in_skipn; exact Hin. }
    exact (proj1 (Forall_forall _ _) Hl1 l Hin'). }
  cbn [andThen].
  destruct (callFn_primitive (sl_log sl) [VPrim (PStr endSeparator)] now st2
              eq_refl Hl2) as (st3 & -> & Hc3 & _).
  exists st3. split; [reflexivity|]. rewrite Hc3, Hc2. exact Hc1.
Qed.

(** X2.  When every entry of the early buffer has primitive arguments
    only, attaching returns: the first line, the replay and its
    separators throw nothing, whatever functions the console names were
    bound to. *)
Theorem attach_returns_on_primitive_buffer (now : Z) (st : state) :
  Forall primitiveArgs (earlyLogs st) ->
  throws (initScreenLog now st) = false.
Proof.
  intros Hlogs. unfold initScreenLog.
  destruct (isInitializedRef st && logElementRef st); [reflexivity|].
  set (st1 := set_isInitializedRef true _).
  assert (Hr : renders (host st1) [VPrim (PStr "Screen logger initialized.")])
    by (apply renders_primitive; reflexivity).
  destruct (genericLogger_returns logColor _ now st1 Hr)
    as (st2 & -> & _ & He2 & _).
  cbn [andThen].
  destruct (replayLogsToScreenLogger_primitive 200 now st2) as (st3 & -> & _).
  - rewrite He2. exact Hlogs.
  - reflexivity.
Qed.

(** Three early entries of text. *)
Lemma attach_returns_on_primitive_buffer_witness :
  throws (initScreenLog 10 Sample.captured) = false.
Proof.
  apply attach_returns_on_primitive_buffer.
  unfold primitiveArgs.
  repeat constructor.
Defined.

(** ** Runs of console calls *)

Lemma callFn_decorated (m : method) (saved : fn) (a : list value) (now : Z)
      (st : state) :
  m <> CLEAR ->
  callFn (Decorated m saved) a now st
  = andThen (genericLogger (colorOf m) a now st) (callFn saved a now).
Proof. intros Hm. destruct m; try contradiction; reflexivity. Qed.

Lemma lookup_decorate (c : consoleObj) (m : method) :
  lookup (decorate c) m = Decorated m (lookup c m).
Proof. destruct m; reflexivity. Qed.

Lemma lookup_earlyConsole (m : method) :
  lookup earlyConsole m
  = if isClear m then Native CLEAR else EarlyCapture m (Native m).
Proof. destruct m; reflexivity. Qed.

(** One call on the console of an attach made over the early wrappers. *)
Lemma consoleCall_decorated (m : method) (a : list value) (now : Z) (st : state) :
  console st = decorate earlyConsole ->
  renders (host st) a ->
  exists st',
    consoleCall m a now st = Done st'
    /\ control st' = control st
    /\ nativeOut st' = nativeOut st ++ [(m, a)]
    /\ earlyLogs st'
       = earlyLogs st
           ++ (if isClear m then []
               else [{| type := m; args := a; timestamp := now |}]).
Proof.
  intros Hc Hr. unfold consoleCall.
  rewrite Hc, lookup_decorate, lookup_earlyConsole.
  destruct (isClear m) eqn:Hm.
  - destruct m; try discriminate. cbn [callFn andThen].
    destruct (clear_control st) as (C1 & C2 & C3).
    eexists. conjuncts; [reflexivity| | |].
    + exact C1.
    + cbn. rewrite C3. reflexivity.
    + cbn. rewrite C2, app_nil_r. reflexivity.
  - rewrite callFn_decorated by (intros ->; discriminate).
    destruct (genericLogger_returns (colorOf m) a now st Hr)
      as (st1 & -> & C1 & C2 & C3).
    cbn [andThen callFn].
    eexists. conjuncts; [reflexivity| | |].
    + exact C1.
    + cbn. rewrite C3. reflexivity.
    + cbn. rewrite C2. reflexivity.
Qed.

(** X3.  On the console of an attached sink (bound over the early
    wrappers), in whatever mode - normal, throttled, paused or detached
    in the meantime - every call whose arguments render is passed on to
    the host's console exactly once and in order, and every call but
    [console.clear] is recorded in the early buffer; none throws, and
    none changes the bindings or the controller. *)
Theorem calls_are_always_forwarded (calls : list (method * list value * Z))
        (st : state) :
  console st = decorate earlyConsole ->
  Forall (fun c => renders (host st) (callArgs c)) calls ->
  exists st',
    consoleCalls calls st = Done st'
    /\ control st' = control st
    /\ nativeOut st' = nativeOut st ++ map output calls
    /\ earlyLogs st' = earlyLogs st ++ map entryOf (filter recorded calls).
Proof.
  intros Hc Hall. remember (host st) as e eqn:He. revert st Hc He.
  induction Hall as [|[[m a] t] calls Hr _ IH]; intros st Hc He.
  - exists st. cbn [consoleCalls map filter]. rewrite !app_nil_r.
    conjuncts; reflexivity.
  - cbn [consoleCalls]. cbn in Hr. rewrite He in Hr.
    destruct (consoleCall_decorated m a t st Hc Hr)
      as (st1 & -> & C1 & N1 & E1).
    cbn [andThen].
    assert (Hc1 : console st1 = decorate earlyConsole).
    { unfold control in C1. injection C1 as _ Hcons _ _ _ _.
      rewrite Hcons. exact Hc. }
    assert (Hh1 : e = host st1).
    { unfold control in C1. injection C1 as Hh _ _ _ _ _.
      rewrite Hh. exact He. }
    destruct (IH st1 Hc1 Hh1) as (st' & Hrun & C & N & E).
    exists st'. conjuncts.
    + exact Hrun.
    + rewrite C. exact C1.
    + rewrite N, N1. cbn [map]. rewrite <- app_assoc. reflexivity.
    + rewrite E, E1.
      replace (filter recorded ((m, a, t) :: calls))
        with ((if isClear m then [] else [(m, a, t)]) ++ filter recorded calls)
        by (destruct m; reflexivity).
      destruct (isClear m); cbn [map app].
      * rewrite app_nil_r. reflexivity.
      * rewrite <- app_assoc. reflexivity.
Qed.

(** A throttled sink, and console calls on it. *)
Lemma calls_are_always_forwarded_witness :
  nativeOut (stateOf (consoleCalls Sample.threeCalls Sample.throttledAt1000))
  = nativeOut Sample.throttledAt1000 ++ map output Sample.threeCalls.
Proof.
  destruct (calls_are_always_forwarded Sample.threeCalls Sample.throttledAt1000)
    as (st' & Hrun & _ & Hn & _).
  - vm_compute. reflexivity.
  - unfold Sample.threeCalls.
    repeat constructor; apply renders_primitive; reflexivity.
  - rewrite Hrun. exact Hn.
Defined.

(** X4.  While the controller is paused, console calls other than
    [console.clear] leave the panel, the pending timers and the time of
    the last entry exactly as they were, whatever their arguments - also
    arguments that could not be rendered - and none throws; each is
    still passed on to the host's console. *)
Theorem paused_sink_discards (calls : list (method * list value * Z))
        (st : state) :
  console st = decorate earlyConsole ->
  paused (throttleConfigRef st) = true ->
  Forall (fun c => callMethod c <> CLEAR) calls ->
  exists st',
    consoleCalls calls st = Done st'
    /\ content st' = content st
    /\ timers st' = timers st
    /\ lastLogTimeRef st' = lastLogTimeRef st
    /\ nativeOut st' = nativeOut st ++ map output calls.
Proof.
  intros Hc Hp Hall.
  assert (exists st',
             consoleCalls calls st = Done st'
             /\ control st' = control st
             /\ content st' = content st
             /\ timers st' = timers st
             /\ lastLogTimeRef st' = lastLogTimeRef st
             /\ nativeOut st' = nativeOut st ++ map output calls) as H.
  { revert st Hc Hp.
    induction Hall as [|[[m a] t] calls Hm _ IH]; intros st Hc Hp.
    - exists st. cbn [consoleCalls map]. rewrite app_nil_r.
      conjuncts; reflexivity.
    - cbn [consoleCalls]. unfold consoleCall.
      rewrite Hc, lookup_decorate, lookup_earlyConsole.
      cbn in Hm.
      assert (Hnc : isClear m = false) by (destruct m; try reflexivity; contradiction).
      rewrite Hnc, callFn_decorated by exact Hm.
      assert (Hg : genericLogger (colorOf m) a t st = Done st).
      { unfold genericLogger. rewrite Hp, orb_true_r. reflexivity. }
      rewrite Hg. cbn [andThen callFn].
      set (st1 := set_nativeOut _ _).
      destruct (IH st1) as (st' & Hrun & C & K & T & L & N);
        [exact Hc|exact Hp|].
      exists st'. conjuncts; try assumption.
      rewrite N. unfold st1. cbn. rewrite <- app_assoc. reflexivity. }
  destruct H as (st' & Hrun & _ & K & T & L & N).
  exists st'. conjuncts; assumption.
Qed.

(** A search pauses the throttled sink; three calls follow. *)
Lemma paused_sink_discards_witness :
  content (stateOf (consoleCalls Sample.threeCalls
                      (handleSearchChange "abc" Sample.throttledAt1000)))
  = content (handleSearchChange "abc" Sample.throttledAt1000).
Proof.
  destruct (paused_sink_discards Sample.threeCalls
              (handleSearchChange "abc" Sample.throttledAt1000))
    as (st' & Hrun & Hk & _).
  - vm_compute. reflexivity.
  - vm_compute. reflexivity.
  - unfold Sample.threeCalls. repeat constructor; discriminate.
  - rewrite Hrun. exact Hk.
Defined.

(** X5.  In Normal mode, on a sink attached over the early wrappers,
    console calls (other than [console.clear]) whose arguments render
    are all shown: the panel grows by exactly one entry per call, in
    call order, each in the colour of its kind. *)
Theorem normal_sink_shows_every_call (e : env)
        (calls : list (method * list value * Z)) (st : state)
        (ch : list logLine) :
  Attached e ch st ->
  console st = decorate earlyConsole ->
  Forall (fun c => callMethod c <> CLEAR /\ renders e (callArgs c)) calls ->
  exists st',
    consoleCalls calls st = Done st'
    /\ shown st' = shown st ++ map (callView e) calls
    /\ entryCount st' = entryCount st + List.length calls.
Proof.
  intros Hatt Hc Hall.
  assert (exists st' ch',
             consoleCalls calls st = Done st'
             /\ Attached e ch' st'
             /\ map view ch' = map view ch ++ map (callView e) calls) as H.
  { revert st ch Hatt Hc.
    induction Hall as [|[[m a] t] calls [Hm Hr] _ IH]; intros st ch Hatt Hc.
    - exists st, ch. cbn [consoleCalls map]. rewrite app_nil_r.
      conjuncts; [reflexivity|exact Hatt|reflexivity].
    - cbn [consoleCalls]. unfold consoleCall.
      rewrite Hc, lookup_decorate, lookup_earlyConsole.
      cbn in Hm, Hr.
      assert (Hnc : isClear m = false) by (destruct m; try reflexivity; contradiction).
      rewrite Hnc.
      pose proof Hatt as (Hh & _ & _ & Hl & Hmode & Hcont).
      rewrite (ReplayFacts.callFn_shows m a t st ch (rendered e a) Hm Hl Hmode Hcont)
        by (rewrite Hh; apply ReplayFacts.formatArgs_rendered, Hr).
      cbn [andThen].
      destruct (ReplayFacts.relog_frame m a t (rendered e a) ch st)
        as (_ & _ & Fc & _).
      destruct (IH _ _ (ReplayFacts.relog_attached e m a t (rendered e a) ch st Hatt))
        as (st' & ch' & Hrun & Hatt' & Hview).
      { rewrite Fc. exact Hc. }
      exists st', ch'. conjuncts; [exact Hrun|exact Hatt'|].
      rewrite Hview, map_app. cbn [map]. rewrite <- app_assoc. reflexivity. }
  destruct H as (st' & ch' & Hrun & Hatt' & Hview).
  destruct Hatt as (_ & _ & _ & _ & _ & Hcont).
  destruct Hatt' as (_ & _ & _ & _ & _ & Hcont').
  exists st'. conjuncts; [exact Hrun| |].
  - unfold shown. rewrite Hcont, Hcont'. exact Hview.
  - unfold entryCount. rewrite Hcont, Hcont'.
    rewrite <- (length_map view ch'), Hview, length_app, !length_map.
    reflexivity.
Qed.

(** The attached sink of the sample, and three more calls. *)
Lemma normal_sink_shows_every_call_witness :
  entryCount (stateOf (consoleCalls Sample.threeCalls Sample.attached))
  = entryCount Sample.attached + 3.
Proof.
  destruct (normal_sink_shows_every_call Sample.plainHost Sample.threeCalls
              Sample.attached
              (match content Sample.attached with Some ch => ch | None => [] end))
    as (st' & Hrun & _ & Hn).
  - unfold Attached. conjuncts; vm_compute; reflexivity.
  - vm_compute. reflexivity.
  - unfold Sample.threeCalls.
    repeat constructor; try discriminate; apply renders_primitive; reflexivity.
  - rewrite Hrun. exact Hn.
Defined.

(** X6.  Before any attach, the early wrappers record every
    [console.log], [info], [warn] and [error] call - with its kind, its
    arguments and its clock reading, in call order and without bound -
    and pass every call on to the host's console; [console.clear] is
    passed on and not recorded.  No call throws, whatever its arguments,
    and nothing else of the state changes. *)
Theorem early_wrappers_record_everything
        (calls : list (method * list value * Z)) (st : state) :
  console st = earlyConsole ->
  exists st',
    consoleCalls calls st = Done st'
    /\ earlyLogs st' = earlyLogs st ++ map entryOf (filter recorded calls)
    /\ nativeOut st' = nativeOut st ++ map output calls
    /\ control st' = control st
    /\ content st' = content st
    /\ timers st' = timers st.
Proof.
  revert st.
  induction calls as [|[[m a] t] calls IH]; intros st Hc.
  - exists st. cbn [consoleCalls map filter]. rewrite !app_nil_r.
    conjuncts; reflexivity.
  - cbn [consoleCalls]. unfold consoleCall.
    rewrite Hc, lookup_earlyConsole.
    replace (filter recorded ((m, a, t) :: calls))
      with ((if isClear m then [] else [(m, a, t)]) ++ filter recorded calls)
      by (destruct m; reflexivity).
    destruct (isClear m) eqn:Hm.
    + destruct m; try discriminate. cbn [callFn andThen].
      set (st1 := set_nativeOut _ _).
      destruct (IH st1 Hc) as (st' & Hrun & E & N & C & K & T).
      exists st'. conjuncts; try assumption.
      rewrite N. unfold st1. cbn. rewrite <- app_assoc. reflexivity.
    + cbn [callFn andThen].
      set (st1 := set_nativeOut _ _).
      destruct (IH st1 Hc) as (st' & Hrun & E & N & C & K & T).
      exists st'. conjuncts; try assumption.
      * rewrite E. unfold st1. cbn. rewrite <- app_assoc. reflexivity.
      * rewrite N. unfold st1. cbn. rewrite <- app_assoc. reflexivity.
Qed.

(** The mounted component, and calls that include a cyclic object and a
    [console.clear]. *)
Lemma early_wrappers_record_everything_witness :
  map type (earlyLogs (stateOf
     (consoleCalls [(LOG, [VRef 0], 1%Z); (CLEAR, [], 2%Z); (WARN, str "w", 3%Z)]
                   (mounted Sample.cyclicHost true true))))
  = [LOG; WARN].
Proof.
  destruct (early_wrappers_record_everything
              [(LOG, [VRef 0], 1%Z); (CLEAR, [], 2%Z); (WARN, str "w", 3%Z)]
              (mounted Sample.cyclicHost true true) eq_refl)
    as (st' & Hrun & He & _).
  rewrite Hrun. cbn [stateOf]. rewrite He. reflexivity.
Defined.

End CallFacts.

(* ===================================================================== *)
(** * Part XIV: teardown, re-attach and the throttle over a run           *)
(* ===================================================================== *)

Module LifecycleFacts.
Import Value Classifier Sink Spec Run.

(** ** Destroy *)

(** X7.  Destroying twice is destroying once: the second
    [window.screenLog.destroy()] - the handle stays in place after the
    first - returns and changes nothing. *)
Theorem destroy_twice (sl : screenLogObj) (st : state) :
  screenLog st = Some sl ->
  screenLogDestroy st = Done (destroy sl st)
  /\ screenLogDestroy (destroy sl st) = Done (destroy sl st).
Proof.
  intros Hs. unfold screenLogDestroy.
  assert (Hs' : screenLog (destroy sl st) = Some sl).
  { unfold destroy, cancelThrottleTimeout. cbn.
    destruct (throttleTimeoutRef st); exact Hs. }
  rewrite Hs, Hs'. split; [reflexivity|].
  f_equal. destruct st as [h et iv el co sc no ct ii le tc tt pl ll ts tn sq tm ni].
  unfold destroy, cancelThrottleTimeout. cbn.
  destruct tt; reflexivity.
Qed.

(** The attached sink of the sample, destroyed twice. *)
Lemma destroy_twice_witness :
  screenLogDestroy Sample.detached = Done Sample.detached.
Proof.
  assert (Hs : screenLog Sample.attached = Some (handle earlyConsole))
    by (vm_compute; reflexivity).
  destruct (destroy_twice (handle earlyConsole) Sample.attached Hs) as [H1 H2].
  unfold Sample.detached. rewrite H1. cbn [stateOf]. exact H2.
Defined.

(** A decorator whose sink is detached only calls the saved function. *)
Lemma detached_decorator (m : method) (saved : fn) (a : list value) (now : Z)
      (st : state) :
  m <> CLEAR ->
  logElementRef st = false ->
  callFn (Decorated m saved) a now st = callFn saved a now st.
Proof.
  intros Hm Hl. rewrite CallFacts.callFn_decorated by exact Hm.
  unfold genericLogger. rewrite Hl. reflexivity.
Qed.

(** X8.  After a destroy, the stale logging entries of
    [window.screenLog] ([log], [info], [warn], [error]) and the console
    names are the same functions again: a call through the
    handle does exactly what the call of the restored console function
    does, for any arguments - nothing is rendered, and nothing of the
    sink can throw. *)
Theorem destroyed_handle_is_the_saved_console (c : consoleObj) (m : method)
        (a : list value) (now : Z) (st : state) :
  m <> CLEAR ->
  screenLog st = Some (handle c) ->
  handleCall m a now (destroy (handle c) st)
  = consoleCall m a now (destroy (handle c) st)
  /\ consoleCall m a now (destroy (handle c) st)
     = callFn (lookup c m) a now (destroy (handle c) st).
Proof.
  intros Hm Hs.
  assert (Hs' : screenLog (destroy (handle c) st) = Some (handle c)).
  { unfold destroy, cancelThrottleTimeout. cbn.
    destruct (throttleTimeoutRef st); exact Hs. }
  assert (Hl : logElementRef (destroy (handle c) st) = false).
  { unfold destroy, cancelThrottleTimeout. cbn.
    destruct (throttleTimeoutRef st); reflexivity. }
  assert (Hcall : consoleCall m a now (destroy (handle c) st)
                  = callFn (lookup c m) a now (destroy (handle c) st)).
  { unfold consoleCall. rewrite SinkFacts.destroy_console. reflexivity. }
  split; [|exact Hcall].
  rewrite Hcall. unfold handleCall. rewrite Hs'.
  assert (Hf : handleFn (handle c) m = Decorated m (lookup c m))
    by (destruct m; reflexivity).
  rewrite Hf. apply detached_decorator; assumption.
Qed.

(** The destroyed sink of the sample, and a cyclic object. *)
Lemma destroyed_handle_is_the_saved_console_witness :
  handleCall LOG [VRef 0] 30 Sample.detached
  = consoleCall LOG [VRef 0] 30 Sample.detached.
Proof.
  assert (Hs : screenLog Sample.attached = Some (handle earlyConsole))
    by (vm_compute; reflexivity).
  assert (Hd : Sample.detached = destroy (handle earlyConsole) Sample.attached).
  { unfold Sample.detached, screenLogDestroy. rewrite Hs. reflexivity. }
  rewrite Hd.
  apply (destroyed_handle_is_the_saved_console earlyConsole LOG [VRef 0] 30
           Sample.attached); [discriminate|exact Hs].
Defined.

(** X9.  Attach, destroy, attach: the second attach finds the console
    as the first attach found it, so the decorators are not stacked -
    the console names and [window.screenLog] are bound exactly as after
    the first attach. *)
Theorem reattach_does_not_stack (t1 t2 : Z) (st : state) :
  isInitializedRef st && logElementRef st = false ->
  let st1 := stateOf (initScreenLog t1 st) in
  let st2 := stateOf (screenLogDestroy st1) in
  console st2 = console st
  /\ bindings (stateOf (initScreenLog t2 st2)) = bindings st1
  /\ bindings st1 = (decorate (console st), Some (handle (console st))).
Proof.
  intros Hfree st1 st2.
  pose proof (TeardownFacts.initScreenLog_bindings t1 st Hfree) as Hb1.
  fold st1 in Hb1.
  assert (Hs1 : screenLog st1 = Some (handle (console st))).
  { unfold bindings in Hb1. injection Hb1 as _ Hs. exact Hs. }
  assert (Hst2 : st2 = destroy (handle (console st)) st1).
  { unfold st2, screenLogDestroy. rewrite Hs1. reflexivity. }
  assert (Hc2 : console st2 = console st).
  { rewrite Hst2. apply SinkFacts.destroy_console. }
  assert (Hfree2 : isInitializedRef st2 && logElementRef st2 = false).
  { rewrite Hst2. unfold destroy, cancelThrottleTimeout. cbn.
    destruct (throttleTimeoutRef st1); reflexivity. }
  conjuncts; [exact Hc2| |exact Hb1].
  rewrite (TeardownFacts.initScreenLog_bindings t2 st2 Hfree2), Hc2, Hb1.
  reflexivity.
Qed.

(** The sample: three early entries, attach, destroy, attach. *)
Lemma reattach_does_not_stack_witness :
  console Sample.reattached = decorate earlyConsole.
Proof.
  destruct (reattach_does_not_stack 10 20 Sample.captured eq_refl)
    as (_ & H2 & H3).
  change (console Sample.reattached)
    with (fst (bindings (stateOf (initScreenLog 20
                 (stateOf (screenLogDestroy (stateOf (initScreenLog 10 Sample.captured)))))))).
  rewrite H2, H3. reflexivity.
Defined.

End LifecycleFacts.

(* ===================================================================== *)
(** * Part XV: the controller over sequences of calls and clicks          *)
(* ===================================================================== *)

Module RunFacts.
Import Value Classifier Sink Spec Run.

(** ** The throttle over a run of calls *)

Lemma appendLine_control (color : string) (ch : list logLine) (now : Z)
      (ns : list node) (st : state) :
  control (appendLine color ch now ns st) = control st.
Proof. reflexivity. Qed.

Lemma last_cons_default {A : Type} (l : list A) (t t0 : A) :
  last (t :: l) t0 = last l t.
Proof.
  revert t0 t. induction l as [|x l IH]; intros t0 t; [reflexivity|].
  change (last (t :: x :: l) t0) with (last (x :: l) t0).
  rewrite (IH t0 x), (IH t x). reflexivity.
Qed.

(** X10.  While the throttle is on, whatever is submitted and whenever,
    the entries that get shown are at least the delay apart, the first
    of them at least the delay after the time held in [lastLogTimeRef]
    (the last admission under the throttle, or the click that turned
    the throttle on); calls that do not render, or that find the gate
    closed, add nothing. *)
Theorem throttled_entries_are_spaced (d : Z)
        (entries : list (string * list value * Z)) (st : state)
        (ch : list logLine) :
  logElementRef st = true ->
  content st = Some ch ->
  modeIn st = Throttled d ->
  exists shownNow,
    content (submitAll entries st) = Some (ch ++ shownNow)
    /\ spaced d (lastLogTimeRef st) (map shownAt shownNow)
    /\ lastLogTimeRef (submitAll entries st)
       = last (map shownAt shownNow) (lastLogTimeRef st)
    /\ control (submitAll entries st) = control st.
Proof.
  revert st ch. induction entries as [|[[color a] now] rest IH];
    intros st ch Hel Hc Hm.
  - exists []. cbn. rewrite app_nil_r. conjuncts; auto.
  - destruct (SinkFacts.modeIn_throttled st d Hm) as (Hp & Ht & Hd).
    cbn [submitAll].
    assert (Hsame : forall st0, st0 = st ->
              exists shownNow,
                content (submitAll rest st0) = Some (ch ++ shownNow)
                /\ spaced d (lastLogTimeRef st) (map shownAt shownNow)
                /\ lastLogTimeRef (submitAll rest st0)
                   = last (map shownAt shownNow) (lastLogTimeRef st)
                /\ control (submitAll rest st0) = control st).
    { intros st0 ->. apply IH; assumption. }
    unfold genericLogger. rewrite Hel, Hp, Hc, Ht, Hd. cbn [negb orb].
    destruct (d <=? now - lastLogTimeRef st)%Z eqn:Hgate;
      [|apply Hsame; reflexivity].
    destruct (formatArgs (host st) a) as [ns|]; [|apply Hsame; reflexivity].
    cbn [stateOf].
    set (st1 := set_lastLogTimeRef now (appendLine color ch now ns st)).
    assert (Hm1 : modeIn st1 = Throttled d) by exact Hm.
    assert (Hel1 : logElementRef st1 = true) by exact Hel.
    assert (Hc1 : content st1 = Some (ch ++ [mkLine color ch now ns]))
      by reflexivity.
    destruct (IH st1 (ch ++ [mkLine color ch now ns]) Hel1 Hc1 Hm1)
      as (more & Hc' & Hsp & Hlast & Hctl).
    exists (mkLine color ch now ns :: more).
    conjuncts.
    + rewrite Hc', <- app_assoc. reflexivity.
    + cbn [map spaced]. split; [apply Z.leb_le; exact Hgate|exact Hsp].
    + rewrite Hlast. cbn [map].
      change (lastLogTimeRef st1) with (shownAt (mkLine color ch now ns)).
      symmetry. apply last_cons_default.
    + rewrite Hctl. reflexivity.
Qed.

(** Four calls 100 ms apart into the sink throttled to 250 ms. *)
Lemma throttled_entries_are_spaced_witness :
  exists shownNow,
    content (submitAll [(logColor, [VPrim (PStr "a")], 1100%Z);
                        (logColor, [VPrim (PStr "b")], 1200%Z);
                        (logColor, [VPrim (PStr "c")], 1300%Z);
                        (logColor, [VPrim (PStr "d")], 1400%Z)]
               Sample.throttledAt1000)
    = Some (match content Sample.throttledAt1000 with
            | Some ch => ch | None => []
            end ++ shownNow)
    /\ spaced 250 (lastLogTimeRef Sample.throttledAt1000)
              (map shownAt shownNow).
Proof.
  assert (Hel : logElementRef Sample.throttledAt1000 = true)
    by (vm_compute; reflexivity).
  assert (Hm : modeIn Sample.throttledAt1000 = Throttled 250)
    by (vm_compute; reflexivity).
  destruct (content Sample.throttledAt1000) as [ch|] eqn:Hc;
    [|vm_compute in Hc; discriminate].
  destruct (throttled_entries_are_spaced 250
              [(logColor, [VPrim (PStr "a")], 1100%Z);
               (logColor, [VPrim (PStr "b")], 1200%Z);
               (logColor, [VPrim (PStr "c")], 1300%Z);
               (logColor, [VPrim (PStr "d")], 1400%Z)]
              Sample.throttledAt1000 ch Hel Hc Hm)
    as (shownNow & H1 & H2 & _).
  exists shownNow. split; assumption.
Defined.

(** ** The toggle from any configuration *)

Lemma toggles_add (a b : nat) (cfg : ThrottleConfig) :
  toggles (a + b) cfg = toggles a (toggles b cfg).
Proof.
  induction a as [|a IH]; [reflexivity|].
  cbn [Nat.add toggles]. rewrite IH. reflexivity.
Qed.

Lemma nextConfig_canonical (cfg : ThrottleConfig) : canonical (nextConfig cfg).
Proof.
  unfold canonical, nextConfig, toggleStep.
  repeat match goal with
         | |- context [if ?b then _ else _] => destruct b
         end; cbn [fst]; auto 6.
Qed.

Lemma toggles_five (cfg : ThrottleConfig) :
  canonical cfg -> toggles 5 cfg = cfg.
Proof.
  intros [-> | [-> | [-> | [-> | ->]]]]; reflexivity.
Qed.

Lemma clicks_follow_toggles (times : list Z) (st : state) :
  throttleConfigRef (clicks times st)
  = toggles (List.length times) (throttleConfigRef st).
Proof.
  unfold clicks. revert st.
  induction times as [|t times IH] using rev_ind; intros st.
  - reflexivity.
  - rewrite fold_left_app, length_app. cbn [fold_left List.length].
    rewrite ControllerFacts.toggleThrottling_config, IH, Nat.add_comm.
    reflexivity.
Qed.

(** X11.  Whatever the configuration - paused by the button, by a
    search with its snapshot, throttled to any delay - one click of the
    toggle puts it on the cycle of five configurations, and from then
    on five more clicks, at whatever times, bring back the same
    configuration. *)
Theorem toggle_settles_on_cycle (t : Z) (times five : list Z) (st : state) :
  List.length five = 5 ->
  canonical (throttleConfigRef (clicks (t :: times) st))
  /\ throttleConfigRef (clicks five (clicks (t :: times) st))
     = throttleConfigRef (clicks (t :: times) st).
Proof.
  intros Hfive.
  assert (Hcan : canonical (throttleConfigRef (clicks (t :: times) st))).
  { rewrite clicks_follow_toggles.
    change (List.length (t :: times)) with (S (List.length times)).
    cbn [toggles]. apply nextConfig_canonical. }
  split; [exact Hcan|].
  rewrite clicks_follow_toggles, Hfive. apply toggles_five. exact Hcan.
Qed.

(** A search begun while throttled to 500 ms: one click, then five. *)
Lemma toggle_settles_on_cycle_witness :
  throttleConfigRef (clicks [4; 5; 6; 7; 8]%Z (clicks [3%Z] Sample.searching))
  = throttleConfigRef (clicks [3%Z] Sample.searching).
Proof.
  exact (proj2 (toggle_settles_on_cycle 3 [] [4; 5; 6; 7; 8]%Z
                  Sample.searching eq_refl)).
Defined.

(** ** The search box *)

Lemma typing_on (q : string) (st : state) :
  searchQuery st <> "" -> q <> "" ->
  throttleConfigRef (handleSearchChange q st) = throttleConfigRef st.
Proof.
  intros Hs Hq. rewrite ControllerFacts.handleSearchChange_config. cbn zeta.
  apply String.eqb_neq in Hs. apply String.eqb_neq in Hq.
  rewrite Hs, Hq. reflexivity.
Qed.

Lemma typeQueries_on (qs : list string) (st : state) :
  searchQuery st <> "" ->
  Forall (fun q => q <> "") qs ->
  throttleConfigRef (typeQueries qs st) = throttleConfigRef st
  /\ searchQuery (typeQueries qs st) <> "".
Proof.
  intros Hs Hall. revert st Hs.
  induction Hall as [|q qs Hq Hall IH]; intros st Hs.
  - split; [reflexivity|exact Hs].
  - cbn [typeQueries].
    assert (Hs' : searchQuery (handleSearchChange q st) <> "")
      by (rewrite ControllerFacts.handleSearchChange_query; exact Hq).
    destruct (IH _ Hs') as [H1 H2].
    split; [|exact H2].
    rewrite H1. apply typing_on; assumption.
Qed.

(** X12.  A whole search, typed one query after another and cleared at
    the end, is a round trip for a sink that was not paused: while the
    box is non-empty the sink is paused, and clearing the box restores
    the throttle flag and the delay of before, with no snapshot left. *)
Theorem search_round_trip (q : string) (qs : list string) (st : state) :
  searchQuery st = "" ->
  paused (throttleConfigRef st) = false ->
  Forall (fun q => q <> "") (q :: qs) ->
  modeIn (typeQueries (q :: qs) st) = Paused
  /\ throttleConfigRef (typeQueries ((q :: qs) ++ [""]) st)
     = {| throttled := throttled (throttleConfigRef st); paused := false;
          delay := delay (throttleConfigRef st); _previousState := None |}
  /\ modeIn (typeQueries ((q :: qs) ++ [""]) st) = modeIn st.
Proof.
  intros Hempty Hp Hall. inversion Hall as [|? ? Hq Hqs]; subst.
  destruct (ControllerFacts.search_start_pauses q st Hempty Hq) as [Hstart _].
  destruct (Hstart Hp) as [Hcfg _].
  assert (Hs1 : searchQuery (handleSearchChange q st) <> "")
    by (rewrite ControllerFacts.handleSearchChange_query; exact Hq).
  destruct (typeQueries_on qs _ Hs1 Hqs) as [Hkeep Hs2].
  assert (Hmid : throttleConfigRef (typeQueries (q :: qs) st)
                 = {| throttled := false; paused := true;
                      delay := delay (throttleConfigRef st);
                      _previousState :=
                        Some {| prevThrottled := throttled (throttleConfigRef st);
                                prevDelay := delay (throttleConfigRef st) |} |}).
  { cbn [typeQueries]. rewrite Hkeep. exact Hcfg. }
  assert (Hsplit : forall l s, typeQueries (l ++ [""]) s
                               = handleSearchChange "" (typeQueries l s)).
  { induction l as [|x l IHl]; intros s; [reflexivity|].
    cbn [app typeQueries]. apply IHl. }
  assert (Hend : throttleConfigRef (typeQueries ((q :: qs) ++ [""]) st)
                 = {| throttled := throttled (throttleConfigRef st);
                      paused := false;
                      delay := delay (throttleConfigRef st);
                      _previousState := None |}).
  { rewrite Hsplit, ControllerFacts.search_end_config.
    apply String.eqb_neq in Hs2. cbn [typeQueries]. rewrite Hs2, Hkeep, Hcfg.
    reflexivity. }
  conjuncts.
  - unfold modeIn. rewrite Hmid. reflexivity.
  - exact Hend.
  - unfold modeIn. rewrite Hend. unfold modeOf. cbn. rewrite Hp. reflexivity.
Qed.

(** The sink throttled to 250 ms, and the query typed letter by letter. *)
Lemma search_round_trip_witness :
  modeIn (typeQueries ["e"; "er"; "err"; ""] Sample.throttledAt1000)
  = modeIn Sample.throttledAt1000.
Proof.
  assert (H1 : searchQuery Sample.throttledAt1000 = "")
    by (vm_compute; reflexivity).
  assert (H2 : paused (throttleConfigRef Sample.throttledAt1000) = false)
    by (vm_compute; reflexivity).
  assert (H3 : Forall (fun q => q <> "") ["e"; "er"; "err"]).
  { repeat constructor; discriminate. }
  exact (proj2 (proj2 (search_round_trip "e" ["er"; "err"]
                         Sample.throttledAt1000 H1 H2 H3))).
Defined.

(** X13.  The Resume button pressed during a search lets the entries
    in again, but with the throttle off, whatever it was; clearing the
    box afterwards restores nothing, and the snapshot stays behind. *)
Theorem resume_during_search_drops_throttle (q : string) (st : state) :
  searchQuery st = "" ->
  q <> "" ->
  paused (throttleConfigRef st) = false ->
  let resumed := togglePause (handleSearchChange q st) in
  modeIn resumed = Normal
  /\ modeIn (handleSearchChange "" resumed) = Normal
  /\ throttleConfigRef (handleSearchChange "" resumed)
     = {| throttled := false; paused := false;
          delay := delay (throttleConfigRef st);
          _previousState :=
            Some {| prevThrottled := throttled (throttleConfigRef st);
                    prevDelay := delay (throttleConfigRef st) |} |}.
Proof.
  intros Hempty Hq Hp resumed.
  destruct (ControllerFacts.search_start_pauses q st Hempty Hq) as [Hstart _].
  destruct (Hstart Hp) as [Hcfg _].
  assert (Hres : throttleConfigRef resumed
                 = {| throttled := false; paused := false;
                      delay := delay (throttleConfigRef st);
                      _previousState :=
                        Some {| prevThrottled := throttled (throttleConfigRef st);
                                prevDelay := delay (throttleConfigRef st) |} |}).
  { unfold resumed, togglePause. rewrite Hcfg. reflexivity. }
  assert (Hend : throttleConfigRef (handleSearchChange "" resumed)
                 = throttleConfigRef resumed).
  { rewrite ControllerFacts.search_end_config, Hres.
    destruct (negb (searchQuery resumed =? "")%string); reflexivity. }
  conjuncts.
  - unfold modeIn. rewrite Hres. reflexivity.
  - unfold modeIn. rewrite Hend, Hres. reflexivity.
  - rewrite Hend. exact Hres.
Qed.

(** The sink throttled to 250 ms: search, Resume, clear the box. *)
Lemma resume_during_search_drops_throttle_witness :
  modeIn Sample.throttledAt1000 = Throttled 250
  /\ modeIn (handleSearchChange ""
               (togglePause (handleSearchChange "err" Sample.throttledAt1000)))
     = Normal.
Proof.
  assert (H1 : searchQuery Sample.throttledAt1000 = "")
    by (vm_compute; reflexivity).
  assert (H2 : paused (throttleConfigRef Sample.throttledAt1000) = false)
    by (vm_compute; reflexivity).
  assert (H3 : "err" <> "") by discriminate.
  split; [vm_compute; reflexivity|].
  exact (proj1 (proj2 (resume_during_search_drops_throttle "err"
                         Sample.throttledAt1000 H1 H3 H2))).
Defined.

End RunFacts.

(* ===================================================================== *)
(** * Part XVI: what holds of every run                                   *)
(* ===================================================================== *)

Module InvariantFacts.
Import Value Classifier Sink Spec Run.

(** ** From the steps of a call to the call *)

Section Calls.

Variable Inv : state -> Prop.
Hypothesis logger_inv :
  forall color a now st, Inv st -> Inv (stateOf (genericLogger color a now st)).
Hypothesis clear_inv : forall st, Inv st -> Inv (clear st).
Hypothesis nativeOut_inv : forall x st, Inv st -> Inv (set_nativeOut x st).
Hypothesis earlyLogs_inv : forall x st, Inv st -> Inv (set_earlyLogs x st).

Lemma andThen_inv (o : outcome) (k : state -> outcome) :
  Inv (stateOf o) ->
  (forall s, Inv s -> Inv (stateOf (k s))) ->
  Inv (stateOf (andThen o k)).
Proof. destruct o; cbn; auto. Qed.

Lemma callFn_inv (f : fn) :
  forall a now st, Inv st -> Inv (stateOf (callFn f a now st)).
Proof.
  induction f as [m | m orig IH | m saved IH]; intros a now st H; cbn [callFn].
  - cbn [stateOf]. apply nativeOut_inv, H.
  - apply IH, earlyLogs_inv, H.
  - apply andThen_inv; [|intros s Hs; apply IH, Hs].
    destruct m; cbv iota;
      [apply logger_inv, H | apply logger_inv, H | apply logger_inv, H
      | apply logger_inv, H | cbn [stateOf]; apply clear_inv, H].
Qed.

Lemma replayEach_inv (sl : screenLogObj) (logs : list earlyLog) (now : Z) :
  forall st, Inv st -> Inv (stateOf (replayEach sl logs now st)).
Proof.
  induction logs as [|l logs IH]; intros st H; cbn [replayEach].
  - exact H.
  - apply andThen_inv; [apply callFn_inv, H|]. intros s Hs. apply IH, Hs.
Qed.

Lemma replayLogsToScreenLogger_inv (maxEntries : nat) (now : Z) (st : state) :
  Inv st -> Inv (stateOf (replayLogsToScreenLogger maxEntries now st)).
Proof.
  intros H. unfold replayLogsToScreenLogger.
  destruct (screenLog st) as [sl|]; [|exact H].
  destruct (earlyLogs st) as [|l0 ls]; [exact H|].
  apply andThen_inv; [apply callFn_inv, H|]. intros s Hs.
  apply andThen_inv; [apply replayEach_inv, Hs|].
  intros s' Hs'. apply callFn_inv, Hs'.
Qed.

Lemma consoleCall_inv (m : method) (a : list value) (now : Z) (st : state) :
  Inv st -> Inv (stateOf (consoleCall m a now st)).
Proof. intros H. apply callFn_inv, H. Qed.

Lemma handleCall_inv (m : method) (a : list value) (now : Z) (st : state) :
  Inv st -> Inv (stateOf (handleCall m a now st)).
Proof.
  intros H. unfold handleCall.
  destruct (screenLog st); [apply callFn_inv, H|exact H].
Qed.

End Calls.

(** ** The mount effect *)

Lemma genericLogger_control (color : string) (a : list value) (now : Z)
      (st : state) :
  control (stateOf (genericLogger color a now st)) = control st.
Proof.
  destruct (CallFacts.genericLogger_cases color a now st)
    as [-> | (st' & -> & H & _)]; [reflexivity|exact H].
Qed.

Lemma startContinuousTestSignals_control (st : state) :
  control (startContinuousTestSignals st) = control st.
Proof.
  unfold startContinuousTestSignals, stopContinuousTestSignals.
  destruct (testSignalIntervalRef st); reflexivity.
Qed.

Lemma stopContinuousTestSignals_control (st : state) :
  control (stopContinuousTestSignals st) = control st.
Proof.
  unfold stopContinuousTestSignals.
  destruct (testSignalIntervalRef st); reflexivity.
Qed.

(** Whatever a call does, it leaves [control] as it was. *)
Lemma callFn_control (f : fn) (a : list value) (now : Z) (st : state) :
  control (stateOf (callFn f a now st)) = control st.
Proof.
  apply (callFn_inv (fun s => control s = control st)); try reflexivity.
  - intros color a0 now0 s H. rewrite genericLogger_control. exact H.
  - intros s H. rewrite (proj1 (CallFacts.clear_control s)). exact H.
  - intros x s H. exact H.
  - intros x s H. exact H.
Qed.

Lemma replayLogsToScreenLogger_control (maxEntries : nat) (now : Z) (st : state) :
  control (stateOf (replayLogsToScreenLogger maxEntries now st)) = control st.
Proof.
  apply (replayLogsToScreenLogger_inv (fun s => control s = control st));
    try reflexivity.
  - intros color a0 now0 s H. rewrite genericLogger_control. exact H.
  - intros s H. rewrite (proj1 (CallFacts.clear_control s)). exact H.
  - intros x s H. exact H.
  - intros x s H. exact H.
Qed.

Lemma control_isInitializedRef (a b : state) :
  control a = control b -> isInitializedRef a = isInitializedRef b.
Proof. intros H. exact (f_equal (fun c => snd (fst c)) H). Qed.

(** The state an attach leaves is initialised, also when the replay
    throws; so the assignment that follows [initScreenLog()] in the
    mount effect changes nothing. *)
Lemma initScreenLog_flag (now : Z) (st : state) :
  isInitializedRef (stateOf (initScreenLog now st)) = true.
Proof.
  unfold initScreenLog.
  destruct (isInitializedRef st && logElementRef st) eqn:Hg.
  - cbn [stateOf]. apply andb_prop in Hg. apply Hg.
  - apply (andThen_inv (fun s => isInitializedRef s = true)).
    + rewrite (control_isInitializedRef _ _ (genericLogger_control _ _ _ _)).
      reflexivity.
    + intros s Hs.
      apply (andThen_inv (fun s => isInitializedRef s = true)).
      * rewrite (control_isInitializedRef _ _
                   (replayLogsToScreenLogger_control 200 now s)).
        exact Hs.
      * intros s' Hs'. cbn [stateOf].
        destruct (enableTesting s' && initiallyVisible s'); [|exact Hs'].
        rewrite (control_isInitializedRef _ _
                   (startContinuousTestSignals_control s')).
        exact Hs'.
Qed.

Lemma react_Init (now : Z) (st : state) :
  react Init now st = stateOf (initScreenLog now st).
Proof.
  pose proof (initScreenLog_flag now st) as H.
  unfold react. destruct (initScreenLog now st) as [s|s]; [|reflexivity].
  cbn [stateOf] in *. destruct s. cbn in H. subst. reflexivity.
Qed.

(** ** From the steps of the component to its runs *)

Section Runs.

Variable Inv : state -> Prop.
Hypothesis logger_inv :
  forall color a now st, Inv st -> Inv (stateOf (genericLogger color a now st)).
Hypothesis clear_inv : forall st, Inv st -> Inv (clear st).
Hypothesis nativeOut_inv : forall x st, Inv st -> Inv (set_nativeOut x st).
Hypothesis earlyLogs_inv : forall x st, Inv st -> Inv (set_earlyLogs x st).
Hypothesis start_inv : forall st, Inv st -> Inv (startContinuousTestSignals st).
Hypothesis stop_inv : forall st, Inv st -> Inv (stopContinuousTestSignals st).
Hypothesis panel_inv :
  forall st, Inv st -> isInitializedRef st && logElementRef st = false ->
    Inv (set_isInitializedRef true
           (set_screenLog (Some (handle (console st)))
              (set_console (decorate (console st))
                 (set_logElementRef true (set_content (Some []) st))))).
Hypothesis destroy_inv :
  forall sl st, Inv st -> screenLog st = Some sl -> Inv (destroy sl st).
Hypothesis toggle_inv : forall now st, Inv st -> Inv (toggleThrottling now st).
Hypothesis pause_inv : forall st, Inv st -> Inv (togglePause st).
Hypothesis search_inv : forall q st, Inv st -> Inv (handleSearchChange q st).
Hypothesis clearTimer_inv : forall id st, Inv st -> Inv (clearTimer id st).
Hypothesis count_inv : forall n st, Inv st -> Inv (set_testSignalCountRef n st).

Lemma initScreenLog_inv (now : Z) (st : state) :
  Inv st -> Inv (stateOf (initScreenLog now st)).
Proof.
  intros H. unfold initScreenLog.
  destruct (isInitializedRef st && logElementRef st) eqn:Hg; [exact H|].
  apply andThen_inv; [apply logger_inv, panel_inv; assumption|].
  intros s Hs. apply andThen_inv.
  - apply replayLogsToScreenLogger_inv; assumption.
  - intros s' Hs'. cbn [stateOf].
    destruct (enableTesting s' && initiallyVisible s'); auto.
Qed.

Lemma unmount_inv (st : state) : Inv st -> Inv (unmount st).
Proof.
  intros H. unfold unmount. apply stop_inv.
  destruct (screenLog st) as [sl|] eqn:Hs; [|exact H].
  destruct (isInitializedRef st); [apply destroy_inv; assumption|exact H].
Qed.

Lemma runTask_inv (t : timerTask) (now : Z) (st : state) :
  Inv st -> Inv (stateOf (runTask t now st)).
Proof.
  intros H. destruct t as [| |message|]; cbn [runTask stateOf]; try exact H.
  - apply andThen_inv.
    + destruct (screenLog st); [apply callFn_inv; assumption|exact H].
    + intros s Hs. cbn [stateOf]. destruct (enableTesting s); auto.
  - cbn [screenLog set_testSignalCountRef].
    destruct (screenLog st) as [sl|]; [|apply count_inv, H].
    apply callFn_inv; auto.
Qed.

Lemma fire_inv (id : nat) (now : Z) (st : state) :
  Inv st -> Inv (stateOf (fire id now st)).
Proof.
  intros H. unfold fire.
  destruct (find (fun t => timerId t =? id) (timers st)) as [t|]; [|exact H].
  apply runTask_inv. destruct (repeating t); auto.
Qed.

Lemma react_inv (ev : event) (now : Z) (st : state) :
  Inv st -> Inv (react ev now st).
Proof.
  intros H. destruct ev; try rewrite react_Init; cbn [react].
  - apply consoleCall_inv; assumption.
  - apply handleCall_inv; assumption.
  - apply replayLogsToScreenLogger_inv; assumption.
  - apply initScreenLog_inv, H.
  - destruct (screenLog st) as [sl|] eqn:Hs; [apply destroy_inv; assumption|exact H].
  - apply unmount_inv, H.
  - apply toggle_inv, H.
  - apply pause_inv, H.
  - apply search_inv, H.
  - apply start_inv, H.
  - apply stop_inv, H.
  - apply fire_inv, H.
Qed.

Lemma runEvents_inv (evs : list (event * Z)) :
  forall st, Inv st -> Inv (runEvents evs st).
Proof.
  induction evs as [|[ev now] evs IH]; intros st H; cbn [runEvents].
  - exact H.
  - apply IH, react_inv, H.
Qed.

End Runs.

(** ** The bindings *)

Lemma wired_wiring (c0 : consoleObj) (st st' : state) :
  wiring st' = wiring st -> wired c0 st -> wired c0 st'.
Proof.
  unfold wiring, wired. intros [= -> -> -> ->]. auto.
Qed.

Lemma control_wiring (st st' : state) :
  control st' = control st -> wiring st' = wiring st.
Proof.
  unfold control, wiring. intros [= _ -> -> -> -> _]. reflexivity.
Qed.

Lemma toggleThrottling_wiring (now : Z) (st : state) :
  wiring (toggleThrottling now st) = wiring st.
Proof.
  destruct st. unfold toggleThrottling, stopContinuousTestSignals,
    cancelThrottleTimeout, wiring. by_cases.
Qed.

Lemma handleSearchChange_wiring (q : string) (st : state) :
  wiring (handleSearchChange q st) = wiring st.
Proof.
  destruct st. unfold handleSearchChange, wiring. by_cases.
Qed.

(** X14.  In every run the decorators are one deep: whatever is
    called, clicked or comes due, and however often the component is
    attached and destroyed, the console is bound either to the
    functions the first attach found or to one decorator over each of
    them, and [window.screenLog], once set, holds the handle over those
    same functions. *)
Theorem decorators_never_stack (c0 : consoleObj) (evs : list (event * Z))
        (st : state) :
  wired c0 st -> wired c0 (runEvents evs st).
Proof.
  apply (runEvents_inv (wired c0)).
  - intros color a now s. apply wired_wiring, control_wiring,
      genericLogger_control.
  - intros s. apply wired_wiring, control_wiring, CallFacts.clear_control.
  - intros x s. apply wired_wiring. reflexivity.
  - intros x s. apply wired_wiring. reflexivity.
  - intros s. apply wired_wiring, control_wiring,
      startContinuousTestSignals_control.
  - intros s. apply wired_wiring, control_wiring,
      stopContinuousTestSignals_control.
  - intros s [(Hc & _ & Hl & Hi) | (_ & _ & Hl & Hi)] Hg.
    + right. cbn. rewrite Hc. auto.
    + rewrite Hl, Hi in Hg. discriminate.
  - intros sl s Hw Hs.
    assert (Hsl : sl = handle c0).
    { destruct Hw as [(_ & [Hn | Hh] & _) | (_ & Hh & _)]; congruence. }
    subst sl. left. unfold destroy, cancelThrottleTimeout. cbn.
    destruct (throttleTimeoutRef s); cbn; auto.
  - intros now s. apply wired_wiring, toggleThrottling_wiring.
  - intros s. apply wired_wiring. reflexivity.
  - intros q s. apply wired_wiring, handleSearchChange_wiring.
  - intros id s. apply wired_wiring. reflexivity.
  - intros n s. apply wired_wiring. reflexivity.
Qed.

(** From the mount, with the early wrappers in place: two attaches, a
    destroy, a toggle and the status timer coming due. *)
Lemma decorators_never_stack_witness :
  wired earlyConsole
    (runEvents [(Console LOG (str "early"), 1%Z); (Init, 2%Z); (Toggle, 3%Z);
                (Due 2, 4%Z); (Destroy, 5%Z); (Init, 6%Z); (Init, 7%Z);
                (Console WARN [VRef 0], 8%Z)]
               (mounted Sample.cyclicHost true true)).
Proof.
  apply decorators_never_stack. left. cbn. auto.
Defined.

(** ** The queue of the throttle *)

Lemma nothingDeferred_cancel (st : state) :
  nothingDeferred st -> cancelThrottleTimeout st = st.
Proof.
  intros [H _]. unfold cancelThrottleTimeout. rewrite H. reflexivity.
Qed.

Lemma nothingDeferred_same (st st' : state) :
  throttleTimeoutRef st' = throttleTimeoutRef st ->
  pendingLogsRef st' = pendingLogsRef st \/ pendingLogsRef st' = [] ->
  nothingDeferred st -> nothingDeferred st'.
Proof.
  unfold nothingDeferred. intros -> [-> | ->] [H1 H2]; auto.
Qed.

(** X15.  The throttle never holds an entry back for later: in every
    run the timeout handle stays empty and so does the list of pending
    entries, so an entry the gate turns away is gone, and the
    cancellations in [clear], [toggleThrottling] and [destroy] find
    nothing to cancel. *)
Theorem nothing_is_ever_deferred (evs : list (event * Z)) (st : state) :
  nothingDeferred st -> nothingDeferred (runEvents evs st).
Proof.
  apply (runEvents_inv nothingDeferred).
  - intros color a now s. apply nothingDeferred_same.
    + destruct s. unfold genericLogger. by_cases.
    + left. destruct s. unfold genericLogger. by_cases.
  - intros s H. unfold clear. rewrite nothingDeferred_cancel.
    + revert H. apply nothingDeferred_same; [|right; reflexivity].
      destruct s. by_cases.
    + revert H. apply nothingDeferred_same; [|right; reflexivity].
      destruct s. by_cases.
  - intros x s. apply nothingDeferred_same; auto.
  - intros x s. apply nothingDeferred_same; auto.
  - intros s. apply nothingDeferred_same; [|left];
      destruct s; unfold startContinuousTestSignals, stopContinuousTestSignals;
      by_cases.
  - intros s. apply nothingDeferred_same; [|left];
      destruct s; unfold stopContinuousTestSignals; by_cases.
  - intros s H _. revert H. apply nothingDeferred_same; auto.
  - intros sl s H _. unfold destroy. rewrite nothingDeferred_cancel.
    + revert H. apply nothingDeferred_same; auto.
    + revert H. apply nothingDeferred_same; auto.
  - intros now s H. unfold toggleThrottling.
    rewrite (nothingDeferred_cancel s H).
    revert H. apply nothingDeferred_same; [|right];
      destruct s; unfold stopContinuousTestSignals; by_cases.
  - intros s. apply nothingDeferred_same; auto.
  - intros q s. apply nothingDeferred_same; [|left];
      destruct s; unfold handleSearchChange; by_cases.
  - intros id s. apply nothingDeferred_same; auto.
  - intros n s. apply nothingDeferred_same; auto.
Qed.

(** Throttled to 250 ms, three calls within the delay and a clear. *)
Lemma nothing_is_ever_deferred_witness :
  pendingLogsRef
    (runEvents [(Init, 0%Z); (Toggle, 1%Z); (Console LOG (str "a"), 300%Z);
                (Console LOG (str "b"), 310%Z); (Console LOG (str "c"), 320%Z);
                (Console CLEAR [], 330%Z)]
               (mounted Sample.plainHost false true))
  = [].
Proof.
  apply nothing_is_ever_deferred. split; reflexivity.
Defined.

(** ** The interval of the test signals *)

Lemma signals_clearTimer (id : nat) (st : state) :
  signals (clearTimer id st)
  = filter (fun t => negb (timerId t =? id)) (signals st).
Proof.
  unfold signals, clearTimer. cbn [timers set_timers].
  induction (timers st) as [|t l IH]; [reflexivity|].
  cbn [filter].
  destruct (negb (timerId t =? id)) eqn:Hid, (isTestSignal t) eqn:Ht;
    cbn [filter]; rewrite ?Hid, ?Ht, IH; reflexivity.
Qed.

Lemma signals_setTimer (ms : Z) (rep : bool) (t : timerTask) (st : state) :
  signals (snd (setTimer ms rep t st))
  = signals st ++ (match t with
                   | TestSignal =>
                       [{| timerId := nextTimerId st; after := ms;
                           repeating := rep; task := TestSignal |}]
                   | _ => []
                   end).
Proof.
  unfold signals, setTimer. cbn [snd timers set_timers set_nextTimerId].
  rewrite filter_app. destruct t; reflexivity.
Qed.

Lemma oneInterval_same (st st' : state) :
  signals st' = signals st ->
  testSignalIntervalRef st' = testSignalIntervalRef st ->
  oneInterval st -> oneInterval st'.
Proof. unfold oneInterval. intros -> ->. auto. Qed.

Lemma oneInterval_clearTimer (id : nat) (st : state) :
  oneInterval st -> oneInterval (clearTimer id st).
Proof.
  intros [H1 H2]. unfold oneInterval. rewrite signals_clearTimer. split.
  - intros t Ht. apply filter_In in Ht. apply (H1 t), Ht.
  - eapply Nat.le_trans; [apply filter_length_le|exact H2].
Qed.

Lemma oneInterval_cancel (st : state) :
  oneInterval st -> oneInterval (cancelThrottleTimeout st).
Proof.
  intros H. unfold cancelThrottleTimeout.
  destruct (throttleTimeoutRef st) as [id|]; [|exact H].
  apply (oneInterval_same (clearTimer id st)); try reflexivity.
  apply oneInterval_clearTimer, H.
Qed.

Lemma filter_none (A : Type) (p : A -> bool) (l : list A) :
  (forall x, In x l -> p x = false) -> filter p l = [].
Proof.
  induction l as [|x l IH]; intros H; [reflexivity|].
  cbn [filter]. rewrite (H x (in_eq x l)). apply IH.
  intros y Hy. apply H, in_cons, Hy.
Qed.

(** Stopping leaves no interval pending, provided the one pending is
    the one held. *)
Lemma stop_clears_signals (st : state) :
  oneInterval st ->
  signals (stopContinuousTestSignals st) = []
  /\ testSignalIntervalRef (stopContinuousTestSignals st) = None.
Proof.
  intros [H1 _]. unfold stopContinuousTestSignals.
  destruct (testSignalIntervalRef st) as [id|] eqn:Hid.
  - split; [|reflexivity].
    change (signals (set_testSignalIntervalRef None (clearTimer id st)))
      with (signals (clearTimer id st)).
    rewrite signals_clearTimer. apply filter_none.
    intros t Ht. specialize (H1 t Ht). injection H1 as ->.
    rewrite Nat.eqb_refl. reflexivity.
  - split; [|exact Hid].
    destruct (signals st) as [|t l] eqn:Hs; [reflexivity|].
    specialize (H1 t (in_eq t l)). discriminate.
Qed.

Lemma oneInterval_stop (st : state) :
  oneInterval st -> oneInterval (stopContinuousTestSignals st).
Proof.
  intros H. destruct (stop_clears_signals st H) as [Hs Hr].
  unfold oneInterval. rewrite Hs. split; [intros t []|cbn; lia].
Qed.

Lemma oneInterval_start (st : state) :
  oneInterval st -> oneInterval (startContinuousTestSignals st).
Proof.
  intros H. destruct (stop_clears_signals st H) as [Hs Hr].
  unfold startContinuousTestSignals.
  set (st1 := stopContinuousTestSignals st) in *.
  set (ms := if throttled (throttleConfigRef st1)
             then delay (throttleConfigRef st1) else 10%Z).
  pose proof (signals_setTimer ms true TestSignal st1) as Hset.
  rewrite Hs in Hset. cbn [app] in Hset.
  destruct (setTimer ms true TestSignal st1) as [id st2] eqn:Hst.
  assert (Hid : id = nextTimerId st1).
  { unfold setTimer in Hst. injection Hst as <- _. reflexivity. }
  cbn [snd] in Hset. unfold oneInterval.
  change (signals (set_testSignalIntervalRef (Some id) st2))
    with (signals st2).
  rewrite Hset. split; [|cbn; lia].
  intros t [<- | []]. cbn. rewrite Hid. reflexivity.
Qed.

Lemma genericLogger_signals (color : string) (a : list value) (now : Z)
      (st : state) :
  signals (stateOf (genericLogger color a now st)) = signals st
  /\ testSignalIntervalRef (stateOf (genericLogger color a now st))
     = testSignalIntervalRef st.
Proof.
  assert (Hline : forall ch ns s,
            signals (appendLine color ch now ns s) = signals s).
  { intros ch ns s. unfold appendLine. rewrite signals_setTimer.
    apply app_nil_r. }
  unfold genericLogger.
  destruct (negb (logElementRef st) || paused (throttleConfigRef st));
    [split; reflexivity|].
  destruct (content st) as [ch|]; [|split; reflexivity].
  destruct (throttled (throttleConfigRef st)).
  - destruct (delay (throttleConfigRef st) <=? now - lastLogTimeRef st)%Z;
      [|split; reflexivity].
    destruct (formatArgs (host st) a) as [ns|]; [|split; reflexivity].
    split; [apply (Hline ch ns st)|reflexivity].
  - destruct (formatArgs (host st) a) as [ns|]; [|split; reflexivity].
    split; [apply (Hline ch ns st)|reflexivity].
Qed.

Lemma oneInterval_toggle (now : Z) (st : state) :
  oneInterval st -> oneInterval (toggleThrottling now st).
Proof.
  intros H. unfold toggleThrottling.
  assert (H1 : oneInterval
                 (stopContinuousTestSignals (cancelThrottleTimeout st)))
    by apply oneInterval_stop, oneInterval_cancel, H.
  revert H1. generalize (stopContinuousTestSignals (cancelThrottleTimeout st)).
  intros s1 H1.
  destruct (toggleStep (throttleConfigRef s1)) as [[cfg message] stamp].
  apply (oneInterval_same s1); [|destruct stamp; reflexivity|exact H1].
  rewrite signals_setTimer, app_nil_r. destruct stamp; reflexivity.
Qed.

Lemma oneInterval_search (q : string) (st : state) :
  oneInterval st -> oneInterval (handleSearchChange q st).
Proof.
  apply oneInterval_same.
  - unfold handleSearchChange. rewrite signals_setTimer, app_nil_r.
    destruct st. by_cases.
  - destruct st. unfold handleSearchChange. by_cases.
Qed.

Lemma oneInterval_clear (st : state) :
  oneInterval st -> oneInterval (clear st).
Proof.
  intros H. unfold clear. apply oneInterval_cancel.
  revert H. apply oneInterval_same; destruct st; by_cases.
Qed.

Lemma runEvents_oneInterval (evs : list (event * Z)) (st : state) :
  oneInterval st -> oneInterval (runEvents evs st).
Proof.
  apply (runEvents_inv oneInterval).
  - intros color a now s. apply oneInterval_same; apply genericLogger_signals.
  - apply oneInterval_clear.
  - intros x s. apply oneInterval_same; reflexivity.
  - intros x s. apply oneInterval_same; reflexivity.
  - apply oneInterval_start.
  - apply oneInterval_stop.
  - intros s H _. revert H. apply oneInterval_same; reflexivity.
  - intros sl s H _. unfold destroy. apply oneInterval_cancel.
    revert H. apply oneInterval_same; reflexivity.
  - apply oneInterval_toggle.
  - intros s. apply oneInterval_same; reflexivity.
  - apply oneInterval_search.
  - apply oneInterval_clearTimer.
  - intros n s. apply oneInterval_same; reflexivity.
Qed.

(** X16.  In every run at most one interval of test signals is
    pending, and it is the one whose handle the component holds:
    starting the signals again, from the attach, the status timer of
    the toggle or the visibility, always clears the one before. *)
Theorem at_most_one_test_interval (evs : list (event * Z)) (st : state) :
  oneInterval st ->
  List.length (signals (runEvents evs st)) <= 1
  /\ forall t, In t (signals (runEvents evs st)) ->
               testSignalIntervalRef (runEvents evs st) = Some (timerId t).
Proof.
  intros H. destruct (runEvents_oneInterval evs st H) as [H1 H2].
  split; assumption.
Qed.

(** Testing enabled: attach, toggle, the status timer, start again,
    destroy and attach. *)
Lemma at_most_one_test_interval_witness :
  List.length
    (signals (runEvents [(Init, 0%Z); (Toggle, 1%Z); (Due 3, 60%Z);
                         (StartSignals, 70%Z); (Destroy, 80%Z); (Init, 90%Z)]
                        (mounted Sample.plainHost true true)))
  <= 1.
Proof.
  apply at_most_one_test_interval. split; [intros t []|cbn; lia].
Defined.

(** X17.  The unmount effect leaves no interval of test signals
    behind, whatever the run before it - unlike [destroy()] alone. *)
Theorem unmount_stops_the_signals (evs : list (event * Z)) (st : state) :
  oneInterval st ->
  signals (unmount (runEvents evs st)) = []
  /\ testSignalIntervalRef (unmount (runEvents evs st)) = None.
Proof.
  intros H. pose proof (runEvents_oneInterval evs st H) as Hrun.
  revert Hrun. generalize (runEvents evs st). intros s Hs.
  unfold unmount. apply stop_clears_signals.
  destruct (screenLog s) as [sl|]; [|exact Hs].
  destruct (isInitializedRef s); [|exact Hs].
  unfold destroy. apply oneInterval_cancel.
  revert Hs. apply oneInterval_same; reflexivity.
Qed.

(** Testing enabled: attach, toggle, the status timer, then unmount. *)
Lemma unmount_stops_the_signals_witness :
  signals (unmount (runEvents [(Init, 0%Z); (Toggle, 1%Z); (Due 3, 60%Z)]
                              (mounted Sample.plainHost true true)))
  = [].
Proof.
  apply unmount_stops_the_signals. split; [intros t []|cbn; lia].
Defined.

End InvariantFacts.

(* ===================================================================== *)
(** * Part XVII: the classifier on every text                             *)
(* ===================================================================== *)

Module TextFacts.
Import Value Regex Classifier Sink Spec Run.

(** ** Strings *)

Lemma length_append (a b : string) :
  String.length (a ++ b) = String.length a + String.length b.
Proof. induction a as [|c a IH]; cbn; [reflexivity|rewrite IH; reflexivity]. Qed.

Lemma length_substring0 (n : nat) (s : string) :
  String.length (JS.substring0 n s) <= n.
Proof.
  unfold JS.substring0. revert s.
  induction n as [|n IH]; intros [|c s]; cbn; try lia.
  specialize (IH s). lia.
Qed.

Lemma chars_app (a b : string) :
  JS.chars (a ++ b) = JS.chars a ++ JS.chars b.
Proof.
  unfold JS.chars. induction a as [|c a IH]; cbn; [reflexivity|].
  rewrite IH. reflexivity.
Qed.

Lemma text_app (a b : list ascii) :
  JS.text (a ++ b) = (JS.text a ++ JS.text b)%string.
Proof.
  unfold JS.text. induction a as [|c a IH]; cbn; [reflexivity|].
  rewrite IH. reflexivity.
Qed.

Lemma text_chars (s : string) : JS.text (JS.chars s) = s.
Proof. apply string_of_list_ascii_of_string. Qed.

Lemma append_empty (s : string) : (s ++ "")%string = s.
Proof. induction s as [|c s IH]; cbn; [reflexivity|rewrite IH; reflexivity]. Qed.

Lemma append_assoc (a b c : string) :
  ((a ++ b) ++ c)%string = (a ++ (b ++ c))%string.
Proof. induction a as [|x a IH]; cbn; [reflexivity|rewrite IH; reflexivity]. Qed.

Lemma concat_cons (x : string) (l : list string) :
  String.concat "" (x :: l) = (x ++ String.concat "" l)%string.
Proof.
  destruct l as [|y l]; cbn [String.concat]; [|reflexivity].
  symmetry. apply append_empty.
Qed.

Lemma concat_app (l1 l2 : list string) :
  String.concat "" (l1 ++ l2)
  = (String.concat "" l1 ++ String.concat "" l2)%string.
Proof.
  induction l1 as [|x l1 IH]; [reflexivity|].
  change ((x :: l1) ++ l2) with (x :: (l1 ++ l2)).
  rewrite !concat_cons, IH, append_assoc. reflexivity.
Qed.

(** ** The summary of a structured argument *)

Lemma clip100_length (s : string) : String.length (clip100 s) <= 100.
Proof.
  unfold clip100. destruct (100 <? String.length s) eqn:Hlong.
  - rewrite length_append. pose proof (length_substring0 97 s). cbn. lia.
  - apply Nat.ltb_ge in Hlong. exact Hlong.
Qed.

(** X18.  A structured argument that can be serialized is shown as
    one collapsed element, and its summary line is at most 100
    characters long, however many and however long the elements or the
    keys are. *)
Theorem summary_at_most_100 (e : env) (l : loc) (index argsLength : nat)
        (ns : list node) :
  formatLogText e (VRef l) index argsLength = Ok ns ->
  exists summary body,
    ns = [Details summary body] /\ String.length summary <= 100.
Proof.
  unfold formatLogText.
  destruct (Json.stringify (heap e) (VRef l)) as [body|]; [|discriminate].
  intros [= <-]. eexists. eexists. split; [reflexivity|].
  unfold previewText. apply clip100_length.
Qed.

(** Keys of forty characters each: the summary is cut. *)
Lemma summary_at_most_100_witness :
  exists summary body,
    formatLogText wideObject (VRef 0) 0 1 = Ok [Details summary body]
    /\ String.length summary <= 100.
Proof.
  destruct (formatLogText wideObject (VRef 0) 0 1) as [ns|] eqn:H;
    [|vm_compute in H; discriminate].
  destruct (summary_at_most_100 wideObject 0 0 1 ns H)
    as (summary & body & -> & Hlen).
  exists summary, body. split; [reflexivity|exact Hlen].
Defined.

(** ** The text outside the common shape *)

Lemma splitRuns_keep (l : list ascii) :
  (forall cur,
      String.concat "" (JS.splitRuns true cur [] l) = JS.text (rev cur ++ l))
  /\ (forall c run,
         String.concat "" (JS.splitRuns true [] (c :: run) l)
         = JS.text (rev (c :: run) ++ l)).
Proof.
  induction l as [|x l [IH1 IH2]]; split.
  - intros cur. cbn. rewrite app_nil_r. reflexivity.
  - intros c run. cbn [JS.splitRuns app].
    rewrite concat_cons. cbn. rewrite app_nil_r, append_empty. reflexivity.
  - intros cur. cbn [JS.splitRuns]. destruct (JS.isSpace x).
    + rewrite concat_cons, IH2, <- text_app.
      cbn [rev]; rewrite <- ?app_assoc; cbn [app]; reflexivity.
    + rewrite IH1.
      cbn [rev]; rewrite <- ?app_assoc; cbn [app]; reflexivity.
  - intros c run. cbn [JS.splitRuns]. destruct (JS.isSpace x).
    + rewrite IH2.
      cbn [rev]; rewrite <- ?app_assoc; cbn [app]; reflexivity.
    + cbn [app]. rewrite concat_cons, IH1, <- text_app.
      cbn [rev]; rewrite <- ?app_assoc; cbn [app]; reflexivity.
Qed.

Lemma splitSpacesKeep_concat (s : string) :
  String.concat "" (JS.splitSpacesKeep s) = s.
Proof.
  unfold JS.splitSpacesKeep.
  rewrite (proj1 (splitRuns_keep (JS.chars s)) []). apply text_chars.
Qed.

Lemma nodeText_formatPrimitive (s : string) :
  nodeText (formatPrimitive (PStr s)) = s.
Proof.
  unfold formatPrimitive.
  destruct (test bracketedRegex s); [reflexivity|].
  destruct (test propertyNameRegex s); [reflexivity|].
  destruct (test identifierRegex s); reflexivity.
Qed.

Lemma nodeText_renderPiece (e : env) (piece : string) :
  nodeText (renderPiece e piece) = piece.
Proof.
  unfold renderPiece.
  destruct (JS.trim piece =? "")%string; [reflexivity|].
  destruct (numeral e piece); [reflexivity|].
  apply nodeText_formatPrimitive.
Qed.

(** X19.  A text that does not have the common shape is coloured word
    by word and nothing else: the text of the nodes, read in order, is
    the text that was logged, white space included. *)
Theorem fallback_keeps_text (e : env) (p : prim) (index argsLength : nat) :
  exec commonLogRegex (stringOfPrim p) = None ->
  exists ns,
    formatLogText e (VPrim p) index argsLength
    = Ok (ns ++ trailingSpace index argsLength)
    /\ textContent ns = stringOfPrim p.
Proof.
  intros Hno. unfold formatLogText. rewrite Hno.
  eexists. split; [reflexivity|].
  unfold textContent. rewrite map_map.
  rewrite (map_ext _ (fun x => x) (nodeText_renderPiece e)), map_id.
  apply splitSpacesKeep_concat.
Qed.

(** Two words and the white space around them. *)
Lemma fallback_keeps_text_witness :
  exists ns,
    formatLogText Sample.plainHost (VPrim (PStr "  saved   42 items ")) 0 1
    = Ok (ns ++ trailingSpace 0 1)
    /\ textContent ns = "  saved   42 items ".
Proof.
  assert (H : exec commonLogRegex (stringOfPrim (PStr "  saved   42 items "))
              = None) by (vm_compute; reflexivity).
  exact (fallback_keeps_text Sample.plainHost (PStr "  saved   42 items ")
           0 1 H).
Defined.

(** ** The text of the common shape *)

(** A greedy iteration takes the whole run when the rest of the
    pattern matches after it. *)
Lemma starGreedy_max (R : Type) (p : ascii -> bool) (pre rest : list ascii)
      (k : list ascii -> option R) (r : R) :
  forallb p pre = true ->
  match rest with c :: _ => p c = false | [] => True end ->
  k rest = Some r ->
  starGreedy R p (pre ++ rest) k = Some r.
Proof.
  intros Hpre Hrest Hk. induction pre as [|c pre IH]; cbn [app].
  - destruct rest as [|c rest]; cbn; [exact Hk|]. rewrite Hrest. exact Hk.
  - cbn in Hpre. apply andb_prop in Hpre. destruct Hpre as [Hc Hpre].
    cbn. rewrite Hc, (IH Hpre). reflexivity.
Qed.

Lemma consumed_app (pre rest : list ascii) :
  consumed (pre ++ rest) rest = JS.text pre.
Proof.
  unfold consumed. rewrite length_app, Nat.add_sub.
  rewrite firstn_app, Nat.sub_diag, firstn_all. cbn.
  rewrite app_nil_r. reflexivity.
Qed.

Lemma chars_nonempty (s : string) : s <> "" -> JS.chars s <> [].
Proof.
  intros Hs H. apply Hs. rewrite <- (text_chars s), H. reflexivity.
Qed.

Lemma notc_false (p : ascii -> bool) (c : ascii) :
  notc p c = true -> p c = false.
Proof. unfold notc. apply negb_true_iff. Qed.

Lemma exec_two_words (moduleName actionName : string) :
  moduleName <> "" ->
  forallb (notc (JS.isChar "]")) (JS.chars moduleName) = true ->
  isWordOfText actionName ->
  exec commonLogRegex ("[" ++ moduleName ++ "] " ++ actionName)
  = Some [(2, actionName); (1, moduleName)].
Proof.
  intros Hm Hmc [Ha Hac].
  unfold exec. rewrite !chars_app.
  rewrite <- (text_chars moduleName) at 2.
  rewrite <- (text_chars actionName) at 2.
  apply chars_nonempty in Hm, Ha.
  revert Hm Ha Hmc Hac.
  generalize (JS.chars moduleName) (JS.chars actionName).
  intros M A HM HA HMc HAc.
  destruct M as [|c M]; [congruence|]. destruct A as [|a0 A]; [congruence|].
  cbn in HMc, HAc. apply andb_prop in HMc, HAc.
  destruct HMc as [Hc HMc]. destruct HAc as [Ha0 HAc].
  unfold commonLogRegex.
  cbn [seq run JS.chars list_ascii_of_string app JS.stripPrefix].
  rewrite Ascii.eqb_refl. cbv iota beta. rewrite Hc. unfold star.
  apply starGreedy_max; [exact HMc|reflexivity|].
  rewrite Ascii.eqb_refl. change (JS.isSpace " ") with true. cbv iota beta.
  change (starGreedy captures JS.isSpace (a0 :: A))
    with (starGreedy captures JS.isSpace ([] ++ a0 :: A)).
  apply starGreedy_max; [reflexivity|apply notc_false, Ha0|].
  rewrite Ha0. rewrite <- (app_nil_r A) at 1.
  apply starGreedy_max; [exact HAc|exact I|].
  cbv iota beta.
  change (c :: M ++ "]"%char :: " "%char :: a0 :: A)
    with ((c :: M) ++ "]"%char :: " "%char :: a0 :: A).
  rewrite consumed_app.
  rewrite <- (app_nil_r (a0 :: A)) at 1. rewrite consumed_app.
  reflexivity.
Qed.

Lemma exec_three_words (moduleName actionName paramName : string) :
  moduleName <> "" ->
  forallb (notc (JS.isChar "]")) (JS.chars moduleName) = true ->
  isWordOfText actionName ->
  isWordOfText paramName ->
  exec commonLogRegex
       ("[" ++ moduleName ++ "] " ++ actionName ++ " " ++ paramName)
  = Some [(3, paramName); (2, actionName); (1, moduleName)].
Proof.
  intros Hm Hmc [Ha Hac] [Hq Hqc].
  unfold exec. rewrite !chars_app.
  rewrite <- (text_chars moduleName) at 2.
  rewrite <- (text_chars actionName) at 2.
  rewrite <- (text_chars paramName) at 2.
  apply chars_nonempty in Hm, Ha, Hq.
  revert Hm Ha Hq Hmc Hac Hqc.
  generalize (JS.chars moduleName) (JS.chars actionName) (JS.chars paramName).
  intros M A Q HM HA HQ HMc HAc HQc.
  destruct M as [|c M]; [congruence|]. destruct A as [|a0 A]; [congruence|].
  destruct Q as [|q0 Q]; [congruence|].
  cbn in HMc, HAc, HQc. apply andb_prop in HMc, HAc, HQc.
  destruct HMc as [Hc HMc]. destruct HAc as [Ha0 HAc].
  destruct HQc as [Hq0 HQc].
  unfold commonLogRegex.
  cbn [seq run JS.chars list_ascii_of_string app JS.stripPrefix].
  rewrite Ascii.eqb_refl. cbv iota beta. rewrite Hc. unfold star.
  apply starGreedy_max; [exact HMc|reflexivity|].
  rewrite Ascii.eqb_refl. change (JS.isSpace " ") with true. cbv iota beta.
  match goal with
  | |- starGreedy _ _ ?s _ = _ => change s with ([] ++ s)
  end.
  apply starGreedy_max; [reflexivity|apply notc_false, Ha0|].
  rewrite Ha0.
  apply starGreedy_max; [exact HAc|reflexivity|].
  change (JS.isSpace " ") with true. cbv iota beta.
  match goal with
  | |- match starGreedy _ _ ?s _ with _ => _ end = _ =>
      change s with ([] ++ s)
  end.
  erewrite starGreedy_max; [reflexivity|reflexivity|apply notc_false, Hq0|].
  rewrite Hq0. rewrite <- (app_nil_r Q) at 1.
  apply starGreedy_max; [exact HQc|exact I|].
  cbv iota beta. cbn [app].
  change (c :: M ++ "]"%char :: " "%char :: a0 :: A ++ " "%char :: q0 :: Q)
    with ((c :: M) ++ "]"%char :: " "%char :: a0 :: A ++ " "%char :: q0 :: Q).
  rewrite consumed_app.
  change (a0 :: A ++ " "%char :: q0 :: Q)
    with ((a0 :: A) ++ " "%char :: q0 :: Q).
  rewrite consumed_app.
  rewrite <- (app_nil_r (q0 :: Q)) at 1. rewrite consumed_app.
  reflexivity.
Qed.

(** X20.  Every text of the shape [[module] action], with or without
    a third word, is rendered as the bracketed module in bold, the
    action and the third word, each followed by one space - whatever
    the module, as long as it holds no closing bracket, and whatever
    the words. *)
Theorem module_action_shape (e : env) (moduleName actionName : string)
        (paramName : option string) (index argsLength : nat) :
  moduleName <> "" ->
  forallb (notc (JS.isChar "]")) (JS.chars moduleName) = true ->
  isWordOfText actionName ->
  match paramName with Some word => isWordOfText word | None => True end ->
  formatLogText e
    (VPrim (PStr ("[" ++ moduleName ++ "] " ++ actionName
                      ++ thirdWord paramName)))
    index argsLength
  = Ok ([Span bracketColor true ("[" ++ moduleName ++ "] ");
         Span identifierColor false (actionName ++ " ")]
          ++ match paramName with
             | Some word => [Span propertyColor false (word ++ " ")]
             | None => []
             end
          ++ trailingSpace index argsLength).
Proof.
  intros Hm Hmc Ha Hq. unfold formatLogText. cbn [stringOfPrim].
  destruct paramName as [word|]; cbn [thirdWord].
  - rewrite (exec_three_words moduleName actionName word Hm Hmc Ha Hq).
    cbn [group Nat.eqb truthy].
    destruct Hq as [Hne _]. destruct word as [|w0 word]; [congruence|].
    cbn [truthy app]. reflexivity.
  - rewrite append_empty.
    rewrite (exec_two_words moduleName actionName Hm Hmc Ha).
    reflexivity.
Qed.

(** A module name with a space in it, and a third word. *)
Lemma module_action_shape_witness :
  formatLogText Sample.plainHost
    (VPrim (PStr "[Patch Bay] select bank-2")) 0 1
  = Ok [Span bracketColor true "[Patch Bay] ";
        Span identifierColor false "select ";
        Span propertyColor false "bank-2 "].
Proof.
  assert (H1 : "Patch Bay" <> "") by discriminate.
  assert (H2 : forallb (notc (JS.isChar "]")) (JS.chars "Patch Bay") = true)
    by reflexivity.
  assert (H3 : isWordOfText "select") by (split; [discriminate|reflexivity]).
  assert (H4 : isWordOfText "bank-2") by (split; [discriminate|reflexivity]).
  exact (module_action_shape Sample.plainHost "Patch Bay" "select"
           (Some "bank-2") 0 1 H1 H2 H3 H4).
Defined.

End TextFacts.

(* ===================================================================== *)
(** * Part XVIII: clearing, and the test signals                          *)
(* ===================================================================== *)

Module PanelFacts.
Import Value Classifier Sink Spec Run.

(** X21.  [console.clear()] on an attached sink empties the panel and
    is passed on to the host's console; it is not recorded in the early
    buffer, and it leaves the controller and the time of the last entry
    as they were, so a closed throttle gate stays closed. *)
Theorem clear_empties_panel (a : list value) (now : Z) (st : state)
        (ch : list logLine) :
  console st = decorate earlyConsole ->
  logElementRef st = true ->
  content st = Some ch ->
  exists st',
    consoleCall CLEAR a now st = Done st'
    /\ content st' = Some []
    /\ nativeOut st' = nativeOut st ++ [(CLEAR, a)]
    /\ earlyLogs st' = earlyLogs st
    /\ control st' = control st
    /\ lastLogTimeRef st' = lastLogTimeRef st.
Proof.
  intros Hc Hl Hch.
  exists (set_nativeOut (nativeOut (clear st) ++ [(CLEAR, a)]) (clear st)).
  destruct (CallFacts.clear_control st) as (Hctl & He & Hn).
  conjuncts.
  - unfold consoleCall. rewrite Hc. reflexivity.
  - unfold clear, cancelThrottleTimeout. rewrite Hl, Hch. cbn.
    destruct (throttleTimeoutRef st); reflexivity.
  - cbn. rewrite Hn. reflexivity.
  - exact He.
  - exact Hctl.
  - unfold clear, cancelThrottleTimeout. rewrite Hl, Hch. cbn.
    destruct (throttleTimeoutRef st); reflexivity.
Qed.

(** The attached sink of the sample, which shows its first entries. *)
Lemma clear_empties_panel_witness :
  entryCount Sample.attached = 6
  /\ content (stateOf (consoleCall CLEAR [] 11 Sample.attached)) = Some [].
Proof.
  split; [vm_compute; reflexivity|].
  destruct (content Sample.attached) as [ch|] eqn:Hch;
    [|vm_compute in Hch; discriminate].
  assert (Hc : console Sample.attached = decorate earlyConsole)
    by (vm_compute; reflexivity).
  assert (Hl : logElementRef Sample.attached = true)
    by (vm_compute; reflexivity).
  destruct (clear_empties_panel [] 11 Sample.attached ch Hc Hl Hch)
    as (st' & -> & H & _).
  exact H.
Defined.

(** X22.  Each time the interval of the test signals comes due on an
    attached sink in Normal mode, the counter goes up by one and one
    numbered entry is shown; the entry is also printed by the host's
    console and recorded in the early buffer, which therefore grows
    with every signal; the interval stays pending. *)
Theorem test_signal_fires (e : env) (id : nat) (now : Z) (st : state)
        (ch : list logLine) (t : timer) :
  Attached e ch st ->
  find (fun t => timerId t =? id) (timers st) = Some t ->
  task t = TestSignal ->
  repeating t = true ->
  let text :=
    ("Test log #" ++ JS.stringOfZ (Z.of_nat (S (testSignalCountRef st)))
       ++ " (sending 100 logs per second)")%string in
  exists st',
    fire id now st = Done st'
    /\ testSignalCountRef st' = S (testSignalCountRef st)
    /\ shown st' = shown st ++ [(logColor, rendered e (str text))]
    /\ nativeOut st' = nativeOut st ++ [(LOG, str text)]
    /\ earlyLogs st'
       = earlyLogs st ++ [{| type := LOG; args := str text; timestamp := now |}]
    /\ In t (timers st').
Proof.
  intros (Hh & Hs & Hi & Hl & Hmode & Hch) Hfind Htask Hrep text.
  set (st1 := set_testSignalCountRef (S (testSignalCountRef st)) st).
  destruct (SinkFacts.modeIn_normal st Hmode) as [Hp Ht].
  assert (Hrun : fire id now st
                 = callFn (Decorated LOG (EarlyCapture LOG (Native LOG)))
                          (str text) now st1).
  { unfold fire. rewrite Hfind, Hrep, Htask. cbn [runTask].
    fold st1. change (screenLog st1) with (screenLog st). rewrite Hs.
    unfold testSignalText.
    change (throttleConfigRef st1) with (throttleConfigRef st). rewrite Ht.
    reflexivity. }
  assert (Hshow := ReplayFacts.callFn_shows LOG (str text) now st1 ch
                     (rendered e (str text))).
  rewrite Hshow in Hrun; try assumption; try discriminate.
  - eexists. split; [exact Hrun|]. conjuncts; try reflexivity.
    + unfold shown. cbn. rewrite Hch, map_app. reflexivity.
    + cbn. apply in_or_app. left. apply (find_some _ _ Hfind).
  - change (host st1) with (host st). rewrite Hh.
    apply ReplayFacts.formatArgs_rendered, ReplayFacts.renders_str.
Qed.

(** Testing enabled: the first signal after the attach. *)
Lemma test_signal_fires_witness :
  testSignalCountRef (stateOf (fire 2 10 Sample.testingAttached)) = 1
  /\ entryCount (stateOf (fire 2 10 Sample.testingAttached)) = 2.
Proof.
  destruct (content Sample.testingAttached) as [ch|] eqn:Hch;
    [|vm_compute in Hch; discriminate].
  destruct (find (fun t => timerId t =? 2) (timers Sample.testingAttached))
    as [t|] eqn:Hfind; [|vm_compute in Hfind; discriminate].
  assert (Htask : task t = TestSignal).
  { vm_compute in Hfind. injection Hfind as <-. reflexivity. }
  assert (Hrep : repeating t = true).
  { vm_compute in Hfind. injection Hfind as <-. reflexivity. }
  assert (Hatt : Attached Sample.plainHost ch Sample.testingAttached).
  { unfold Attached. conjuncts; try exact Hch; vm_compute; reflexivity. }
  destruct (test_signal_fires Sample.plainHost 2 10 Sample.testingAttached
              ch t Hatt Hfind Htask Hrep)
    as (st' & -> & Hcount & Hshown & _).
  cbn [stateOf]. split.
  - rewrite Hcount. vm_compute. reflexivity.
  - unfold entryCount.
    assert (Hlen : List.length (shown st') = 2).
    { rewrite Hshown, length_app. unfold shown. rewrite Hch, length_map.
      vm_compute in Hch. injection Hch as <-. reflexivity. }
    unfold shown in Hlen. destruct (content st'); [|discriminate].
    rewrite length_map in Hlen. exact Hlen.
Defined.

End PanelFacts.

(* ===================================================================== *)
(** * Part XIX: the Leva variant and the earlier revision                 *)
(* ===================================================================== *)

Module VariantFacts.
Import Value.

(** ** The Leva variant: from [createLoggers] to [destroyLogger] *)

Lemma processLog_wiring (ty : Leva.method) (a : list value) (now : Z)
      (st : Leva.state) :
  LevaRun.wiring (Leva.processLog ty a now st) = LevaRun.wiring st.
Proof.
  unfold Leva.processLog.
  destruct (Leva.paused (Leva.throttleConfigRef st)); [reflexivity|].
  destruct (Leva.throttled (Leva.throttleConfigRef st)); [|reflexivity].
  destruct (Leva.delay (Leva.throttleConfigRef st)
            <=? now - Leva.lastLogTimeRef st)%Z; reflexivity.
Qed.

Lemma processAll_wiring (entries : list (Leva.method * list value * Z)) :
  forall st, LevaRun.wiring (LevaRun.processAll entries st) = LevaRun.wiring st.
Proof.
  induction entries as [|[[ty a] now] rest IH]; intros st; [reflexivity|].
  cbn [LevaRun.processAll]. rewrite IH. apply processLog_wiring.
Qed.

Lemma filter_out (id : nat) (l : list nat) :
  ~ In id (filter (fun t => negb (t =? id)) l).
Proof.
  intros H. apply filter_In in H. destruct H as [_ H].
  rewrite Nat.eqb_refl in H. discriminate.
Qed.

Lemma wiring_fields (a b : Leva.state) :
  LevaRun.wiring a = LevaRun.wiring b ->
  Leva.consoleMethodsRef a = Leva.consoleMethodsRef b
  /\ Leva.testSignalIntervalRef a = Leva.testSignalIntervalRef b
  /\ Leva.throttleTimeoutRef a = Leva.throttleTimeoutRef b
  /\ Leva.timers a = Leva.timers b.
Proof.
  unfold LevaRun.wiring. intros [= _ H1 _ H2 H3 _ H4 _]. auto.
Qed.

Lemma destroyLogger_fields (st : Leva.state) (m : Leva.consoleObj) (id : nat) :
  Leva.consoleMethodsRef st = Some m ->
  Leva.testSignalIntervalRef st = Some id ->
  Leva.throttleTimeoutRef st = None ->
  Leva.console (Leva.destroyLogger st) = m
  /\ Leva.screenLog (Leva.destroyLogger st) = None
  /\ Leva.isInitializedRef (Leva.destroyLogger st) = false
  /\ Leva.testSignalIntervalRef (Leva.destroyLogger st) = None
  /\ Leva.timers (Leva.destroyLogger st)
     = filter (fun t => negb (t =? id)) (Leva.timers st)
  /\ Leva.logs (Leva.destroyLogger st) = Leva.logs st.
Proof.
  intros Hm Hid Hnone.
  unfold Leva.destroyLogger, Leva.stopContinuousTestSignals,
    Leva.cancelThrottleTimeout.
  rewrite Hm. cbn. rewrite Hid. cbn. rewrite Hnone. cbn.
  conjuncts; reflexivity.
Qed.

Lemma attach_fields (now : Z) (st : Leva.state) :
  let running := Leva.startContinuousTestSignals (Leva.createLoggers now st) in
  Leva.consoleMethodsRef running
  = Some (LevaRun.originalMethods (Leva.console st))
  /\ Leva.testSignalIntervalRef running = Some (Leva.nextTimerId st)
  /\ Leva.throttleTimeoutRef running = Leva.throttleTimeoutRef st
  /\ In (Leva.nextTimerId st) (Leva.timers running).
Proof.
  unfold Leva.startContinuousTestSignals, Leva.createLoggers. cbn.
  destruct (Leva.testSignalIntervalRef st); cbn;
    (conjuncts; try reflexivity; apply in_or_app; right; left; reflexivity).
Qed.

(** X23.  In the Leva variant a destroy undoes the whole attach,
    whatever was logged in between and with the test signals running:
    the console has the methods saved by [createLoggers] back,
    [window.screenLog] is gone, and no interval of test signals is left
    pending - the entries logged stay in the panel's list. *)
Theorem leva_destroy_undoes_attach (now : Z)
        (entries : list (Leva.method * list value * Z)) (st : Leva.state) :
  Leva.throttleTimeoutRef st = None ->
  let running :=
    LevaRun.processAll entries
      (Leva.startContinuousTestSignals (Leva.createLoggers now st)) in
  let gone := Leva.destroyLogger running in
  Leva.console gone = LevaRun.originalMethods (Leva.console st)
  /\ Leva.screenLog gone = None
  /\ Leva.isInitializedRef gone = false
  /\ Leva.testSignalIntervalRef gone = None
  /\ (exists id, Leva.testSignalIntervalRef running = Some id
                 /\ In id (Leva.timers running)
                 /\ ~ In id (Leva.timers gone))
  /\ Leva.logs gone = Leva.logs running.
Proof.
  intros Hnone running gone.
  pose proof (processAll_wiring entries
                (Leva.startContinuousTestSignals (Leva.createLoggers now st)))
    as Hw.
  fold running in Hw.
  destruct (wiring_fields _ _ Hw) as (Hm & Hi & Ht & Htimers).
  destruct (attach_fields now st) as (Am & Ai & At & Ain).
  rewrite <- Hm in Am. rewrite <- Hi in Ai. rewrite <- Ht, Hnone in At.
  rewrite <- Htimers in Ain.
  destruct (destroyLogger_fields running _ _ Am Ai At)
    as (D1 & D2 & D3 & D4 & D5 & D6).
  fold gone in D1, D2, D3, D4, D5, D6.
  conjuncts; try assumption.
  exists (Leva.nextTimerId st). conjuncts; try assumption.
  rewrite D5. apply filter_out.
Qed.

(** The Leva sample, with the cyclic object logged while it runs. *)
Lemma leva_destroy_undoes_attach_witness :
  Leva.screenLog
    (Leva.destroyLogger
       (LevaRun.processAll [(Leva.LOG, [VRef 0], 5%Z)] Sample.levaRunning))
  = None
  /\ Leva.testSignalIntervalRef
       (Leva.destroyLogger
          (LevaRun.processAll [(Leva.LOG, [VRef 0], 5%Z)] Sample.levaRunning))
     = None.
Proof.
  assert (Hnone : Leva.throttleTimeoutRef Sample.levaMounted = None)
    by reflexivity.
  destruct (leva_destroy_undoes_attach 0 [(Leva.LOG, [VRef 0], 5%Z)]
              Sample.levaMounted Hnone)
    as (_ & H2 & _ & H4 & _).
  split; [exact H2|exact H4].
Defined.

(** ** The earlier revision: the width of the panel *)

(** X24.  In the earlier revision the width of the panel never grows
    with the window: for every position, a window at least as wide
    gets a percentage at most as large, and the percentage is always
    between 20 and 90. *)
Theorem narrower_window_wider_panel (w1 w2 : Z) (position : string) :
  (w1 <= w2)%Z ->
  (Earlier.percentOf (Earlier.getResponsiveWidth w2 position)
   <= Earlier.percentOf (Earlier.getResponsiveWidth w1 position))%Z
  /\ (20 <= Earlier.percentOf (Earlier.getResponsiveWidth w1 position) <= 90)%Z.
Proof.
  intros H. unfold Earlier.getResponsiveWidth.
  destruct (Z.leb_spec w1 640), (Z.leb_spec w1 1024),
    (Z.leb_spec w2 640), (Z.leb_spec w2 1024); try lia;
    destruct (Earlier.isSide position), (Earlier.isEdge position),
      (Earlier.isCorner position), (Earlier.isCenter position);
    vm_compute; repeat split; discriminate.
Qed.

(** A phone and a desktop, the panel at the bottom. *)
Lemma narrower_window_wider_panel_witness :
  Earlier.getResponsiveWidth 390 "bottom" = "90%"
  /\ Earlier.getResponsiveWidth 1440 "bottom" = "50%"
  /\ (Earlier.percentOf (Earlier.getResponsiveWidth 1440 "bottom")
      <= Earlier.percentOf (Earlier.getResponsiveWidth 390 "bottom"))%Z.
Proof.
  assert (H : (390 <= 1440)%Z) by lia.
  conjuncts; [reflexivity|reflexivity|].
  exact (proj1 (narrower_window_wider_panel 390 1440 "bottom" H)).
Defined.

End VariantFacts.

(* ===================================================================== *)
(** * Part XX: the cap of the replay                                      *)
(* ===================================================================== *)

Module CapFacts.
Import Value Classifier Sink Spec Run.

Local Arguments formatArgs : simpl never.
Local Arguments rendered : simpl never.
Local Arguments mkLine : simpl never.

Lemma skipn_snoc (A : Type) (k : nat) (l : list A) (x : A) :
  k <= List.length l -> skipn k (l ++ [x]) = skipn k l ++ [x].
Proof.
  intros Hk. rewrite skipn_app.
  replace (k - List.length l) with 0 by lia. reflexivity.
Qed.

(** What the replay selects from the buffer once the start separator
    has been recorded in it. *)
Lemma selected_entries (maxEntries : nat) (now : Z) (buffer : list earlyLog) :
  Forall (fun l => isSeparator l = false) buffer ->
  filter (fun l => negb (isSeparator l))
         (sliceLast maxEntries (buffer ++ [startEntry now]))
  = replayed maxEntries buffer.
Proof.
  intros Hnosep.
  assert (Hkeep : forall k, filter (fun l => negb (isSeparator l))
                                   (skipn k buffer ++ [startEntry now])
                            = skipn k buffer).
  { intros k. rewrite filter_app. cbn [filter].
    destruct (ReplayFacts.separators_are_separators now) as [-> _].
    cbn [negb]. rewrite app_nil_r. apply ReplayFacts.filter_all.
    apply Forall_forall. intros l Hl.
    apply CallFacts.in_skipn in Hl.
    rewrite (proj1 (Forall_forall _ _) Hnosep l Hl). reflexivity. }
  destruct maxEntries as [|k]; cbn [sliceLast replayed].
  - apply (Hkeep 0).
  - unfold lastN. rewrite length_app. cbn [List.length].
    replace (List.length buffer + 1 - S k) with (List.length buffer - k)
      by lia.
    rewrite skipn_snoc by lia. apply Hkeep.
Qed.

(** X25.  A replay capped at [maxEntries] shows, between the two
    separators, the last [maxEntries - 1] entries of the buffer and not
    the last [maxEntries]: the start separator is logged through the
    early wrapper before the buffer is cut, and takes the last place.
    A cap of 0 replays the whole buffer. *)
Theorem replay_stops_one_short_of_the_cap (e : env) (now : Z)
        (maxEntries : nat) (st : state) (ch : list logLine) :
  Attached e ch st ->
  earlyLogs st <> [] ->
  Forall (keeps e) (earlyLogs st) ->
  Forall (fun l => isSeparator l = false) (earlyLogs st) ->
  exists st',
    replayLogsToScreenLogger maxEntries now st = Done st'
    /\ shown st'
       = shown st
           ++ map (viewOf e)
                  (startEntry now :: replayed maxEntries (earlyLogs st)
                     ++ [endEntry now])
    /\ nativeOut st'
       = nativeOut st
           ++ map (fun l => (type l, args l))
                  (startEntry now :: replayed maxEntries (earlyLogs st)
                     ++ [endEntry now]).
Proof.
  intros Hatt Hne Hkeep Hnosep.
  pose proof Hatt as (Hh & Hs & Hi & Hl & Hm & Hc).
  unfold replayLogsToScreenLogger. rewrite Hs.
  destruct (earlyLogs st) as [|l0 E0] eqn:HE; [contradiction|].
  rewrite <- HE in *. clear l0 E0 HE Hne.
  change (sl_log (handle earlyConsole))
    with (Decorated LOG (EarlyCapture LOG (Native LOG))).
  change [VPrim (PStr startSeparator)] with (str startSeparator).
  change [VPrim (PStr endSeparator)] with (str endSeparator).
  rewrite (ReplayFacts.callFn_shows LOG (str startSeparator) now st ch
             (rendered e (str startSeparator))); try assumption;
    [|discriminate
     |rewrite Hh; apply ReplayFacts.formatArgs_rendered, ReplayFacts.renders_str].
  cbn [andThen].
  set (st1 := relog LOG (str startSeparator) now
                    (rendered e (str startSeparator)) ch st).
  assert (Hatt1 : Attached e (addLines e now ch [startEntry now]) st1)
    by (apply ReplayFacts.relog_attached; exact Hatt).
  destruct (ReplayFacts.relog_frame LOG (str startSeparator) now
              (rendered e (str startSeparator)) ch st)
    as (Fe & Fn & _).
  fold st1 in Fe, Fn.
  change {| type := LOG; args := str startSeparator; timestamp := now |}
    with (startEntry now) in Fe.
  rewrite Fe, (selected_entries maxEntries now (earlyLogs st) Hnosep).
  set (logs := replayed maxEntries (earlyLogs st)).
  assert (Hlogs : Forall (keeps e) logs).
  { apply Forall_forall. intros l Hin.
    apply (proj1 (Forall_forall _ _) Hkeep).
    unfold logs, replayed in Hin.
    destruct maxEntries; [exact Hin|].
    unfold lastN in Hin. apply CallFacts.in_skipn in Hin. exact Hin. }
  destruct (ReplayFacts.replayEach_attached e now logs Hlogs st1 _ Hatt1)
    as (st2 & Hrun & Hatt2 & _ & Hn2 & _).
  rewrite Hrun. cbn [andThen].
  pose proof Hatt2 as (Hh2 & _ & _ & Hl2 & Hm2 & Hcont2).
  rewrite (ReplayFacts.callFn_shows LOG (str endSeparator) now st2
             (addLines e now (addLines e now ch [startEntry now]) logs)
             (rendered e (str endSeparator))); try assumption;
    [|discriminate
     |rewrite Hh2; apply ReplayFacts.formatArgs_rendered, ReplayFacts.renders_str].
  eexists. split; [reflexivity|].
  destruct (ReplayFacts.relog_frame LOG (str endSeparator) now
              (rendered e (str endSeparator))
              (addLines e now (addLines e now ch [startEntry now]) logs)
              st2) as (_ & Gn & _).
  split.
  - unfold shown. rewrite Hc.
    change (content (relog LOG (str endSeparator) now
                       (rendered e (str endSeparator))
                       (addLines e now (addLines e now ch [startEntry now]) logs)
                       st2))
      with (Some (addLines e now (addLines e now ch [startEntry now]) logs
                    ++ [mkLine (colorOf LOG)
                          (addLines e now (addLines e now ch [startEntry now]) logs)
                          now (rendered e (str endSeparator))])).
    cbv beta iota.
    rewrite map_app, !ReplayFacts.addLines_view.
    cbn [map]. rewrite map_app. cbn [map].
    rewrite <- !app_assoc. reflexivity.
  - rewrite Gn, Hn2, Fn. cbn [map app]. rewrite map_app. cbn [map].
    rewrite <- !app_assoc. reflexivity.
Qed.

(** Three early entries and a cap of 3: the oldest is not replayed. *)
Lemma replay_stops_one_short_of_the_cap_witness :
  exists st',
    replayLogsToScreenLogger 3 20
      (set_earlyLogs (map entryOf Sample.threeCalls)
         (stateOf (initScreenLog 10 (mounted Sample.plainHost false true))))
    = Done st'
    /\ map fst (nativeOut st')
       = [LOG; WARN; ERROR; LOG].
Proof.
  set (st := set_earlyLogs (map entryOf Sample.threeCalls)
               (stateOf (initScreenLog 10 (mounted Sample.plainHost false true)))).
  destruct (content st) as [ch|] eqn:Hch; [|vm_compute in Hch; discriminate].
  assert (Hatt : Attached Sample.plainHost ch st).
  { unfold Attached. conjuncts; try exact Hch; vm_compute; reflexivity. }
  assert (Hne : earlyLogs st <> []) by (vm_compute; discriminate).
  assert (Hkeep : Forall (keeps Sample.plainHost) (earlyLogs st)).
  { repeat constructor; try discriminate; apply ReplayFacts.renders_str. }
  assert (Hnosep : Forall (fun l => isSeparator l = false) (earlyLogs st)).
  { repeat constructor. }
  destruct (replay_stops_one_short_of_the_cap Sample.plainHost 20 3 st ch
              Hatt Hne Hkeep Hnosep) as (st' & Hrun & _ & Hn).
  exists st'. split; [exact Hrun|].
  rewrite Hn. vm_compute. reflexivity.
Defined.

End CapFacts.
